(** * DocChatAgent: the retrieval-and-reranking pipeline

  A shallow embedding of [langroid/agent/special/doc_chat_agent.py]
  (class [DocChatAgent]) and the properties of its retrieval stages:
  de-duplication by document id, context-window expansion, the three
  rerankers, the lexical and fuzzy matchers, verbatim extraction and
  answer synthesis.

  Conventions of the embedding.
  - Python [int] is [Z]; lengths and list positions are [nat].
  - Python [str] is [string]; the characters considered are the 8-bit
    ones of [ascii].
  - Python [float] (and the numpy arrays of floats) is a type [F] with
    the operations of the class [FloatOps]; the real numbers and the
    IEEE-754 binary64 numbers of the kernel are its two instances.
  - A method of the agent that logs, raises or updates [self] is a
    computation in the monad [M] (state passing with an exception
    result); a method that does none of these is a plain function.
  - Collaborators whose code lives in other modules (the vector store,
    the cross-encoder, the LLM, the search helpers) are fields of
    records passed to the methods. *)

From Stdlib Require Import List String Ascii Bool Arith ZArith Lia.
From Stdlib Require Import Permutation Sorted Reals Lra DecimalString.
From Stdlib Require Import Floats.PrimFloat Floats.SpecFloat Floats.FloatAxioms.
Import ListNotations.

(* ================================================================= *)
(** * Part I. The model *)
(* ================================================================= *)

(** ** Python builtins used by the source *)

Module Py.

Section Lists.
Context {A : Type}.

(** The elements of [l] at positions [skip], [skip + step],
    [skip + 2 * step], ... ([step] is at least one). *)
Fixpoint take_every (step skip : nat) (l : list A) : list A :=
  match l with
  | [] => []
  | x :: t =>
      match skip with
      | O => x :: take_every step (step - 1) t
      | S k => take_every step k t
      end
  end.

(** [l[start::step]] for non-negative [start] and positive [step]. *)
Definition slice_from_step (start step : nat) (l : list A) : list A :=
  take_every step 0 (skipn start l).

(** [l[::-1]]. *)
Definition reversed (l : list A) : list A := rev l.

(** [l[:k]] for a Python int [k]; a negative bound counts from the end
    of the list. *)
Definition slice_to (k : Z) (l : list A) : list A :=
  if (0 <=? k)%Z then firstn (Z.to_nat k) l
  else firstn (List.length l - Z.to_nat (- k)) l.

(** [l.pop(0)]: the popped element and what is left of the list;
    [None] stands for the [IndexError] on an empty list. *)
Definition pop0 (l : list A) : option (A * list A) :=
  match l with
  | [] => None
  | x :: t => Some (x, t)
  end.

End Lists.

(** [l.remove(x)] on a list of ints: the first occurrence goes;
    [None] stands for the [ValueError] when [x] does not occur. *)
Fixpoint remove_first (x : nat) (l : list nat) : option (list nat) :=
  match l with
  | [] => None
  | y :: t =>
      if Nat.eqb y x then Some t
      else match remove_first x t with
           | Some t' => Some (y :: t')
           | None => None
           end
  end.

Section Keyed.
Context {A K : Type}.
Variable key : A -> K.
Variable ltb : K -> K -> bool.

(** Insertion into an ascending list, before the first element whose
    key is not strictly smaller. *)
Fixpoint insert_asc (x : A) (l : list A) : list A :=
  match l with
  | [] => [x]
  | y :: t =>
      if ltb (key y) (key x) then y :: insert_asc x t
      else x :: y :: t
  end.

(** [sorted(l, key=key)]: ascending and stable; only [<] is used on the
    keys. The list is sorted by insertion from the right, which gives
    the list CPython's sort gives whenever [<] is a strict weak order on
    the keys of the list; with keys that [<] does not order (a NaN among
    floats) CPython's result is another permutation. *)
Fixpoint sorted (l : list A) : list A :=
  match l with
  | [] => []
  | x :: t => insert_asc x (sorted t)
  end.

(** [sorted(l, key=key, reverse=True)]: the list is reversed, sorted
    and reversed again, so that equal keys keep their first order. *)
Definition sorted_reverse (l : list A) : list A :=
  rev (sorted (rev l)).

End Keyed.

Section Min.
Context {A K E : Type}.
Variable key : A -> E + K.
Variable ltb : K -> K -> bool.

(** The loop of [min]: [best] is the candidate and [kbest] its key.
    The key of each further element is computed, once; the element
    replaces the candidate when its key is strictly smaller, so that
    the first of the least elements is kept. An exception raised by
    [key] ends the loop. *)
Fixpoint min_from (best : A) (kbest : K) (l : list A) : E + A :=
  match l with
  | [] => inr best
  | y :: t =>
      match key y with
      | inl e => inl e
      | inr ky =>
          if ltb ky kbest then min_from y ky t else min_from best kbest t
      end
  end.

(** [min(x :: l, key=key)]: the key of the first element is computed
    too, also when it is the only one. *)
Definition min_by (x : A) (l : list A) : E + A :=
  match key x with
  | inl e => inl e
  | inr kx => min_from x kx l
  end.

End Min.

Section Dict.
Context {V : Type}.

(** A [dict] with [str] keys, in insertion order. *)
Definition dict : Type := list (string * V).

(** [d[k] = v]: an existing key keeps its place and takes the new
    value, a new key goes last. *)
Fixpoint dict_set (k : string) (v : V) (d : dict) : dict :=
  match d with
  | [] => [(k, v)]
  | (k', v') :: t =>
      if String.eqb k' k then (k', v) :: t
      else (k', v') :: dict_set k v t
  end.

(** [{k: v for (k, v) in kvs}]. *)
Definition dict_of (kvs : list (string * V)) : dict :=
  fold_left (fun d kv => dict_set (fst kv) (snd kv) d) kvs [].

(** [list(d.values())]. *)
Definition values (d : dict) : list V := map snd d.

(** [list(d.keys())]. *)
Definition keys (d : dict) : list string := map fst d.

End Dict.

(** [c.isspace()] on the characters U+0000 to U+00FF: tab, line feed,
    vertical tab, form feed, carriage return (9 to 13), the separators
    28 to 31, the space (32), next line (U+0085, 133) and the no-break
    space (U+00A0, 160). *)
Definition isspace (c : ascii) : bool :=
  let n := nat_of_ascii c in
  ((9 <=? n) && (n <=? 13)) || ((28 <=? n) && (n <=? 32))
  || (n =? 133) || (n =? 160).

(** [s.lstrip()]. *)
Fixpoint lstrip (s : string) : string :=
  match s with
  | EmptyString => EmptyString
  | String c t => if isspace c then lstrip t else s
  end.

(** [s.rstrip()]: a character goes when it is a space and everything
    after it has gone. *)
Fixpoint rstrip (s : string) : string :=
  match s with
  | EmptyString => EmptyString
  | String c t =>
      match rstrip t with
      | EmptyString => if isspace c then EmptyString else String c EmptyString
      | t' => String c t'
      end
  end.

(** [s.strip()]. *)
Definition strip (s : string) : string := rstrip (lstrip s).

(** [s.startswith(p)]. *)
Definition startswith (p s : string) : bool := String.prefix p s.

(** [s.lower()] on the characters U+0000 to U+00FF: the capital
    letters are A to Z (65 to 90) and 192 to 222 without the
    multiplication sign (215). *)
Definition lower_char (c : ascii) : ascii :=
  let n := nat_of_ascii c in
  if ((65 <=? n) && (n <=? 90))
     || ((192 <=? n) && (n <=? 222) && negb (n =? 215))
  then ascii_of_nat (n + 32) else c.

Fixpoint lower (s : string) : string :=
  match s with
  | EmptyString => EmptyString
  | String c t => String (lower_char c) (lower t)
  end.

(** [s[n:]]. *)
Fixpoint drop (n : nat) (s : string) : string :=
  match n, s with
  | O, _ => s
  | S k, String _ t => drop k t
  | S _, EmptyString => EmptyString
  end.

(** The text before and the text after the first occurrence of [sep]
    in [s]; [None] when [sep] does not occur. *)
Fixpoint partition_first (sep s : string) : option (string * string) :=
  if String.prefix sep s then Some (EmptyString, drop (String.length sep) s)
  else match s with
       | EmptyString => None
       | String c t =>
           match partition_first sep t with
           | Some (b, a) => Some (String c b, a)
           | None => None
           end
       end.

(** [s.split(sep, maxsplit=1)] for a non-empty [sep]. *)
Definition split_once (sep s : string) : list string :=
  match partition_first sep s with
  | Some (b, a) => [b; a]
  | None => [s]
  end.

(** [sep.join(parts)]. *)
Fixpoint join (sep : string) (parts : list string) : string :=
  match parts with
  | [] => EmptyString
  | [p] => p
  | p :: rest => (p ++ sep ++ join sep rest)%string
  end.

(** [s.split(sep)] for a non-empty [sep]: at most [n] cuts, and
    [String.length s] cuts are enough. *)
Fixpoint split_upto (n : nat) (sep s : string) : list string :=
  match n with
  | O => [s]
  | S k =>
      match partition_first sep s with
      | Some (b, a) => b :: split_upto k sep a
      | None => [s]
      end
  end.

Definition split (sep s : string) : list string :=
  split_upto (String.length s) sep s.

(** [str(n)] for an int. *)
Definition str_of_int (n : Z) : string :=
  DecimalString.NilZero.string_of_int (Z.to_int n).

(** The line feed and the double quote, as one-character strings. *)
Definition nl : string := String (ascii_of_nat 10) EmptyString.
Definition dquote : string := String (ascii_of_nat 34) EmptyString.

End Py.

(** ** Documents *)

(** [DocMetaData]: the fields the pipeline reads; [md_extra] holds what
    a subclass adds. *)
Record DocMetaData : Type := {
  md_id : string;
  md_source : option string;
  md_is_chunk : bool;
  md_window_ids : list string;
  md_extra : list (string * string)
}.

(** [Document]: [content], [metadata], and the fields a subclass adds
    (name and value), in declaration order. *)
Record Document : Type := {
  content : string;
  metadata : DocMetaData;
  extra_fields : list (string * string)
}.

(** [d.__fields__]: the names of the fields of the document's class. *)
Definition fields (d : Document) : list string :=
  "content"%string :: "metadata"%string :: map fst (extra_fields d).

(** [set(xs) == set(ys)] on field names. *)
Definition set_eqb (xs ys : list string) : bool :=
  forallb (fun x => existsb (String.eqb x) ys) xs
  && forallb (fun y => existsb (String.eqb y) xs) ys.

(** The document with its content replaced and every other field kept:
    the value of [p_copy] after [p_copy = p.copy()] and
    [p_copy.content = e]. *)
Definition with_content (e : string) (d : Document) : Document :=
  {| content := e; metadata := metadata d; extra_fields := extra_fields d |}.

(** [Entity], the sender of a chat document. *)
Variant Entity : Type := AGENT | LLM | USER | SYSTEM.

(** [ChatDocument] with the fields of its [ChatDocMetaData] that the
    agent sets. *)
Record ChatDocument : Type := {
  cd_content : string;
  cd_source : string;
  cd_sender : Entity;
  cd_cached : bool
}.

(** The metadata of the [ChatDocument] that [answer_from_docs] builds
    from [dict(sender=Entity.LLM)] updated with the metadata of an
    extract: a field [sender] or [cached] of the extract, which only a
    subclass of [DocMetaData] has, replaces the default. The values of
    such fields are strings here; [ChatDocMetaData] reads [sender] as
    the member of [Entity] with that value and [cached] as pydantic
    reads a [bool] ([None]: the value is refused). *)
Fixpoint lookup (name : string) (fields : list (string * string))
  : option string :=
  match fields with
  | [] => None
  | (k, v) :: t => if String.eqb k name then Some v else lookup name t
  end.

Definition entity_of_value (v : string) : option Entity :=
  if String.eqb v "Agent" then Some AGENT
  else if String.eqb v "LLM" then Some LLM
  else if String.eqb v "User" then Some USER
  else if String.eqb v "System" then Some SYSTEM
  else None.

Definition bool_of_value (v : string) : option bool :=
  let v := Py.lower v in
  if existsb (String.eqb v) ["1"; "on"; "t"; "true"; "y"; "yes"]%string
  then Some true
  else if existsb (String.eqb v) ["0"; "off"; "f"; "false"; "n"; "no"]%string
  then Some false
  else None.

Definition sender_of (m : DocMetaData) : option Entity :=
  match lookup "sender" (md_extra m) with
  | None => Some LLM
  | Some v => entity_of_value v
  end.

Definition cached_of (m : DocMetaData) : option bool :=
  match lookup "cached" (md_extra m) with
  | None => Some false
  | Some v => bool_of_value v
  end.

(** ** Floats *)

(** The float operations the source uses, on scalars. *)
Class FloatOps (F : Type) : Type := {
  f_zero : F;
  f_one : F;
  f_of_nat : nat -> F;
  f_add : F -> F -> F;
  f_mul : F -> F -> F;
  f_div : F -> F -> F;
  f_neg : F -> F;
  f_sqrt : F -> F;
  f_ltb : F -> F -> bool
}.

(** [np.exp] on a scalar. *)
Class FloatExp (F : Type) : Type := f_exp : F -> F.

(** The real numbers: floats without rounding, infinities or NaN. *)
Definition Rltb (a b : R) : bool := if Rlt_dec a b then true else false.

#[export] Instance R_ops : FloatOps R := {|
  f_zero := 0%R;
  f_one := 1%R;
  f_of_nat := INR;
  f_add := Rplus;
  f_mul := Rmult;
  f_div := Rdiv;
  f_neg := Ropp;
  f_sqrt := R_sqrt.sqrt;
  f_ltb := Rltb
|}.

#[export] Instance R_exp : FloatExp R := exp.

(** IEEE-754 binary64, the kernel's floats: what Python's [float]
    computes with. [len(result)] is small, so counting up is exact. *)
Fixpoint float_of_nat (n : nat) : float :=
  match n with
  | O => 0%float
  | S k => (float_of_nat k + 1)%float
  end.

#[export] Instance float_ops : FloatOps float := {|
  f_zero := 0%float;
  f_one := 1%float;
  f_of_nat := float_of_nat;
  f_add := PrimFloat.add;
  f_mul := PrimFloat.mul;
  f_div := PrimFloat.div;
  f_neg := PrimFloat.opp;
  f_sqrt := PrimFloat.sqrt;
  f_ltb := PrimFloat.ltb
|}.

(** The two comparisons the statements about floats use besides [<]:
    [<=], and the test for NaN. *)
Class FloatCompare (F : Type) : Type := {
  f_leb : F -> F -> bool;
  f_is_nan : F -> bool
}.

Definition Rleb (a b : R) : bool := if Rle_dec a b then true else false.

#[export] Instance R_compare : FloatCompare R := {|
  f_leb := Rleb;
  f_is_nan := fun _ => false
|}.

#[export] Instance float_compare : FloatCompare float := {|
  f_leb := PrimFloat.leb;
  f_is_nan := PrimFloat.is_nan
|}.

Section Numpy.
Context {F : Type} `{FloatOps F}.

(** [sum(xs)]: Python adds from the left, starting at 0. *)
Definition py_sum (xs : list F) : F := fold_left f_add xs f_zero.

(** The sum of the products of the components of two vectors of one
    length, added from the left. In which order numpy adds the products
    is up to its BLAS, and on floats the order can change the last bits
    of the sum; the statements about the reranker hold whatever the
    value of the sum is, and the vectors of the examples have two
    components, whose products have one sum in any order. *)
Definition sum_of_products (u v : list F) : F :=
  py_sum (map (fun p => f_mul (fst p) (snd p)) (combine u v)).

(** [np.linalg.norm(u)]: the Euclidean norm, the square root of the
    product of [u] with itself. *)
Definition np_norm (u : list F) : F := f_sqrt (sum_of_products u u).

(** [1.0 / (1 + np.exp(-x))] on one score. *)
Definition logistic `{FloatExp F} (x : F) : F :=
  f_div f_one (f_add f_one (f_exp (f_neg x))).

End Numpy.

(** ** Effects: exceptions, the log, the agent's mutable attributes *)

Variant exn : Type :=
  | ValueError (msg : string)
  | IndexError (msg : string)
  | ImportError (msg : string)
  | AttributeError (msg : string)
  | ZeroDivisionError (msg : string).

(** [u @ v] on one-dimensional arrays: the sum of the products of the
    components; numpy raises [ValueError] when the lengths differ. *)
Definition np_dot {F : Type} `{FloatOps F} (u v : list F) : exn + F :=
  if List.length u =? List.length v then inr (sum_of_products u v)
  else inl (ValueError
              ("matmul: Input operand 1 has a mismatch in its core dimension 0, "
               ++ "with gufunc signature (n?,k),(k,m?)->(n?,m?) (size "
               ++ Py.str_of_int (Z.of_nat (List.length v))
               ++ " is different from "
               ++ Py.str_of_int (Z.of_nat (List.length u)) ++ ")")).

(** What an LLM call is made for. *)
Variant llm_purpose : Type :=
  | Standalone | Hypothetical | Rephrase | Extraction | Summary.

(** What a run leaves behind besides its result. *)
Variant event : Type :=
  | Warning (msg : string)
  | LLMCall (purpose : llm_purpose) (prompt : string).

(** The attributes of [self] that the methods assign to, and the log. *)
Record State : Type := {
  dialog : list (string * string);
  response : option ChatDocument;
  log : list event
}.

(** A method body: from the state before to the result (a value, or
    the exception raised) and the state after. *)
Definition M (A : Type) : Type := State -> (exn + A) * State.

Definition ret {A : Type} (a : A) : M A := fun s => (inr a, s).

Definition raise {A : Type} (e : exn) : M A := fun s => (inl e, s).

Definition bind {A B : Type} (m : M A) (k : A -> M B) : M B :=
  fun s =>
    match m s with
    | (inl e, s') => (inl e, s')
    | (inr a, s') => k a s'
    end.

Definition emit (ev : event) : M unit :=
  fun s => (inr tt, {| dialog := dialog s; response := response s;
                       log := log s ++ [ev] |}).

(** [logger.warning(msg)]. *)
Definition warning (msg : string) : M unit := emit (Warning msg).

(** [self.update_dialog(q, a)]. *)
Definition update_dialog (q a : string) : M unit :=
  fun s => (inr tt, {| dialog := dialog s ++ [(q, a)]; response := response s;
                       log := log s |}).

(** [self.response = r]. *)
Definition set_response (r : ChatDocument) : M unit :=
  fun s => (inr tt, {| dialog := dialog s; response := Some r; log := log s |}).

Definition get_dialog : M (list (string * string)) :=
  fun s => (inr (dialog s), s).

Declare Scope monad_scope.
Delimit Scope monad_scope with monad.
Notation "x <- m ;; k" := (bind m (fun x => k))
  (at level 61, m at next level, right associativity) : monad_scope.
Notation "m ;;; k" := (bind m (fun _ => k))
  (at level 61, right associativity) : monad_scope.
Open Scope monad_scope.

(** The events a computation adds to the log of [s]. *)
Definition emitted {A : Type} (m : M A) (s : State) : list event :=
  skipn (List.length (log s)) (log (snd (m s))).

(** ** Configuration, collaborators and the agent *)

(** [OpenAIGPTConfig], as far as the agent reads it. *)
Record LLMConfig : Type := {
  chat_model : string;
  stream : bool
}.

(** [RelevanceExtractorAgentConfig]. *)
Record RelevanceExtractorAgentConfig : Type := {
  rx_llm : option LLMConfig;
  rx_query : string;
  rx_segment_length : Z
}.

(** [DocChatAgentConfig]: the options the retrieval and answer stages
    read. [n_similar_docs] is [parsing.n_similar_docs];
    [summarize_prompt q e] is the template [summarize_prompt] formatted
    with [question=q] and [extracts=e]. *)
Record Config : Type := {
  summarize_prompt : string -> string -> string;
  retrieve_only : bool;
  extraction_granularity : Z;
  filter : option string;
  conversation_mode : bool;
  assistant_mode : bool;
  hypothetical_answer : bool;
  n_query_rephrases : Z;
  n_neighbor_chunks : Z;
  n_fuzzy_neighbor_words : Z;
  use_fuzzy_match : bool;
  use_bm25_search : bool;
  cross_encoder_reranking_model : string;
  rerank_diversity : bool;
  rerank_periphery : bool;
  relevance_extractor_config : option RelevanceExtractorAgentConfig;
  n_similar_docs : Z;
  llm_config : LLMConfig
}.

(** [VectorStore] of [langroid.vector_store.base], with the embedding
    function of its embedding model. The embedding function returns one
    vector per text. *)
Record VectorStore (F : Type) : Type := {
  similar_texts_with_scores :
    string -> Z -> option string -> list (Document * F);
  vs_add_context_window :
    list (Document * F) -> Z -> list (Document * F);
  embedding_fn : list string -> list (list F);
  embedding_fn_length :
    forall texts, List.length (embedding_fn texts) = List.length texts
}.
Arguments similar_texts_with_scores {F}.
Arguments vs_add_context_window {F}.
Arguments embedding_fn {F}.
Arguments embedding_fn_length {F}.

(** A loaded [sentence_transformers.CrossEncoder]: [predict] returns
    one score per (query, passage) pair. *)
Record CrossEncoderModel (F : Type) : Type := {
  predict : list (string * string) -> list F;
  predict_length :
    forall pairs, List.length (predict pairs) = List.length pairs
}.
Arguments predict {F}.
Arguments predict_length {F}.

(** [self.llm], a [LanguageModel]. *)
Record LanguageModel : Type := {
  followup_to_standalone : list (string * string) -> string -> string
}.

(** What the module imports and inherits: the constant [NO_ANSWER],
    [Document.id], the search helpers of [langroid.parsing.search], the
    cross-encoder loader ([None] when [sentence_transformers] cannot be
    imported), [run_batch_tasks] on the relevance-extractor task, and
    the LLM responses of the [ChatAgent] base class. *)
Record Imports (F : Type) : Type := {
  NO_ANSWER : string;
  doc_id : Document -> string;
  find_closest_matches_with_bm25 :
    list Document -> list Document -> string -> Z -> list (Document * F);
  find_fuzzy_matches_in_docs :
    string -> list Document -> list Document -> Z -> Z -> Z -> list Document;
  CrossEncoder : string -> option (CrossEncoderModel F);
  run_batch_tasks :
    RelevanceExtractorAgentConfig -> list string -> list (option ChatDocument);
  llm_response_forget : string -> ChatDocument;
  llm_response_temp_context : string -> string -> ChatDocument
}.
Arguments NO_ANSWER {F}.
Arguments doc_id {F}.
Arguments find_closest_matches_with_bm25 {F}.
Arguments find_fuzzy_matches_in_docs {F}.
Arguments CrossEncoder {F}.
Arguments run_batch_tasks {F}.
Arguments llm_response_forget {F}.
Arguments llm_response_temp_context {F}.

(** [self]: the attributes the methods only read. *)
Record Agent (F : Type) : Type := {
  config : Config;
  vecdb : option (VectorStore F);
  llm : option LanguageModel;
  chunked_docs : option (list Document);
  chunked_docs_clean : option (list Document)
}.
Arguments config {F}.
Arguments vecdb {F}.
Arguments llm {F}.
Arguments chunked_docs {F}.
Arguments chunked_docs_clean {F}.

(** ** The rerankers *)

Section Periphery.
Context {A : Type}.

(** [rerank_to_periphery]; the method reads nothing of [self].
<<
    odds = passages[::2]
    evens = passages[1::2][::-1]
    return odds + evens
>> *)
Definition rerank_to_periphery (passages : list A) : list A :=
  let odds := Py.slice_from_step 0 2 passages in
  let evens := Py.reversed (Py.slice_from_step 1 2 passages) in
  odds ++ evens.

End Periphery.

Section DiversityLoop.
Context {K : Type}.
Variable avg_similarity_to_result : nat -> list nat -> exn + K.
Variable ltb : K -> K -> bool.

(** [min(indices, key=lambda i: avg_similarity_to_result(i, result))]
    for [indices = i :: rest]; it raises what the key raises. *)
Definition least_similar_item (result : list nat) (i : nat) (rest : list nat)
  : exn + nat :=
  Py.min_by (fun j => avg_similarity_to_result j result) ltb i rest.

(** One pass of the body of [while indices:]: the least similar index
    is appended to [result] and removed from [indices]. *)
Definition diversity_step (indices result : list nat)
  : option (exn + list nat * list nat) :=
  match indices with
  | [] => None
  | i :: rest =>
      match least_similar_item result i rest with
      | inl e => Some (inl e)
      | inr least =>
          match Py.remove_first least indices with
          | None => Some (inl (ValueError "list.remove(x): x not in list"))
          | Some indices' => Some (inr (indices', result ++ [least]))
          end
      end
  end.

(** The [while] loop, run for at most [n] passes. *)
Fixpoint diversity_loop (n : nat) (indices result : list nat)
  : exn + list nat :=
  match n with
  | O => inr result
  | S n' =>
      match diversity_step indices result with
      | None => inr result
      | Some (inl e) => inl e
      | Some (inr (indices', result')) => diversity_loop n' indices' result'
      end
  end.

(** The [while] loop as the source runs it, without a bound on the
    number of passes: from [indices] and [result] to the exception
    raised or to [result] at exit. *)
Inductive while_indices : list nat -> list nat -> exn + list nat -> Prop :=
  | while_exit (result : list nat) :
      while_indices [] result (inr result)
  | while_raise (indices result : list nat) (e : exn) :
      diversity_step indices result = Some (inl e) ->
      while_indices indices result (inl e)
  | while_pass (indices result indices' result' : list nat)
               (out : exn + list nat) :
      diversity_step indices result = Some (inr (indices', result')) ->
      while_indices indices' result' out ->
      while_indices indices result out.

End DiversityLoop.

(** [[passages[i] for i in result]]. *)
Fixpoint getitems {A : Type} (passages : list A) (result : list nat)
  : exn + list A :=
  match result with
  | [] => inr []
  | i :: rest =>
      match nth_error passages i with
      | None => inl (IndexError "list index out of range")
      | Some p =>
          match getitems passages rest with
          | inl e => inl e
          | inr ps => inr (p :: ps)
          end
      end
  end.

(** ** The methods of [DocChatAgent] *)

Section Methods.
Context {F : Type} `{FloatOps F} `{FloatExp F}.
Variable imp : Imports F.
Variable self : Agent F.

(** [get_similar_chunks_bm25]. *)
Definition get_similar_chunks_bm25 (query : string) (multiple : Z)
  : M (list (Document * F)) :=
  match chunked_docs self with
  | None =>
      warning "No chunked docs; cannot use bm25-similarity" ;;; ret []
  | Some docs =>
      if List.length docs =? 0 then
        warning "No chunked docs; cannot use bm25-similarity" ;;; ret []
      else
        match chunked_docs_clean self with
        | None =>
            warning "No cleaned chunked docs; cannot use bm25-similarity" ;;;
            ret []
        | Some docs_clean =>
            if List.length docs_clean =? 0 then
              warning "No cleaned chunked docs; cannot use bm25-similarity" ;;;
              ret []
            else
              ret (find_closest_matches_with_bm25 imp docs docs_clean query
                     (n_similar_docs (config self) * multiple)%Z)
        end
  end.

(** [get_fuzzy_matches]. *)
Definition get_fuzzy_matches (query : string) (multiple : Z)
  : M (list Document) :=
  match chunked_docs self with
  | None => warning "No chunked docs; cannot use fuzzy matching" ;;; ret []
  | Some docs =>
      match chunked_docs_clean self with
      | None =>
          warning "No cleaned chunked docs; cannot use fuzzy-search" ;;; ret []
      | Some docs_clean =>
          ret (find_fuzzy_matches_in_docs imp query docs docs_clean
                 (n_similar_docs (config self) * multiple)%Z
                 (n_fuzzy_neighbor_words (config self))
                 (n_fuzzy_neighbor_words (config self)))
      end
  end.

(** [rerank_with_cross_encoder]. *)
Definition rerank_with_cross_encoder (query : string)
  (passages : list Document) : M (list Document) :=
  match CrossEncoder imp (cross_encoder_reranking_model (config self)) with
  | None =>
      raise (ImportError ("
                    To use cross-encoder re-ranking, you must install
                    langroid with the [hf-embeddings] extra, e.g.:
                    pip install " ++ Py.dquote ++ "langroid[hf-embeddings]"
                          ++ Py.dquote ++ "
                    "))
  | Some model =>
      let scores := predict model (map (fun p => (query, content p)) passages) in
      let scores := map logistic scores in
      let sorted_pairs :=
        Py.sorted_reverse fst f_ltb (combine scores passages) in
      ret (map snd (Py.slice_to (n_similar_docs (config self)) sorted_pairs))
  end.

(** One term of the sum in [avg_similarity_to_result]:
    [(embs_arr[i] @ embs_arr[j]) / (norm(embs_arr[i]) * norm(embs_arr[j]))].
    The product comes first and raises when the two embeddings differ
    in length. [embs_arr[i]] is in range for every index the loop
    uses. *)
Definition cosine (embs_arr : list (list F)) (i j : nat) : exn + F :=
  match np_dot (nth i embs_arr []) (nth j embs_arr []) with
  | inl e => inl e
  | inr d =>
      inr (f_div d (f_mul (np_norm (nth i embs_arr []))
                          (np_norm (nth j embs_arr []))))
  end.

(** [sum(... for j in result)]: the terms are computed and added one
    after the other, from [acc]. *)
Fixpoint sum_cosines (embs_arr : list (list F)) (i : nat)
  (result : list nat) (acc : F) : exn + F :=
  match result with
  | [] => inr acc
  | j :: rest =>
      match cosine embs_arr i j with
      | inl e => inl e
      | inr c => sum_cosines embs_arr i rest (f_add acc c)
      end
  end.

(** The helper [avg_similarity_to_result] of [rerank_with_diversity],
    over the embeddings [embs_arr]. The sum of no terms is the int 0,
    whose division by [len(result) = 0] raises. *)
Definition avg_similarity_to_result (embs_arr : list (list F))
  (i : nat) (result : list nat) : exn + F :=
  match sum_cosines embs_arr i result f_zero with
  | inl e => inl e
  | inr total =>
      if List.length result =? 0
      then inl (ZeroDivisionError "division by zero")
      else inr (f_div total (f_of_nat (List.length result)))
  end.

(** [rerank_with_diversity]. *)
Definition rerank_with_diversity (passages : list Document)
  : M (list Document) :=
  match vecdb self with
  | None =>
      warning "No vecdb; cannot use rerank_with_diversity" ;;; ret passages
  | Some db =>
      let embs_arr := embedding_fn db (map content passages) in
      let indices := seq 0 (List.length passages) in
      match Py.pop0 indices with
      | None => raise (IndexError "pop from empty list")
      | Some (first, indices) =>
          match diversity_loop (avg_similarity_to_result embs_arr) f_ltb
                  (List.length indices) indices [first] with
          | inl e => raise e
          | inr result =>
              match getitems passages result with
              | inl e => raise e
              | inr reranked => ret reranked
              end
          end
      end
  end.

(** [add_context_window]. *)
Definition add_context_window (docs_scores : list (Document * F))
  : list (Document * F) :=
  match vecdb self with
  | None => docs_scores
  | Some db =>
      if (n_neighbor_chunks (config self) =? 0)%Z then docs_scores
      else
        match docs_scores with
        | [] => []
        | (d0, _) :: _ =>
            if negb (set_eqb (fields d0) ["content"; "metadata"]%string)
            then docs_scores
            else vs_add_context_window db docs_scores
                   (n_neighbor_chunks (config self))
        end
  end.

(** [get_semantic_search_results]. *)
Definition get_semantic_search_results (query : string) (k : Z)
  : M (list (Document * F)) :=
  match vecdb self with
  | None => raise (ValueError "VecDB not set")
  | Some db => ret (similar_texts_with_scores db query k (filter (config self)))
  end.

(** The loop of [get_relevant_chunks] over [[query] + query_proxies],
    which appends each query's hits to [docs_and_scores]. *)
Fixpoint semantic_hits (qs : list string) (k : Z)
  (docs_and_scores : list (Document * F)) : M (list (Document * F)) :=
  match qs with
  | [] => ret docs_and_scores
  | q :: rest =>
      hits <- get_semantic_search_results q k ;;
      semantic_hits rest k (docs_and_scores ++ hits)
  end.

(** [{d.id(): (d, s) for d, s in docs_and_scores}]. *)
Definition id2doc_score (docs_and_scores : list (Document * F))
  : Py.dict (V := Document * F) :=
  Py.dict_of (map (fun ds => (doc_id imp (fst ds), ds)) docs_and_scores).

(** [{p.id(): p for p in passages}]. *)
Definition id2passage (passages : list Document) : Py.dict (V := Document) :=
  Py.dict_of (map (fun p => (doc_id imp p, p)) passages).

(** The tail of [get_relevant_chunks], from the non-empty list of
    unique passages on: context windows, then the three rerankers. *)
Definition expand_and_rerank (query : string) (passages : list Document)
  : M (list Document) :=
  let passages_scores := map (fun p => (p, f_zero)) passages in
  let passages_scores := add_context_window passages_scores in
  let passages := map fst passages_scores in
  passages <-
    (if negb (String.eqb (cross_encoder_reranking_model (config self)) "")
     then rerank_with_cross_encoder query passages
     else ret passages) ;;
  passages <-
    (if rerank_diversity (config self)
     then rerank_with_diversity passages
     else ret passages) ;;
  ret (if rerank_periphery (config self)
       then rerank_to_periphery passages
       else passages).

(** [get_relevant_chunks]. *)
Definition get_relevant_chunks (query : string) (query_proxies : list string)
  : M (list Document) :=
  let retrieval_multiple :=
    if String.eqb (cross_encoder_reranking_model (config self)) ""
    then 1%Z else 3%Z in
  match vecdb self with
  | None => raise (ValueError "VecDB not set")
  | Some _ =>
      docs_and_scores <-
        semantic_hits (query :: query_proxies)
          (n_similar_docs (config self) * retrieval_multiple)%Z [] ;;
      let docs_and_scores := Py.values (id2doc_score docs_and_scores) in
      let passages := map fst docs_and_scores in
      passages <-
        (if use_bm25_search (config self)
         then docs_scores <- get_similar_chunks_bm25 query retrieval_multiple ;;
              ret (passages ++ map fst docs_scores)
         else ret passages) ;;
      passages <-
        (if use_fuzzy_match (config self)
         then fuzzy_match_docs <- get_fuzzy_matches query retrieval_multiple ;;
              ret (passages ++ fuzzy_match_docs)
         else ret passages) ;;
      let passages := Py.values (id2passage passages) in
      if List.length passages =? 0 then ret []
      else expand_and_rerank query passages
  end.

End Methods.

(** ** Extraction and answer synthesis *)

(** [doc_string], a static method. *)
Definition doc_string (docs : list Document) : string :=
  let contents := map (fun d => ("Extract: " ++ content d)%string) docs in
  let sources := map (fun d => md_source (metadata d)) docs in
  let sources :=
    map (fun s => match s with
                  | Some s => ("Source: " ++ s)%string
                  | None => ""%string
                  end) sources in
  Py.join Py.nl
    (map (fun cs => (Py.nl ++ "                " ++ fst cs ++
                     Py.nl ++ "                " ++ snd cs ++
                     Py.nl ++ "                ")%string)
         (combine contents sources)).

(** The parsing step of [get_summary_answer], from the stripped LLM
    response [final_answer] to the pair [(content, sources)]. *)
Definition parse_final_answer (final_answer : string) : string * string :=
  if Py.startswith "SOURCE" final_answer then (final_answer, final_answer)
  else
    match Py.split_once "SOURCE:" final_answer with
    | p0 :: p1 :: _ => (Py.strip p0, Py.strip p1)
    | _ => (final_answer, ""%string)
    end.

(** The loop of [get_verbatim_extracts] over [zip(passages, extracts)]. *)
Fixpoint passage_extracts (no_answer : string)
  (pairs : list (Document * string)) : list Document :=
  match pairs with
  | [] => []
  | (p, e) :: rest =>
      if String.eqb e no_answer || (String.length e =? 0)
      then passage_extracts no_answer rest
      else with_content e p :: passage_extracts no_answer rest
  end.

Section Answering.
Context {F : Type} `{FloatOps F} `{FloatExp F}.
Variable imp : Imports F.
Variable self : Agent F.

(** [get_summary_answer]. *)
Definition get_summary_answer (question : string) (passages : list Document)
  : M ChatDocument :=
  let passages_str := doc_string passages in
  let final_prompt :=
    summarize_prompt (config self) ("Question:" ++ question)%string
      passages_str in
  emit (LLMCall Summary final_prompt) ;;;
  let answer_doc :=
    if conversation_mode (config self)
    then llm_response_temp_context imp question final_prompt
    else llm_response_forget imp final_prompt in
  let final_answer := Py.strip (cd_content answer_doc) in
  let '(content, sources) := parse_final_answer final_answer in
  ret {| cd_content := content;
         cd_source := ("SOURCE: " ++ sources)%string;
         cd_sender := LLM;
         cd_cached := cd_cached answer_doc |}.

(** [llm_hypothetical_answer]. *)
Definition llm_hypothetical_answer (query : string) : M string :=
  match llm self with
  | None => raise (ValueError "LLM not set")
  | Some _ =>
      let prompt := ("
                    Give an ideal answer to the following query,
                    in up to 3 sentences. Do not explain yourself,
                    and do not apologize, just show
                    a good possible answer, even if you do not have any information.
                    Preface your answer with " ++ Py.dquote ++
        "HYPOTHETICAL ANSWER: " ++ Py.dquote ++ "

                    QUERY: " ++ query ++ "
                    ")%string in
      emit (LLMCall Hypothetical prompt) ;;;
      ret (cd_content (llm_response_forget imp prompt))
  end.

(** [llm_rephrase_query]. *)
Definition llm_rephrase_query (query : string) : M (list string) :=
  match llm self with
  | None => raise (ValueError "LLM not set")
  | Some _ =>
      let prompt := ("
                        Rephrase the following query in " ++
        Py.str_of_int (n_query_rephrases (config self)) ++ "
                        different equivalent ways, separate them with 2 newlines.
                        QUERY: " ++ query ++ "
                        ")%string in
      emit (LLMCall Rephrase prompt) ;;;
      ret (Py.split (Py.nl ++ Py.nl)
             (cd_content (llm_response_forget imp prompt)))
  end.

(** [get_verbatim_extracts], on the values of the passages.
    [run_batch_tasks] runs the extractor once per passage. The
    assignments to [agent_cfg] reach the configuration object only. *)
Definition get_verbatim_extracts (query : string) (passages : list Document)
  : M (list Document) :=
  match relevance_extractor_config (config self) with
  | None => ret passages
  | Some agent_cfg =>
      let cfg_llm :=
        match rx_llm agent_cfg with
        | None => llm_config (config self)
        | Some c => c
        end in
      let agent_cfg :=
        {| rx_llm := Some {| chat_model := chat_model cfg_llm;
                             stream := false |};
           rx_query := query;
           rx_segment_length := extraction_granularity (config self) |} in
      let inputs := map content passages in
      fold_right (fun msg k => emit (LLMCall Extraction msg) ;;; k)
                 (ret tt) inputs ;;;
      let extracts :=
        map (fun ans => match ans with
                        | Some a => cd_content a
                        | None => NO_ANSWER imp
                        end)
            (run_batch_tasks imp agent_cfg inputs) in
      ret (passage_extracts (NO_ANSWER imp) (combine passages extracts))
  end.

(** [get_relevant_extracts]. Both uses of [StreamingIfAllowed(self.llm,
    False)] fail on entry when no LLM is set. *)
Definition get_relevant_extracts (query : string)
  : M (string * list Document) :=
  dlg <- get_dialog ;;
  query <-
    (if (0 <? List.length dlg) && negb (assistant_mode (config self))
     then match llm self with
          | None =>
              raise (AttributeError
                       "'NoneType' object has no attribute 'set_stream'")
          | Some lm =>
              emit (LLMCall Standalone query) ;;;
              ret (followup_to_standalone lm dlg query)
          end
     else ret query) ;;
  proxies <-
    (if hypothetical_answer (config self)
     then answer <- llm_hypothetical_answer query ;; ret [answer]
     else ret []) ;;
  proxies <-
    (if (0 <? n_query_rephrases (config self))%Z
     then rephrases <- llm_rephrase_query query ;; ret (proxies ++ rephrases)
     else ret proxies) ;;
  passages <- get_relevant_chunks imp self query proxies ;;
  if List.length passages =? 0 then ret (query, [])
  else
    match llm self with
    | None =>
        raise (AttributeError
                 "'NoneType' object has no attribute 'set_stream'")
    | Some _ =>
        extracts <- get_verbatim_extracts query passages ;;
        let extracts :=
          List.filter (fun e => negb (String.eqb (content e) (NO_ANSWER imp)))
                      extracts in
        ret (query, extracts)
    end.

(** [answer_from_docs]. In the [retrieve_only] branch the metadata of
    the first extract supplies the source and, when it has such
    fields, the sender and the cached flag; a missing source and a
    value that is no [Entity] or no [bool] are refused by the
    constructor of [ChatDocMetaData]. *)
Definition answer_from_docs (query : string) : M ChatDocument :=
  let response :=
    {| cd_content := NO_ANSWER imp; cd_source := "None";
       cd_sender := LLM; cd_cached := false |} in
  qe <- get_relevant_extracts query ;;
  let '(query, extracts) := qe in
  if List.length extracts =? 0 then ret response
  else
    match llm self with
    | None => raise (ValueError "LLM not set")
    | Some _ =>
        if retrieve_only (config self) then
          match extracts with
          | [] => raise (IndexError "list index out of range")
          | e0 :: _ =>
              match md_source (metadata e0) with
              | None => raise (ValueError "source")
              | Some src =>
                  match sender_of (metadata e0), cached_of (metadata e0) with
                  | Some sender, Some cached =>
                      ret {| cd_content :=
                               Py.join (Py.nl ++ Py.nl) (map content extracts);
                             cd_source := src;
                             cd_sender := sender;
                             cd_cached := cached |}
                  | None, _ => raise (ValueError "sender")
                  | _, None => raise (ValueError "cached")
                  end
              end
          end
        else
          response <- get_summary_answer query extracts ;;
          update_dialog query (cd_content response) ;;;
          set_response response ;;;
          ret response
    end.

End Answering.

(** ** Passages as objects

    [get_verbatim_extracts] copies passages and assigns to the copies.
    To say what it leaves untouched, documents are objects in a store:
    a document object holds its content, a reference to its metadata
    object, and its other fields; a passage is a reference to a
    document object. *)

Record DocObject : Type := {
  o_content : string;
  o_metadata : nat;
  o_extra : list (string * string)
}.

Record Store : Type := {
  docs : list DocObject;
  metas : list DocMetaData
}.

(** The value of the document behind the reference [r]. *)
Definition deref (st : Store) (r : nat) : option Document :=
  match nth_error (docs st) r with
  | None => None
  | Some o =>
      match nth_error (metas st) (o_metadata o) with
      | None => None
      | Some m =>
          Some {| content := o_content o; metadata := m;
                  extra_fields := o_extra o |}
      end
  end.

(** [l[i] = x] on the list of objects. *)
Fixpoint list_set {A : Type} (i : nat) (x : A) (l : list A) : list A :=
  match l, i with
  | [], _ => []
  | _ :: t, O => x :: t
  | y :: t, S k => y :: list_set k x t
  end.

(** [p.copy()]: a new object with the field values of [p]; the metadata
    object is shared, not copied. *)
Definition copy (st : Store) (p : nat) : option (Store * nat) :=
  match nth_error (docs st) p with
  | None => None
  | Some o =>
      Some ({| docs := docs st ++ [o]; metas := metas st |},
            List.length (docs st))
  end.

(** [r.content = e]. *)
Definition set_content (st : Store) (r : nat) (e : string) : Store :=
  match nth_error (docs st) r with
  | None => st
  | Some o =>
      {| docs := list_set r {| o_content := e; o_metadata := o_metadata o;
                               o_extra := o_extra o |} (docs st);
         metas := metas st |}
  end.

(** The loop of [get_verbatim_extracts] on references; [None] is a
    reference to no object, which no Python value is. *)
Fixpoint passage_extracts_in (no_answer : string) (st : Store)
  (pairs : list (nat * string)) : option (Store * list nat) :=
  match pairs with
  | [] => Some (st, [])
  | (p, e) :: rest =>
      if String.eqb e no_answer || (String.length e =? 0)
      then passage_extracts_in no_answer st rest
      else
        match copy st p with
        | None => None
        | Some (st1, p_copy) =>
            let st2 := set_content st1 p_copy e in
            match passage_extracts_in no_answer st2 rest with
            | None => None
            | Some (st3, out) => Some (st3, p_copy :: out)
            end
        end
  end.

(** The contents behind a list of references. *)
Fixpoint contents_in (st : Store) (passages : list nat) : option (list string) :=
  match passages with
  | [] => Some []
  | p :: rest =>
      match deref st p, contents_in st rest with
      | Some d, Some cs => Some (content d :: cs)
      | _, _ => None
      end
  end.

(** [get_verbatim_extracts] on a store: the store after the call and
    the references returned. *)
Definition get_verbatim_extracts_in {F : Type} (imp : Imports F)
  (self : Agent F) (query : string) (st : Store) (passages : list nat)
  : option (Store * list nat) :=
  match relevance_extractor_config (config self) with
  | None => Some (st, passages)
  | Some agent_cfg =>
      let cfg_llm :=
        match rx_llm agent_cfg with
        | None => llm_config (config self)
        | Some c => c
        end in
      let agent_cfg :=
        {| rx_llm := Some {| chat_model := chat_model cfg_llm;
                             stream := false |};
           rx_query := query;
           rx_segment_length := extraction_granularity (config self) |} in
      match contents_in st passages with
      | None => None
      | Some inputs =>
          let extracts :=
            map (fun ans => match ans with
                            | Some a => cd_content a
                            | None => NO_ANSWER imp
                            end)
                (run_batch_tasks imp agent_cfg inputs) in
          passage_extracts_in (NO_ANSWER imp) st (combine passages extracts)
      end
  end.

(** ** Defaults and sample data *)

(** The defaults of [DocChatAgentConfig]. The summary template and
    whether [sentence_transformers] was importable when the module was
    loaded are given. *)
Definition default_config (template : string -> string -> string)
  (has_sentence_transformers : bool) : Config := {|
  summarize_prompt := template;
  retrieve_only := false;
  extraction_granularity := 1;
  filter := None;
  conversation_mode := true;
  assistant_mode := false;
  hypothetical_answer := false;
  n_query_rephrases := 0;
  n_neighbor_chunks := 0;
  n_fuzzy_neighbor_words := 100;
  use_fuzzy_match := true;
  use_bm25_search := true;
  cross_encoder_reranking_model :=
    if has_sentence_transformers
    then "cross-encoder/ms-marco-MiniLM-L-6-v2"%string else ""%string;
  rerank_diversity := true;
  rerank_periphery := true;
  relevance_extractor_config :=
    Some {| rx_llm := None; rx_query := ""; rx_segment_length := 1 |};
  n_similar_docs := 3;
  llm_config := {| chat_model := "gpt-4"; stream := true |}
|}.

Module Sample.

Definition template (question extracts : string) : string :=
  (extracts ++ Py.nl ++ question)%string.

Definition meta (id : string) : DocMetaData :=
  {| md_id := id; md_source := Some ("src-" ++ id)%string;
     md_is_chunk := true; md_window_ids := []; md_extra := [] |}.

(** A plain [Document]. *)
Definition doc (id text : string) : Document :=
  {| content := text; metadata := meta id; extra_fields := [] |}.

(** A document of a subclass with one more field, [title]. *)
Definition titled_doc (id text title : string) : Document :=
  {| content := text; metadata := meta id;
     extra_fields := [("title"%string, title)] |}.

(** A vector store over [F]: the hits and the embeddings are given;
    its context window marks the content of each document. *)
Definition store {F : Type} (hits : string -> list (Document * F))
  (emb : string -> list F) : VectorStore F := {|
  similar_texts_with_scores := fun q _ _ => hits q;
  vs_add_context_window :=
    fun docs_scores _ =>
      map (fun ds => (with_content (content (fst ds) ++ " [+window]") (fst ds),
                      snd ds)) docs_scores;
  embedding_fn := map emb;
  embedding_fn_length := fun texts => length_map emb texts
|}.

(** A cross-encoder that scores a pair by a given function. *)
Definition encoder {F : Type} (score : string -> string -> F)
  : CrossEncoderModel F := {|
  predict := map (fun qp => score (fst qp) (snd qp));
  predict_length :=
    fun pairs => length_map (fun qp => score (fst qp) (snd qp)) pairs
|}.

(** Imports with no lexical or fuzzy hits and an LLM that answers
    [reply]; the extractor returns each passage whole. *)
Definition imports {F : Type} (enc : option (CrossEncoderModel F))
  (reply : string) : Imports F := {|
  NO_ANSWER := "DO-NOT-KNOW";
  doc_id := fun d => md_id (metadata d);
  find_closest_matches_with_bm25 := fun _ _ _ _ => [];
  find_fuzzy_matches_in_docs := fun _ _ _ _ _ _ => [];
  CrossEncoder := fun _ => enc;
  run_batch_tasks :=
    fun _ inputs =>
      map (fun c => Some {| cd_content := c; cd_source := "";
                            cd_sender := LLM; cd_cached := false |}) inputs;
  llm_response_forget :=
    fun _ => {| cd_content := reply; cd_source := ""; cd_sender := LLM;
                cd_cached := false |};
  llm_response_temp_context :=
    fun _ _ => {| cd_content := reply; cd_source := ""; cd_sender := LLM;
                  cd_cached := false |}
|}.

Definition agent {F : Type} (cfg : Config) (db : option (VectorStore F))
  (corpus : option (list Document)) : Agent F := {|
  config := cfg;
  vecdb := db;
  llm := Some {| followup_to_standalone := fun _ q => q |};
  chunked_docs := corpus;
  chunked_docs_clean := corpus
|}.

(** The state of a fresh agent. *)
Definition fresh : State := {| dialog := []; response := None; log := [] |}.

(** The default configuration with [n_neighbor_chunks = n]. *)
Definition config_with_neighbors (n : Z) : Config :=
  let c := default_config template false in
  {| summarize_prompt := summarize_prompt c;
     retrieve_only := retrieve_only c;
     extraction_granularity := extraction_granularity c;
     filter := filter c;
     conversation_mode := conversation_mode c;
     assistant_mode := assistant_mode c;
     hypothetical_answer := hypothetical_answer c;
     n_query_rephrases := n_query_rephrases c;
     n_neighbor_chunks := n;
     n_fuzzy_neighbor_words := n_fuzzy_neighbor_words c;
     use_fuzzy_match := use_fuzzy_match c;
     use_bm25_search := use_bm25_search c;
     cross_encoder_reranking_model := cross_encoder_reranking_model c;
     rerank_diversity := rerank_diversity c;
     rerank_periphery := rerank_periphery c;
     relevance_extractor_config := relevance_extractor_config c;
     n_similar_docs := n_similar_docs c;
     llm_config := llm_config c |}.

(** A store with two passages that share nothing, and a third that
    shares the metadata object of the first. *)
Definition objects : Store := {|
  docs := [ {| o_content := "Paris is the capital of France.";
               o_metadata := 0; o_extra := [] |};
            {| o_content := "DO-NOT-KNOW";
               o_metadata := 1; o_extra := [("title"%string, "T"%string)] |};
            {| o_content := "Lyon is a city in France.";
               o_metadata := 0; o_extra := [] |} ];
  metas := [meta "a"; meta "b"]
|}.

(** Three passages and their embeddings: the second lies close to
    the first, the third is orthogonal to it. *)
Definition passages3 : list Document :=
  [doc "a" "alpha"; doc "b" "alpha again"; doc "c" "gamma"].

Definition embed {F : Type} `{FloatOps F} (half : F) (text : string) : list F :=
  if String.eqb text "alpha" then [f_one; f_zero]
  else if String.eqb text "alpha again" then [f_one; half]
  else [f_zero; f_one].

(** Embeddings of which the second is the zero vector, whose cosine
    similarity to any vector is 0 / 0. *)
Definition embed_with_zero {F : Type} `{FloatOps F} (text : string) : list F :=
  if String.eqb text "alpha" then [f_one; f_zero]
  else if String.eqb text "alpha again" then [f_zero; f_zero]
  else [f_zero; f_one].

(** Embeddings of which the second is shorter than the others. *)
Definition embed_ragged {F : Type} `{FloatOps F} (text : string) : list F :=
  if String.eqb text "alpha" then [f_one; f_zero]
  else if String.eqb text "alpha again" then [f_one]
  else [f_zero; f_one].

(** The default configuration with [rerank_diversity] off. *)
Definition config_without_diversity : Config :=
  let c := default_config template false in
  {| summarize_prompt := summarize_prompt c;
     retrieve_only := retrieve_only c;
     extraction_granularity := extraction_granularity c;
     filter := filter c;
     conversation_mode := conversation_mode c;
     assistant_mode := assistant_mode c;
     hypothetical_answer := hypothetical_answer c;
     n_query_rephrases := n_query_rephrases c;
     n_neighbor_chunks := n_neighbor_chunks c;
     n_fuzzy_neighbor_words := n_fuzzy_neighbor_words c;
     use_fuzzy_match := use_fuzzy_match c;
     use_bm25_search := use_bm25_search c;
     cross_encoder_reranking_model := cross_encoder_reranking_model c;
     rerank_diversity := false;
     rerank_periphery := rerank_periphery c;
     relevance_extractor_config := relevance_extractor_config c;
     n_similar_docs := n_similar_docs c;
     llm_config := llm_config c |}.

(** Semantic hits for a query and one proxy: the document with id 1
    is found by both, with different content and score. *)
Definition hits (q : string) : list (Document * R) :=
  if String.eqb q "query"
  then [(doc "1" "alpha, as the query saw it", 3%R); (doc "2" "beta", 2%R)]
  else [(doc "3" "gamma", 2%R); (doc "1" "alpha, as the proxy saw it", 1%R)].

(** The configuration without diversity reranking, in [retrieve_only]
    mode. *)
Definition config_retrieve_only : Config :=
  let c := config_without_diversity in
  {| summarize_prompt := summarize_prompt c;
     retrieve_only := true;
     extraction_granularity := extraction_granularity c;
     filter := filter c;
     conversation_mode := conversation_mode c;
     assistant_mode := assistant_mode c;
     hypothetical_answer := hypothetical_answer c;
     n_query_rephrases := n_query_rephrases c;
     n_neighbor_chunks := n_neighbor_chunks c;
     n_fuzzy_neighbor_words := n_fuzzy_neighbor_words c;
     use_fuzzy_match := use_fuzzy_match c;
     use_bm25_search := use_bm25_search c;
     cross_encoder_reranking_model := cross_encoder_reranking_model c;
     rerank_diversity := rerank_diversity c;
     rerank_periphery := rerank_periphery c;
     relevance_extractor_config := relevance_extractor_config c;
     n_similar_docs := n_similar_docs c;
     llm_config := llm_config c |}.

(** One hit whose metadata has the fields [sender] and [cached] of a
    subclass of [DocMetaData]. *)
Definition user_doc : Document :=
  {| content := "alpha";
     metadata := {| md_id := "1"; md_source := Some "src-1"%string;
                    md_is_chunk := true; md_window_ids := [];
                    md_extra := [("sender", "User"); ("cached", "yes")]%string |};
     extra_fields := [] |}.

Definition user_hits (q : string) : list (Document * R) := [(user_doc, 1%R)].










End Sample.


(** ** Vocabulary of the statements *)

(** The canonical fields. *)
Definition canonical_fields : list string := ["content"; "metadata"]%string.

(** The state after one more event. *)
Definition logged (ev : event) (s : State) : State :=
  {| dialog := dialog s; response := response s; log := log s ++ [ev] |}.


(** The response of the round-trip example. *)
Definition example_response : string :=
  ("The answer is X." ++ Py.nl ++ "SOURCE: doc1.pdf")%string.

(** An event other than the LLM call that synthesises the answer. *)
Definition not_summary (ev : event) : Prop :=
  match ev with
  | LLMCall Summary _ => False
  | _ => True
  end.

(** The computation only adds events to the log, each satisfying [P]. *)
Definition adds_only {A : Type} (P : event -> Prop) (m : M A) : Prop :=
  forall s, exists evs, log (snd (m s)) = log s ++ evs /\ Forall P evs.

(** The answer of [answer_from_docs] when nothing was found. *)
Definition no_answer_response {F : Type} (imp : Imports F) : ChatDocument :=
  {| cd_content := NO_ANSWER imp; cd_source := "None";
     cd_sender := LLM; cd_cached := false |}.

(** The test of the loop of [get_verbatim_extracts]: the extract is
    neither [NO_ANSWER] nor empty. *)
Definition survives (no_answer : string) (e : string) : bool :=
  negb (String.eqb e no_answer || (String.length e =? 0)).

(** [st'] holds every object of [st], unchanged, and possibly more. *)
Definition extends (st st' : Store) : Prop :=
  metas st' = metas st /\ exists new, docs st' = docs st ++ new.

(** The reference [r] is to a new object of [st'], which is the
    document behind [p] in [st] with [e] for its content and every other
    field as it was. *)
Definition is_extract_of (st st' : Store) (pe : nat * string) (r : nat) : Prop :=
  List.length (docs st) <= r
  /\ exists d, deref st (fst pe) = Some d
               /\ deref st' r = Some (with_content (snd pe) d).

(** The strings [run_batch_tasks] and its output map return for the
    passages behind the references, as [get_verbatim_extracts] asks. *)
Definition extracts_for {F : Type} (imp : Imports F) (self : Agent F)
  (agent_cfg : RelevanceExtractorAgentConfig) (query : string)
  (inputs : list string) : list string :=
  map (fun ans => match ans with
                  | Some a => cd_content a
                  | None => NO_ANSWER imp
                  end)
      (run_batch_tasks imp
         {| rx_llm :=
              Some {| chat_model :=
                        chat_model (match rx_llm agent_cfg with
                                    | None => llm_config (config self)
                                    | Some c => c
                                    end);
                      stream := false |};
            rx_query := query;
            rx_segment_length := extraction_granularity (config self) |}
         inputs).




(** A float that is a number: not NaN. *)
Definition is_number {F : Type} `{FloatCompare F} (x : F) : Prop :=
  f_is_nan x = false.

(** The laws of [<] and [<=] on a float type that the statements about
    orders rest on: [<] is asymmetric; on numbers the negation of [<]
    is transitive and [a <= b] says that [b < a] fails; and [<=] holds
    between numbers only. *)
Definition float_order_laws (F : Type) `{FloatOps F} `{FloatCompare F}
  : Prop :=
  (forall a b : F, f_ltb a b = true -> f_ltb b a = false)
  /\ (forall a b c : F,
         is_number a -> is_number b -> is_number c ->
         f_ltb a b = false -> f_ltb b c = false -> f_ltb a c = false)
  /\ (forall a b : F,
         is_number a -> is_number b ->
         (f_leb a b = true <-> f_ltb b a = false))
  /\ (forall a b : F, f_leb a b = true -> is_number a /\ is_number b).

(** The laws of the arithmetic of a float type from which the range of
    the logistic follows: the opposite of a number is a number, [exp]
    of a number is not negative, [1 + y] is at least 1 for [y] not
    negative, and [1 / z] lies between 0 and 1 for [z] at least 1. *)
Definition float_range_laws (F : Type) `{FloatOps F} `{FloatExp F}
  `{FloatCompare F} : Prop :=
  (forall x : F, is_number x -> is_number (f_neg x))
  /\ (forall x : F, is_number x -> f_leb f_zero (f_exp x) = true)
  /\ (forall y : F, f_leb f_zero y = true ->
                    f_leb f_one (f_add f_one y) = true)
  /\ (forall z : F, f_leb f_one z = true ->
                    f_leb f_zero (f_div f_one z) = true
                    /\ f_leb (f_div f_one z) f_one = true).


(** The embeddings all have one length. *)
Definition same_dimension {F : Type} (embs : list (list F)) : Prop :=
  forall u v, In u embs -> In v embs -> List.length u = List.length v.

(** [min] on keys that are all computed: the fold that keeps the first
    of the least elements. *)
Definition min_of_keys {A K : Type} (key : A -> K) (ltb : K -> K -> bool)
  (x : A) (l : list A) : A :=
  fold_left (fun best y => if ltb (key y) (key best) then y else best) l x.

(** The key computed, or [d] when it was not. *)
Definition value_or {E K : Type} (d : K) (r : E + K) : K :=
  match r with
  | inr k => k
  | inl _ => d
  end.

(** The averages of the [candidates] over the indices [sel] are all
    computed and are numbers. *)
Definition numbers_at {F : Type} `{FloatCompare F}
  (avg : nat -> list nat -> exn + F) (sel candidates : list nat) : Prop :=
  Forall (fun y => exists a, avg y sel = inr a /\ is_number a) candidates.

(** The average of [x] over [sel] is a lowest one among the
    [candidates]: it is [<=] the average of each of them. *)
Definition lowest_at {F : Type} `{FloatCompare F}
  (avg : nat -> list nat -> exn + F) (sel : list nat) (x : nat)
  (candidates : list nat) : Prop :=
  exists ax,
    avg x sel = inr ax
    /\ Forall (fun y => exists ay, avg y sel = inr ay /\ f_leb ax ay = true)
              candidates.

(** Every index appended to [result] by the loop had, when chosen, a
    lowest average similarity to the indices before it among the
    indices still to choose from, whenever the averages compared at
    that pass were numbers. *)
Definition lowest_each_step {F : Type} `{FloatCompare F}
  (avg : nat -> list nat -> exn + F) (result : list nat) : Prop :=
  forall sel x rest,
    sel <> [] -> result = sel ++ x :: rest ->
    numbers_at avg sel (x :: rest) ->
    lowest_at avg sel x (x :: rest).






(** [(k, v)] is the last pair of [kvs] with the key [k]. *)
Definition last_with_key {V : Type} (kvs : list (string * V))
  (k : string) (v : V) : Prop :=
  exists l1 l2, kvs = l1 ++ (k, v) :: l2 /\ ~ In k (map fst l2).


(** ** Further vocabulary *)


(** [x] occurs in [s]. *)
Definition occurs_in (x s : string) : Prop :=
  exists b a, s = (b ++ x ++ a)%string.

(** The computation leaves the dialog and the saved response as they
    were, whatever it returns or raises. *)
Definition keeps_attributes {A : Type} (m : M A) : Prop :=
  forall s, dialog (snd (m s)) = dialog s /\ response (snd (m s)) = response s.

(** Whenever the index [x] was chosen while a smaller index [y] was
    still to choose from, and the averages compared at that pass were
    numbers, the average similarity of [x] to the indices chosen before
    was strictly below that of [y]: of several least similar indices
    the smallest is taken. *)
Definition earliest_on_ties {F : Type} `{FloatOps F} `{FloatCompare F}
  (avg : nat -> list nat -> exn + F) (result : list nat) : Prop :=
  forall sel x rest,
    sel <> [] -> result = sel ++ x :: rest ->
    numbers_at avg sel (x :: rest) ->
    forall y, In y rest -> y < x ->
      exists ax ay,
        avg x sel = inr ax /\ avg y sel = inr ay /\ f_ltb ax ay = true.

(** ** The corpus: clearing it and setting it up

    The methods [clear], [setup_documents] and [set_filter] assign to
    [self.vecdb], [self.original_docs], [self.chunked_docs] and
    [self.chunked_docs_clean]. These attributes are the record [Corpus];
    a method takes the corpus before the call and returns the corpus
    after it. Each of these methods raises, if it does, before its first
    assignment, so that an exception leaves the corpus as it was. *)

(** The vector store as ingestion uses it: the store that retrieval
    searches, the collection name of its configuration, and
    [get_all_documents(where)]. *)
Record Collection (F : Type) : Type := {
  searchable : VectorStore F;
  collection_name : option string;
  get_all_documents : string -> list Document
}.
Arguments searchable {F}.
Arguments collection_name {F}.
Arguments get_all_documents {F}.

Record Corpus (F : Type) : Type := {
  c_vecdb : option (Collection F);
  c_original_docs : list Document;
  c_original_docs_length : Z;
  c_chunked_docs : list Document;
  c_chunked_docs_clean : list Document
}.
Arguments c_vecdb {F}.
Arguments c_original_docs {F}.
Arguments c_original_docs_length {F}.
Arguments c_chunked_docs {F}.
Arguments c_chunked_docs_clean {F}.

(** What these methods import: [preprocess_text] of
    [langroid.parsing.utils]; [delete_collection], which returns the
    store as the call left it and the text of the exception it raised,
    if it raised one; and [VectorStore.create] on the configuration of a
    store, which returns the new store or the text of its exception. *)
Record CorpusImports (F : Type) : Type := {
  preprocess_text : string -> string;
  delete_collection : Collection F -> string -> Collection F * option string;
  VectorStore_create : Collection F -> string + Collection F
}.
Arguments preprocess_text {F}.
Arguments delete_collection {F}.
Arguments VectorStore_create {F}.

(** The corpus of a new agent, as [__init__] assigns it, before any
    ingestion. *)
Definition init_corpus {F : Type} (db : option (Collection F)) : Corpus F := {|
  c_vecdb := db;
  c_original_docs := [];
  c_original_docs_length := 0;
  c_chunked_docs := [];
  c_chunked_docs_clean := []
|}.

(** The agent that the retrieval methods see, for a corpus. *)
Definition agent_of {F : Type} (cfg : Config) (lm : option LanguageModel)
  (c : Corpus F) : Agent F := {|
  config := cfg;
  vecdb := option_map searchable (c_vecdb c);
  llm := lm;
  chunked_docs := Some (c_chunked_docs c);
  chunked_docs_clean := Some (c_chunked_docs_clean c)
|}.

(** [x or d] on an optional string: [None] and the empty string are
    falsy. *)
Definition or_default (x : option string) (d : string) : string :=
  match x with
  | None => d
  | Some s => if String.eqb s "" then d else s
  end.

(** [config.filter = flt]. *)
Definition set_config_filter (flt : option string) (c : Config) : Config := {|
  summarize_prompt := summarize_prompt c;
  retrieve_only := retrieve_only c;
  extraction_granularity := extraction_granularity c;
  filter := flt;
  conversation_mode := conversation_mode c;
  assistant_mode := assistant_mode c;
  hypothetical_answer := hypothetical_answer c;
  n_query_rephrases := n_query_rephrases c;
  n_neighbor_chunks := n_neighbor_chunks c;
  n_fuzzy_neighbor_words := n_fuzzy_neighbor_words c;
  use_fuzzy_match := use_fuzzy_match c;
  use_bm25_search := use_bm25_search c;
  cross_encoder_reranking_model := cross_encoder_reranking_model c;
  rerank_diversity := rerank_diversity c;
  rerank_periphery := rerank_periphery c;
  relevance_extractor_config := relevance_extractor_config c;
  n_similar_docs := n_similar_docs c;
  llm_config := llm_config c
|}.

Section CorpusMethods.
Context {F : Type}.
Variable cimp : CorpusImports F.

(** [clear]. *)
Definition clear (c : Corpus F) : M (Corpus F) :=
  match c_vecdb c with
  | None => raise (ValueError "VecDB not set")
  | Some db =>
      let cleared (db' : Collection F) : Corpus F :=
        {| c_vecdb := Some db';
           c_original_docs := [];
           c_original_docs_length := 0;
           c_chunked_docs := [];
           c_chunked_docs_clean := [] |} in
      match collection_name db with
      | None => ret (cleared db)
      | Some name =>
          let failed (e : string) : M unit :=
            warning ("
                Error while deleting collection " ++ name ++ ":
                " ++ e ++ "
                ") in
          match delete_collection cimp db name with
          | (db1, Some e) => failed e ;;; ret (cleared db1)
          | (db1, None) =>
              match VectorStore_create cimp db1 with
              | inl e => failed e ;;; ret (cleared db1)
              | inr db2 => ret (cleared db2)
              end
          end
      end
  end.

(** The list comprehension of [setup_documents]:
    [Document(content=preprocess_text(d.content), metadata=d.metadata)]
    for each [d]. *)
Definition clean_docs (chunked : list Document) : list Document :=
  map (fun d => {| content := preprocess_text cimp (content d);
                   metadata := metadata d;
                   extra_fields := [] |}) chunked.

(** [setup_documents(docs, filter)]. *)
Definition setup_documents (docs : list Document) (flt : option string)
  (c : Corpus F) : M (Corpus F) :=
  chunked <-
    (if (match flt with None => true | Some _ => false end)
        && (0 <? List.length docs)
     then ret (c_chunked_docs c ++ docs)
     else
       match c_vecdb c with
       | None => raise (ValueError "VecDB not set")
       | Some db => ret (get_all_documents db (or_default flt ""))
       end) ;;
  ret {| c_vecdb := c_vecdb c;
         c_original_docs := c_original_docs c;
         c_original_docs_length := c_original_docs_length c;
         c_chunked_docs := chunked;
         c_chunked_docs_clean := clean_docs chunked |}.

(** [set_filter(filter)]: the configuration and the corpus after the
    call. The assignment to [config.filter] comes first and stays when
    [setup_documents] raises. *)
Definition set_filter (flt : string) (cfg : Config) (c : Corpus F)
  : Config * M (Corpus F) :=
  (set_config_filter (Some flt) cfg, setup_documents [] (Some flt) c).

End CorpusMethods.

(** Sample data for the corpus: a collection that holds the documents
    [all] whatever the filter, whose deletion and re-creation succeed,
    and a preprocessing that strips. *)
Module CorpusSample.

Definition collection {F : Type} (all : list Document) : Collection F := {|
  searchable := Sample.store (fun _ => []) (fun _ => []);
  collection_name := Some "docs"%string;
  get_all_documents := fun _ => all
|}.

Definition imports {F : Type} : CorpusImports F := {|
  preprocess_text := Py.strip;
  delete_collection := fun db _ => (db, None);
  VectorStore_create := fun db => inr db
|}.

End CorpusSample.

(** ** Responding to a message

    [llm_response] dispatches on the text of the message: to the LLM
    directly, to [justify_response], to [summarize_docs] or to
    [answer_from_docs]. Console output ([print], the callbacks) is not
    part of the state; what [justify_response] prints is given by a
    function of its own. The calls to [llm_response] of the base class
    are given by the collaborator [super_llm_response]. *)

(** The argument of [llm_response]: [None], a [str] or a
    [ChatDocument]. *)
Variant Query : Type :=
  | NoQuery
  | TextQuery (text : string)
  | DocQuery (doc : ChatDocument).

(** [self.parser], with the two methods of its tokenizer. *)
Record Parser : Type := {
  num_tokens : string -> Z;
  tokenizer_encode : string -> list Z;
  tokenizer_decode : list Z -> string
}.

(** What the agent inherits from [ChatAgent] and reads of its LLM and
    its configuration when it responds. *)
Record ChatAgentBase : Type := {
  llm_can_respond : Query -> bool;
  super_llm_response : option string -> option ChatDocument;
  parser : option Parser;
  completion_context_length : LanguageModel -> Z;
  max_output_tokens : Z
}.

(** [self.response], read. *)
Definition get_response : M (option ChatDocument) :=
  fun s => (inr (response s), s).

(** The line [justify_response] prints. *)
Definition justification (saved : option ChatDocument) : string :=
  match saved with
  | None => "[magenta]No response yet"
  | Some r =>
      if 0 <? String.length (cd_source r)
      then ("[magenta]" ++ cd_source r)%string
      else "[magenta]No source found"
  end.

(** [justify_response]: it prints [justification] of the saved response
    and returns [None] on every path. *)
Definition justify_response : M (option ChatDocument) :=
  saved <- get_response ;;
  match saved with
  | None => ret None
  | Some r => ret None
  end.

Section Responding.
Context {F : Type} `{FloatOps F} `{FloatExp F}.
Variable imp : Imports F.
Variable self : Agent F.
Variable base : ChatAgentBase.
Variable original_docs : list Document.

(** [doc_length]. *)
Definition doc_length (docs : list Document) : M Z :=
  match parser base with
  | None => raise (ValueError "Parser not set")
  | Some p => ret (num_tokens p (doc_string docs))
  end.

(** The prompt of [summarize_docs] for the text to summarise. *)
Definition summarize_docs_prompt (instruction full_text : string) : string :=
  Py.strip ("
        " ++ instruction ++ "

        FULL TEXT:
        " ++ full_text ++ "
        ").

(** [summarize_docs(instruction)]. *)
Definition summarize_docs (instruction : string) : M (option ChatDocument) :=
  match llm self with
  | None => raise (ValueError "LLM not set")
  | Some lm =>
      if List.length original_docs =? 0 then
        warning "
                No docs to summarize! Perhaps you are re-using a previously
                defined collection?
                In that case, we don't have access to the original docs.
                To create a summary, use a new collection, and specify a list of docs.
                " ;;;
        ret None
      else
        let full_text :=
          Py.join (Py.nl ++ Py.nl) (map content original_docs) in
        match parser base with
        | None => raise (ValueError "No parser defined")
        | Some p =>
            let tot_tokens := num_tokens p full_text in
            let MAX_INPUT_TOKENS :=
              (completion_context_length base lm - max_output_tokens base
               - 100)%Z in
            full_text <-
              (if (MAX_INPUT_TOKENS <? tot_tokens)%Z then
                 let full_text :=
                   tokenizer_decode p
                     (Py.slice_to MAX_INPUT_TOKENS
                        (tokenizer_encode p full_text)) in
                 warning ("Summarizing after truncating text to " ++
                          Py.str_of_int MAX_INPUT_TOKENS ++ " tokens") ;;;
                 ret full_text
               else ret full_text) ;;
            let prompt := summarize_docs_prompt instruction full_text in
            ret (super_llm_response base (Some prompt))
        end
  end.

(** [llm_response(query)]. *)
Definition llm_response (query : Query) : M (option ChatDocument) :=
  if negb (llm_can_respond base query) then ret None
  else
    let query_str :=
      match query with
      | DocQuery d => Some (cd_content d)
      | TextQuery q => Some q
      | NoQuery => None
      end in
    match query_str with
    | None =>
        match llm self with
        | None => raise (ValueError "LLM not set")
        | Some _ => ret (super_llm_response base None)
        end
    | Some q =>
        if Py.startswith "!" q then
          let q := Py.drop 1 q in
          match llm self with
          | None => raise (ValueError "LLM not set")
          | Some _ =>
              let response := super_llm_response base (Some q) in
              update_dialog q (match response with
                               | None => ""
                               | Some r => cd_content r
                               end) ;;;
              ret response
          end
        else if String.eqb q "" then ret None
        else
          saved <- get_response ;;
          if String.eqb q "?"
             && (match saved with Some _ => true | None => false end)
          then justify_response
          else if ((Py.startswith "summar" q || Py.startswith "?" q)
                   && (match saved with None => true | Some _ => false end))
                  || String.eqb q "??"
          then summarize_docs "Give a concise summary of the following text:"
          else
            response <- answer_from_docs imp self q ;;
            ret (Some {| cd_content := cd_content response;
                         cd_source := cd_source response;
                         cd_sender := LLM;
                         cd_cached := false |})
    end.

End Responding.

(** Sample data for responding: a tokenizer with one token per
    character, an agent base that may always respond and whose LLM
    echoes the prompt, and the sample configuration in [retrieve_only]
    mode. *)
Module RespondSample.

Definition char_parser : Parser := {|
  num_tokens := fun text => Z.of_nat (String.length text);
  tokenizer_encode :=
    fun text => map (fun ch => Z.of_nat (nat_of_ascii ch))
                    (list_ascii_of_string text);
  tokenizer_decode :=
    fun tokens => string_of_list_ascii
                    (map (fun t => ascii_of_nat (Z.to_nat t)) tokens)
|}.

Definition base (context_length : Z) : ChatAgentBase := {|
  llm_can_respond := fun _ => true;
  super_llm_response :=
    fun prompt =>
      match prompt with
      | None => None
      | Some text =>
          Some {| cd_content := text; cd_source := ""; cd_sender := LLM;
                  cd_cached := false |}
      end;
  parser := Some char_parser;
  completion_context_length := fun _ => context_length;
  max_output_tokens := 0
|}.

Definition retrieve_only_config : Config :=
  let c := Sample.config_without_diversity in
  {| summarize_prompt := summarize_prompt c;
     retrieve_only := true;
     extraction_granularity := extraction_granularity c;
     filter := filter c;
     conversation_mode := conversation_mode c;
     assistant_mode := assistant_mode c;
     hypothetical_answer := hypothetical_answer c;
     n_query_rephrases := n_query_rephrases c;
     n_neighbor_chunks := n_neighbor_chunks c;
     n_fuzzy_neighbor_words := n_fuzzy_neighbor_words c;
     use_fuzzy_match := use_fuzzy_match c;
     use_bm25_search := use_bm25_search c;
     cross_encoder_reranking_model := cross_encoder_reranking_model c;
     rerank_diversity := rerank_diversity c;
     rerank_periphery := rerank_periphery c;
     relevance_extractor_config := relevance_extractor_config c;
     n_similar_docs := n_similar_docs c;
     llm_config := llm_config c |}.

End RespondSample.

(** ** Vocabulary for what retrieval returns *)

(** The passage [p] is a hit of one of the three searches that
    [get_relevant_chunks] runs: of the semantic search for the query or
    one of its proxies, of the bm25 search or of the fuzzy search, each
    asked for [n_similar_docs * retrieval_multiple] hits. *)
Definition found {F : Type} (imp : Imports F) (self : Agent F)
  (db : VectorStore F) (query : string) (query_proxies : list string)
  (p : Document) : Prop :=
  let retrieval_multiple :=
    if String.eqb (cross_encoder_reranking_model (config self)) ""
    then 1%Z else 3%Z in
  let k := (n_similar_docs (config self) * retrieval_multiple)%Z in
  (exists q,
      In q (query :: query_proxies)
      /\ In p (map fst (similar_texts_with_scores db q k (filter (config self)))))
  \/ (use_bm25_search (config self) = true
      /\ exists docs clean,
           chunked_docs self = Some docs
           /\ chunked_docs_clean self = Some clean
           /\ In p (map fst (find_closest_matches_with_bm25 imp docs clean
                               query k)))
  \/ (use_fuzzy_match (config self) = true
      /\ exists docs clean,
           chunked_docs self = Some docs
           /\ chunked_docs_clean self = Some clean
           /\ In p (find_fuzzy_matches_in_docs imp query docs clean k
                      (n_fuzzy_neighbor_words (config self))
                      (n_fuzzy_neighbor_words (config self)))).

(* ================================================================= *)
(** * Part II. Properties *)
(* ================================================================= *)

(** ** Slices and the periphery reranker *)

Example periphery_docstring :
  rerank_to_periphery [1; 2; 3; 4; 5; 6; 7; 8; 9] = [1; 3; 5; 7; 9; 8; 6; 4; 2].
Proof. reflexivity. Qed.

Section SliceFacts.
Context {A : Type}.

Lemma take_every_2_cons0 (x : A) (l : list A) :
  Py.take_every 2 0 (x :: l) = x :: Py.take_every 2 1 l.
Proof. reflexivity. Qed.

Lemma take_every_2_cons1 (x : A) (l : list A) :
  Py.take_every 2 1 (x :: l) = Py.take_every 2 0 l.
Proof. reflexivity. Qed.

Lemma slice_from_step_0_2 (l : list A) :
  Py.slice_from_step 0 2 l = Py.take_every 2 0 l.
Proof. reflexivity. Qed.

Lemma slice_from_step_1_2 (l : list A) :
  Py.slice_from_step 1 2 l = Py.take_every 2 1 l.
Proof. destruct l; reflexivity. Qed.

(** Position [i] of [l[::2]] is position [2 i] of [l], and position
    [i] of [l[1::2]] is position [2 i + 1] of [l]. *)
Lemma take_every_2_nth_error (l : list A) :
  forall i,
    nth_error (Py.take_every 2 0 l) i = nth_error l (2 * i)
    /\ nth_error (Py.take_every 2 1 l) i = nth_error l (2 * i + 1).
Proof.
  induction l as [|x t IH]; intro i.
  - split; simpl; destruct i; reflexivity.
  - rewrite take_every_2_cons0, take_every_2_cons1. split.
    + destruct i as [|i]; [reflexivity|].
      replace (2 * S i) with (S (2 * i + 1)) by lia. simpl nth_error at 1 2.
      apply (IH i).
    + replace (2 * i + 1) with (S (2 * i)) by lia. simpl nth_error at 2.
      apply (IH i).
Qed.

Lemma take_every_2_length (l : list A) :
  List.length (Py.take_every 2 0 l) = Nat.div2 (S (List.length l))
  /\ List.length (Py.take_every 2 1 l) = Nat.div2 (List.length l).
Proof.
  induction l as [|x t [IH0 IH1]]; [split; reflexivity|].
  rewrite take_every_2_cons0, take_every_2_cons1. split.
  - simpl List.length. rewrite IH1. reflexivity.
  - simpl List.length. exact IH0.
Qed.

Lemma take_every_2_perm (l : list A) :
  Permutation (Py.take_every 2 0 l ++ Py.take_every 2 1 l) l.
Proof.
  induction l as [|x t IH]; [constructor|].
  rewrite take_every_2_cons0, take_every_2_cons1. simpl. constructor.
  eapply Permutation_trans; [apply Permutation_app_comm | exact IH].
Qed.

Lemma rerank_to_periphery_unfold (l : list A) :
  rerank_to_periphery l = Py.take_every 2 0 l ++ rev (Py.take_every 2 1 l).
Proof.
  unfold rerank_to_periphery, Py.reversed.
  rewrite slice_from_step_0_2, slice_from_step_1_2. reflexivity.
Qed.

Lemma rerank_to_periphery_perm (l : list A) :
  Permutation (rerank_to_periphery l) l.
Proof.
  rewrite rerank_to_periphery_unfold.
  eapply Permutation_trans; [|apply take_every_2_perm].
  apply Permutation_app_head. symmetry. apply Permutation_rev.
Qed.

Lemma div2_split (n : nat) : Nat.div2 (S n) + Nat.div2 n = n.
Proof.
  induction n as [n IH] using lt_wf_ind.
  destruct n as [|[|n]]; [reflexivity..|].
  specialize (IH n ltac:(lia)). simpl in *. lia.
Qed.

Lemma rerank_to_periphery_front (l : list A) (i : nat) :
  i < (List.length l + 1) / 2 ->
  nth_error (rerank_to_periphery l) i = nth_error l (2 * i).
Proof.
  intro Hi. rewrite rerank_to_periphery_unfold.
  destruct (take_every_2_length l) as [L0 _].
  rewrite Nat.add_1_r, <- Nat.div2_div in Hi.
  rewrite nth_error_app1 by lia.
  apply take_every_2_nth_error.
Qed.

Lemma rerank_to_periphery_back (l : list A) (i : nat) :
  (List.length l + 1) / 2 <= i < List.length l ->
  nth_error (rerank_to_periphery l) i
  = nth_error l (2 * (List.length l - 1 - i) + 1).
Proof.
  intros [Hlo Hhi]. rewrite rerank_to_periphery_unfold.
  destruct (take_every_2_length l) as [L0 L1].
  pose proof (div2_split (List.length l)) as Hs.
  rewrite Nat.add_1_r, <- Nat.div2_div in Hlo.
  rewrite nth_error_app2 by lia.
  rewrite nth_error_rev.
  destruct (Nat.ltb_spec (i - List.length (Py.take_every 2 0 l))
              (List.length (Py.take_every 2 1 l))) as [_|Hge]; [|lia].
  destruct (take_every_2_nth_error l
              (List.length (Py.take_every 2 1 l)
               - S (i - List.length (Py.take_every 2 0 l)))) as [_ ->].
  f_equal. lia.
Qed.

End SliceFacts.

(** C3. [rerank_to_periphery] returns a permutation of its input: first
    the elements at the even 0-based positions in their order (position
    [i] of the output is position [2 i] of the input), then the elements
    at the odd positions in reverse order; [A .. I] goes to
    [A C E G I H F D B], and [1 .. 9] to [1 3 5 7 9 8 6 4 2]. *)
Theorem rerank_to_periphery_spec :
  (forall (A : Type) (passages : list A),
      Permutation (rerank_to_periphery passages) passages
      /\ rerank_to_periphery passages
         = Py.slice_from_step 0 2 passages
           ++ rev (Py.slice_from_step 1 2 passages)
      /\ (forall i,
             nth_error (Py.slice_from_step 0 2 passages) i
             = nth_error passages (2 * i)
             /\ nth_error (Py.slice_from_step 1 2 passages) i
                = nth_error passages (2 * i + 1))
      /\ (forall i, i < (List.length passages + 1) / 2 ->
                    nth_error (rerank_to_periphery passages) i
                    = nth_error passages (2 * i))
      /\ (forall i, (List.length passages + 1) / 2 <= i < List.length passages ->
                    nth_error (rerank_to_periphery passages) i
                    = nth_error passages (2 * (List.length passages - 1 - i) + 1)))
  /\ rerank_to_periphery ["A"; "B"; "C"; "D"; "E"; "F"; "G"; "H"; "I"]%string
     = ["A"; "C"; "E"; "G"; "I"; "H"; "F"; "D"; "B"]%string
  /\ rerank_to_periphery [1; 2; 3; 4; 5; 6; 7; 8; 9]
     = [1; 3; 5; 7; 9; 8; 6; 4; 2].
Proof.
  split; [|split; reflexivity].
  intros A passages. split; [apply rerank_to_periphery_perm|].
  split; [reflexivity|]. split.
  - intro i. rewrite slice_from_step_0_2, slice_from_step_1_2.
    apply take_every_2_nth_error.
  - split; intros i Hi.
    + now apply rerank_to_periphery_front.
    + now apply rerank_to_periphery_back.
Qed.

(** ** The monad *)

Lemma bind_ret_l {A B : Type} (a : A) (k : A -> M B) (s : State) :
  bind (ret a) k s = k a s.
Proof. reflexivity. Qed.

Lemma bind_raise {A B : Type} (e : exn) (k : A -> M B) (s : State) :
  bind (raise e) k s = (inl e, s).
Proof. reflexivity. Qed.

Lemma bind_inr {A B : Type} (m : M A) (k : A -> M B) (s s' : State) (a : A) :
  m s = (inr a, s') -> bind m k s = k a s'.
Proof. unfold bind. now intros ->. Qed.

Lemma bind_inl {A B : Type} (m : M A) (k : A -> M B) (s s' : State) (e : exn) :
  m s = (inl e, s') -> bind m k s = (inl e, s').
Proof. unfold bind. now intros ->. Qed.

(** ** Context windows *)

Lemma set_eqb_fields_canonical (d : Document) :
  set_eqb (fields d) canonical_fields = true
  <-> (forall f, In f (map fst (extra_fields d)) ->
                 f = "content"%string \/ f = "metadata"%string).
Proof.
  unfold set_eqb, fields, canonical_fields.
  change (forallb (fun y => existsb (String.eqb y)
                              ("content"%string :: "metadata"%string
                               :: map fst (extra_fields d)))
                  ["content"%string; "metadata"%string]) with true.
  rewrite andb_true_r. simpl forallb at 1. simpl andb.
  rewrite forallb_forall. split.
  - intros Hall f Hf. specialize (Hall f Hf). simpl in Hall.
    rewrite orb_false_r in Hall. apply orb_true_iff in Hall.
    destruct Hall as [E|E]; apply String.eqb_eq in E; auto.
  - intros Hall f Hf. destruct (Hall f Hf) as [->| ->]; reflexivity.
Qed.

Lemma set_eqb_fields_plain (d : Document) :
  extra_fields d = [] -> set_eqb (fields d) canonical_fields = true.
Proof.
  intro E. apply set_eqb_fields_canonical. rewrite E. intros f [].
Qed.

(** C2, as amended. [add_context_window] returns its input when
    [n_neighbor_chunks] is 0 (and when no vector store is set, and [[]]
    on the empty list); it returns its input when the first document of
    the batch has a field set other than {content, metadata}; in every
    other case it returns what the vector store's [add_context_window]
    returns on the whole batch, whatever fields the later documents
    carry. A document has the canonical field set exactly when every
    further field it has is named content or metadata. *)
Theorem add_context_window_spec :
  forall (F : Type) (self : Agent F) (docs_scores : list (Document * F)),
    (n_neighbor_chunks (config self) = 0%Z ->
     add_context_window self docs_scores = docs_scores)
    /\ (vecdb self = None ->
        add_context_window self docs_scores = docs_scores)
    /\ (docs_scores = [] -> add_context_window self docs_scores = [])
    /\ (forall d0 s0 rest,
           docs_scores = (d0, s0) :: rest ->
           set_eqb (fields d0) canonical_fields = false ->
           add_context_window self docs_scores = docs_scores)
    /\ (forall db d0 s0 rest,
           vecdb self = Some db ->
           n_neighbor_chunks (config self) <> 0%Z ->
           docs_scores = (d0, s0) :: rest ->
           set_eqb (fields d0) canonical_fields = true ->
           add_context_window self docs_scores
           = vs_add_context_window db docs_scores
               (n_neighbor_chunks (config self)))
    /\ (forall d, set_eqb (fields d) canonical_fields = true
                  <-> (forall f, In f (map fst (extra_fields d)) ->
                                 f = "content"%string \/ f = "metadata"%string)).
Proof.
  intros F self docs_scores. unfold add_context_window.
  repeat split.
  - intros ->. destruct (vecdb self); reflexivity.
  - intros ->. reflexivity.
  - intros ->. destruct (vecdb self); [|reflexivity].
    destruct (n_neighbor_chunks (config self) =? 0)%Z; reflexivity.
  - intros d0 s0 rest -> Hf.
    destruct (vecdb self); [|reflexivity].
    destruct (n_neighbor_chunks (config self) =? 0)%Z; [reflexivity|].
    unfold canonical_fields in Hf. rewrite Hf. reflexivity.
  - intros db d0 s0 rest -> Hn -> Hf.
    apply Z.eqb_neq in Hn. rewrite Hn.
    unfold canonical_fields in Hf. rewrite Hf. reflexivity.
  - apply set_eqb_fields_canonical.
  - apply set_eqb_fields_canonical.
Qed.

(** C2 as stated fails: with a vector store set and
    [n_neighbor_chunks = 1], a batch whose first document is plain and
    whose second carries the further field [title] is expanded. *)
Lemma add_context_window_expands_mixed_batch :
  let db := Sample.store (F := R) (fun _ => []) (fun _ => []) in
  let self := Sample.agent (Sample.config_with_neighbors 1) (Some db) (Some []) in
  let batch := [(Sample.doc "1" "alpha", 0%R);
                (Sample.titled_doc "2" "beta" "T", 0%R)] in
  existsb (fun ds => negb (set_eqb (fields (fst ds)) canonical_fields)) batch
  = true
  /\ add_context_window self batch
     = [(Sample.doc "1" "alpha [+window]", 0%R);
        (Sample.titled_doc "2" "beta [+window]" "T", 0%R)]
  /\ add_context_window self batch <> batch.
Proof.
  cbv zeta. split; [reflexivity|]. split; [reflexivity|].
  intro E. apply (f_equal (fun l => map (fun ds => content (fst ds)) l)) in E.
  discriminate E.
Qed.

(** ** A missing vector store *)

(** C10, as amended. With no vector store, [get_relevant_chunks] and
    [get_semantic_search_results] raise [ValueError] at once, leaving
    the state as it was; [rerank_with_diversity] logs a warning and
    returns its input; [add_context_window] returns its input. *)
Theorem no_vecdb_behaviour :
  forall (F : Type) (ops : FloatOps F) (ex : FloatExp F)
         (imp : Imports F) (self : Agent F),
    vecdb self = None ->
    (forall query query_proxies s,
        get_relevant_chunks imp self query query_proxies s
        = (inl (ValueError "VecDB not set"), s))
    /\ (forall query k s,
           get_semantic_search_results self query k s
           = (inl (ValueError "VecDB not set"), s))
    /\ (forall passages s,
           rerank_with_diversity self passages s
           = (inr passages,
              logged (Warning "No vecdb; cannot use rerank_with_diversity") s))
    /\ (forall docs_scores, add_context_window self docs_scores = docs_scores).
Proof.
  intros F ops ex imp self Hdb. repeat split.
  - intros. unfold get_relevant_chunks. rewrite Hdb. reflexivity.
  - intros. unfold get_semantic_search_results. rewrite Hdb. reflexivity.
  - intros. unfold rerank_with_diversity. rewrite Hdb. reflexivity.
  - intros. unfold add_context_window. rewrite Hdb. reflexivity.
Qed.

Lemma no_vecdb_behaviour_witness :
  let self := Sample.agent (F := R) (default_config Sample.template false)
                None (Some []) in
  vecdb self = None
  /\ rerank_with_diversity self [Sample.doc "1" "alpha"] Sample.fresh
     = (inr [Sample.doc "1" "alpha"],
        logged (Warning "No vecdb; cannot use rerank_with_diversity")
               Sample.fresh).
Proof.
  cbv zeta. split; [reflexivity|].
  apply (no_vecdb_behaviour R R_ops R_exp (Sample.imports None "")
           (Sample.agent (default_config Sample.template false) None (Some []))
           eq_refl).
Defined.

(** C10 as stated fails: with no vector store, [rerank_with_diversity]
    and [add_context_window] raise nothing and return their input. *)
Lemma no_vecdb_silent_fallback :
  let self := Sample.agent (F := R) (default_config Sample.template false)
                None (Some []) in
  vecdb self = None
  /\ fst (rerank_with_diversity self [Sample.doc "1" "alpha"] Sample.fresh)
     = inr [Sample.doc "1" "alpha"]
  /\ add_context_window self [(Sample.doc "1" "alpha", 0%R)]
     = [(Sample.doc "1" "alpha", 0%R)].
Proof. cbv zeta. repeat split. Qed.

(** ** An empty corpus *)

(** C6 on the code. With a corpus that is set and empty (the value the
    constructor gives [chunked_docs] and [chunked_docs_clean]),
    [get_similar_chunks_bm25] logs a warning and returns [[]], while
    [get_fuzzy_matches] logs nothing and returns what
    [find_fuzzy_matches_in_docs] returns on the empty lists; it warns
    and returns [[]] only when the corpus is [None]. *)
Theorem empty_corpus_matchers :
  forall (F : Type) (imp : Imports F) (cfg : Config)
         (db : option (VectorStore F)) (lm : option LanguageModel)
         (query : string) (multiple : Z) (s : State),
    let self := {| config := cfg; vecdb := db; llm := lm;
                   chunked_docs := Some []; chunked_docs_clean := Some [] |} in
    let unset := {| config := cfg; vecdb := db; llm := lm;
                    chunked_docs := None; chunked_docs_clean := None |} in
    get_similar_chunks_bm25 imp self query multiple s
    = (inr [], logged (Warning "No chunked docs; cannot use bm25-similarity") s)
    /\ get_fuzzy_matches imp self query multiple s
       = (inr (find_fuzzy_matches_in_docs imp query [] []
                 (n_similar_docs cfg * multiple)%Z
                 (n_fuzzy_neighbor_words cfg) (n_fuzzy_neighbor_words cfg)),
          s)
    /\ get_similar_chunks_bm25 imp unset query multiple s
       = (inr [], logged (Warning "No chunked docs; cannot use bm25-similarity") s)
    /\ get_fuzzy_matches imp unset query multiple s
       = (inr [], logged (Warning "No chunked docs; cannot use fuzzy matching") s).
Proof. intros. repeat split. Qed.

(** ** Parsing the summary answer *)

Lemma prefix_app (p a : string) : String.prefix p (p ++ a) = true.
Proof.
  induction p as [|c p IH]; simpl; [now destruct a|].
  destruct (ascii_dec c c); [exact IH | congruence].
Qed.

Lemma prefix_drop (p s : string) :
  String.prefix p s = true -> s = (p ++ Py.drop (String.length p) s)%string.
Proof.
  revert s. induction p as [|c p IH]; intros s Hp; [reflexivity|].
  destruct s as [|b s]; simpl in Hp; [discriminate|].
  destruct (ascii_dec c b) as [->|]; [|discriminate].
  simpl. f_equal. now apply IH.
Qed.

Lemma append_assoc (a b c : string) :
  ((a ++ b) ++ c = a ++ (b ++ c))%string.
Proof. induction a as [|x a IH]; simpl; [reflexivity | now rewrite IH]. Qed.


Lemma partition_first_eq (sep s : string) :
  Py.partition_first sep s
  = if String.prefix sep s
    then Some (EmptyString, Py.drop (String.length sep) s)
    else match s with
         | EmptyString => None
         | String c t =>
             match Py.partition_first sep t with
             | Some (b, a) => Some (String c b, a)
             | None => None
             end
         end.
Proof. destruct s; reflexivity. Qed.

Lemma partition_first_sound (sep s b a : string) :
  Py.partition_first sep s = Some (b, a) -> s = (b ++ sep ++ a)%string.
Proof.
  revert b a. induction s as [|c t IH]; intros b a;
    rewrite partition_first_eq.
  - destruct (String.prefix sep "") eqn:P; [|discriminate].
    intro E. injection E as <- <-. now apply prefix_drop in P.
  - destruct (String.prefix sep (String c t)) eqn:P.
    + intro E. injection E as <- <-. now apply prefix_drop in P.
    + destruct (Py.partition_first sep t) as [[b0 a0]|]; [|discriminate].
      intro E. injection E as <- <-. simpl. f_equal. now apply IH.
Qed.

Lemma partition_first_least (sep s b a : string) :
  Py.partition_first sep s = Some (b, a) ->
  forall b' a', s = (b' ++ sep ++ a')%string ->
                String.length b <= String.length b'.
Proof.
  revert b a. induction s as [|c t IH]; intros b a;
    rewrite partition_first_eq.
  - destruct (String.prefix sep ""); [|discriminate].
    intro E. injection E as <- <-. simpl. lia.
  - destruct (String.prefix sep (String c t)) eqn:P.
    + intro E. injection E as <- <-. simpl. lia.
    + destruct (Py.partition_first sep t) as [[b0 a0]|] eqn:Pt; [|discriminate].
      intro E. injection E as <- <-. intros [|c' b'] a' E.
      * simpl in E. rewrite E, prefix_app in P. discriminate.
      * simpl in E. injection E as -> E. simpl.
        apply le_n_S. eapply IH; [reflexivity | exact E].
Qed.

Lemma partition_first_none (sep s : string) :
  Py.partition_first sep s = None ->
  forall b a, s <> (b ++ sep ++ a)%string.
Proof.
  induction s as [|c t IH]; rewrite partition_first_eq.
  - destruct (String.prefix sep "") eqn:P; [discriminate|].
    intros _ [|c b] a E; simpl in E; [|discriminate].
    rewrite E, prefix_app in P. discriminate.
  - destruct (String.prefix sep (String c t)) eqn:P; [discriminate|].
    destruct (Py.partition_first sep t) as [[b0 a0]|]; [discriminate|].
    intros _ [|c' b] a E; simpl in E.
    + rewrite E, prefix_app in P. discriminate.
    + injection E as -> E. now apply (IH eq_refl b a).
Qed.





(** *** White space and [strip] *)





Lemma lstrip_fixed (c : ascii) (t : string) :
  Py.isspace c = false -> Py.lstrip (String c t) = String c t.
Proof. intro Hc. simpl. now rewrite Hc. Qed.

Lemma lstrip_head (s : string) :
  Py.lstrip s = EmptyString
  \/ exists c t, Py.lstrip s = String c t /\ Py.isspace c = false.
Proof.
  induction s as [|c t IH]; simpl; [now left|].
  destruct (Py.isspace c) eqn:Hc; [exact IH|].
  right. exists c, t. now split.
Qed.


Lemma rstrip_cons (c : ascii) (t : string) :
  Py.rstrip (String c t)
  = match Py.rstrip t with
    | EmptyString =>
        if Py.isspace c then EmptyString else String c EmptyString
    | t' => String c t'
    end.
Proof. reflexivity. Qed.

Lemma rstrip_idem (s : string) : Py.rstrip (Py.rstrip s) = Py.rstrip s.
Proof.
  induction s as [|c t IH]; [reflexivity|].
  rewrite rstrip_cons. destruct (Py.rstrip t) as [|c' t'] eqn:Ht.
  - destruct (Py.isspace c) eqn:Hc; [reflexivity|].
    rewrite rstrip_cons. simpl Py.rstrip. now rewrite Hc.
  - rewrite rstrip_cons, IH. reflexivity.
Qed.

Lemma rstrip_head (c : ascii) (t : string) :
  Py.isspace c = false -> exists t', Py.rstrip (String c t) = String c t'.
Proof.
  intro Hc. rewrite rstrip_cons. destruct (Py.rstrip t) as [|c' t'].
  - rewrite Hc. now exists EmptyString.
  - now exists (String c' t').
Qed.




(** [s.strip().strip() == s.strip()]. *)
Lemma strip_idem (s : string) : Py.strip (Py.strip s) = Py.strip s.
Proof.
  unfold Py.strip. destruct (lstrip_head s) as [->|[c [t [-> Hc]]]];
    [reflexivity|].
  destruct (rstrip_head c t Hc) as [t' Ht]. rewrite Ht.
  rewrite (lstrip_fixed c t' Hc), <- Ht. apply rstrip_idem.
Qed.






(** ** What a computation adds to the log *)

Section AddsOnly.
Variable P : event -> Prop.

Lemma adds_only_ret {A : Type} (a : A) : adds_only P (ret a).
Proof. intro s. exists []. simpl. now rewrite app_nil_r. Qed.

Lemma adds_only_raise {A : Type} (e : exn) : adds_only P (raise (A := A) e).
Proof. intro s. exists []. simpl. now rewrite app_nil_r. Qed.

Lemma adds_only_emit (ev : event) : P ev -> adds_only P (emit ev).
Proof. intros Hev s. exists [ev]. simpl. split; [reflexivity | now constructor]. Qed.

Lemma adds_only_get_dialog : adds_only P get_dialog.
Proof. intro s. exists []. simpl. now rewrite app_nil_r. Qed.

Lemma adds_only_update_dialog (q a : string) : adds_only P (update_dialog q a).
Proof. intro s. exists []. simpl. now rewrite app_nil_r. Qed.

Lemma adds_only_set_response (r : ChatDocument) : adds_only P (set_response r).
Proof. intro s. exists []. simpl. now rewrite app_nil_r. Qed.

Lemma adds_only_bind {A B : Type} (m : M A) (k : A -> M B) :
  adds_only P m -> (forall a, adds_only P (k a)) -> adds_only P (bind m k).
Proof.
  intros Hm Hk s. unfold bind. destruct (Hm s) as [evs [E Hevs]].
  destruct (m s) as [[e|a] s1]; simpl in E.
  - exists evs. now split.
  - destruct (Hk a s1) as [evs' [E' Hevs']].
    exists (evs ++ evs'). rewrite E', E, app_assoc. split; [reflexivity|].
    apply Forall_app. now split.
Qed.

End AddsOnly.

Lemma emitted_adds_only {A : Type} (P : event -> Prop) (m : M A) (s : State) :
  adds_only P m -> Forall P (emitted m s).
Proof.
  intro Hm. destruct (Hm s) as [evs [E Hevs]]. unfold emitted.
  rewrite E, skipn_app, skipn_all, Nat.sub_diag. exact Hevs.
Qed.

(** Steps through a method body built from [bind], [ret], [raise],
    [warning] and case distinctions. *)
Ltac adds_only_step :=
  match goal with
  | |- adds_only _ (bind _ _) => apply adds_only_bind; [|intro]
  | |- adds_only _ (ret _) => apply adds_only_ret
  | |- adds_only _ (raise _) => apply adds_only_raise
  | |- adds_only _ (warning _) => apply adds_only_emit; exact I
  | |- adds_only _ get_dialog => apply adds_only_get_dialog
  | |- adds_only _ (emit _) => apply adds_only_emit; exact I
  | |- adds_only _ (if ?b then _ else _) => destruct b
  | |- adds_only _ (match ?x with _ => _ end) => destruct x
  end.

Section NoSummary.
Context {F : Type} `{FloatOps F} `{FloatExp F}.
Variable imp : Imports F.
Variable self : Agent F.

Lemma semantic_hits_no_summary (qs : list string) (k : Z)
  (acc : list (Document * F)) :
  adds_only not_summary (semantic_hits self qs k acc).
Proof.
  revert acc. induction qs as [|q rest IH]; intro acc; simpl.
  - apply adds_only_ret.
  - apply adds_only_bind; [|intro hits; apply IH].
    unfold get_semantic_search_results. repeat adds_only_step.
Qed.

Lemma get_relevant_chunks_no_summary (query : string) (proxies : list string) :
  adds_only not_summary (get_relevant_chunks imp self query proxies).
Proof.
  unfold get_relevant_chunks.
  destruct (vecdb self) as [db|] eqn:Hdb; [|apply adds_only_raise].
  apply adds_only_bind; [apply semantic_hits_no_summary | intro hits].
  apply adds_only_bind; [|intro ps1].
  { destruct (use_bm25_search (config self)); [|apply adds_only_ret].
    unfold get_similar_chunks_bm25. repeat adds_only_step. }
  apply adds_only_bind; [|intro ps2].
  { destruct (use_fuzzy_match (config self)); [|apply adds_only_ret].
    unfold get_fuzzy_matches. repeat adds_only_step. }
  destruct (List.length _ =? 0); [apply adds_only_ret|].
  unfold expand_and_rerank.
  apply adds_only_bind; [|intro ps3].
  { destruct (negb _); [|apply adds_only_ret].
    unfold rerank_with_cross_encoder. repeat adds_only_step. }
  apply adds_only_bind; [|intro ps4; apply adds_only_ret].
  destruct (rerank_diversity (config self)); [|apply adds_only_ret].
  unfold rerank_with_diversity. rewrite Hdb. repeat adds_only_step.
Qed.

Lemma extraction_events_no_summary (inputs : list string) :
  adds_only not_summary
    (fold_right (fun msg k => emit (LLMCall Extraction msg) ;;; k)
                (ret tt) inputs).
Proof.
  induction inputs as [|msg rest IH]; simpl.
  - apply adds_only_ret.
  - apply adds_only_bind; [apply adds_only_emit; exact I | intros _; exact IH].
Qed.

Lemma get_relevant_extracts_no_summary (query : string) :
  adds_only not_summary (get_relevant_extracts imp self query).
Proof.
  unfold get_relevant_extracts.
  apply adds_only_bind; [apply adds_only_get_dialog | intro dlg].
  apply adds_only_bind; [repeat adds_only_step | intro q].
  apply adds_only_bind; [|intro proxies].
  { destruct (hypothetical_answer (config self)); [|apply adds_only_ret].
    unfold llm_hypothetical_answer. repeat adds_only_step. }
  apply adds_only_bind; [|intro proxies'].
  { destruct (0 <? n_query_rephrases (config self))%Z; [|apply adds_only_ret].
    unfold llm_rephrase_query. repeat adds_only_step. }
  apply adds_only_bind; [apply get_relevant_chunks_no_summary | intro passages].
  destruct (List.length passages =? 0); [apply adds_only_ret|].
  destruct (llm self); [|apply adds_only_raise].
  apply adds_only_bind; [|intro; apply adds_only_ret].
  unfold get_verbatim_extracts.
  destruct (relevance_extractor_config (config self)); [|apply adds_only_ret].
  apply adds_only_bind; [apply extraction_events_no_summary|].
  intro; apply adds_only_ret.
Qed.

End NoSummary.

(** ** No extracts, no synthesis *)

(** C7. When [get_relevant_extracts] comes back with no extract (no
    passage was retrieved, or none survived extraction),
    [answer_from_docs] returns the document whose content is
    [NO_ANSWER], in the state [get_relevant_extracts] left: the run adds
    nothing to the log after it, and no event of the whole run is the
    LLM call that synthesises the answer. *)
Theorem answer_from_docs_no_extracts :
  forall (F : Type) (ops : FloatOps F) (ex : FloatExp F)
         (imp : Imports F) (self : Agent F)
         (query query' : string) (s s' : State),
    get_relevant_extracts imp self query s = (inr (query', []), s') ->
    answer_from_docs imp self query s = (inr (no_answer_response imp), s')
    /\ cd_content (no_answer_response imp) = NO_ANSWER imp
    /\ Forall not_summary (emitted (answer_from_docs imp self query) s).
Proof.
  intros F ops ex imp self query query' s s' Hx.
  assert (Hrun : answer_from_docs imp self query s
                 = (inr (no_answer_response imp), s')).
  { unfold answer_from_docs. erewrite bind_inr by exact Hx. reflexivity. }
  split; [exact Hrun|]. split; [reflexivity|].
  unfold emitted. rewrite Hrun. simpl snd.
  pose proof (emitted_adds_only _ _ s (get_relevant_extracts_no_summary imp self query))
    as Hno.
  unfold emitted in Hno. rewrite Hx in Hno. exact Hno.
Qed.

Lemma answer_from_docs_no_extracts_witness :
  let db := Sample.store (F := R) (fun _ => []) (fun _ => []) in
  let imp := Sample.imports (F := R) None "unused" in
  let self := Sample.agent (default_config Sample.template false)
                (Some db) (Some []) in
  get_relevant_extracts imp self "Who wrote it?" Sample.fresh
  = (inr ("Who wrote it?"%string, []),
     logged (Warning "No chunked docs; cannot use bm25-similarity") Sample.fresh)
  /\ answer_from_docs imp self "Who wrote it?" Sample.fresh
     = (inr (no_answer_response imp),
        logged (Warning "No chunked docs; cannot use bm25-similarity")
               Sample.fresh).
Proof.
  cbv zeta.
  assert (Hx : get_relevant_extracts (Sample.imports (F := R) None "unused")
                 (Sample.agent (default_config Sample.template false)
                    (Some (Sample.store (F := R) (fun _ => []) (fun _ => [])))
                    (Some []))
                 "Who wrote it?" Sample.fresh
               = (inr ("Who wrote it?"%string, []),
                  logged (Warning "No chunked docs; cannot use bm25-similarity")
                         Sample.fresh)) by reflexivity.
  split; [exact Hx|].
  exact (proj1 (answer_from_docs_no_extracts R R_ops R_exp _ _ _ _ _ _ Hx)).
Defined.

(** ** Verbatim extraction leaves the passages alone *)

Lemma extends_refl (st : Store) : extends st st.
Proof. split; [reflexivity|]. exists []. now rewrite app_nil_r. Qed.

Lemma extends_trans (st1 st2 st3 : Store) :
  extends st1 st2 -> extends st2 st3 -> extends st1 st3.
Proof.
  intros [M1 [n1 D1]] [M2 [n2 D2]]. split; [congruence|].
  exists (n1 ++ n2). now rewrite D2, D1, app_assoc.
Qed.

Lemma extends_deref (st st' : Store) (r : nat) (d : Document) :
  extends st st' -> deref st r = Some d -> deref st' r = Some d.
Proof.
  intros [Hm [new Hd]]. unfold deref. rewrite Hm, Hd.
  destruct (nth_error (docs st) r) as [o|] eqn:E; [|discriminate].
  rewrite nth_error_app1 by (apply nth_error_Some; congruence).
  now rewrite E.
Qed.

Lemma extends_length (st st' : Store) :
  extends st st' -> List.length (docs st) <= List.length (docs st').
Proof. intros [_ [new ->]]. rewrite length_app. lia. Qed.

Lemma list_set_last {A : Type} (l : list A) (x y : A) :
  list_set (List.length l) y (l ++ [x]) = l ++ [y].
Proof. induction l as [|z l IH]; simpl; [reflexivity | now rewrite IH]. Qed.

(** A copy with its content assigned: one new object, nothing else
    touched. *)
Lemma copy_set_content (st : Store) (p : nat) (e : string) (d : Document) :
  deref st p = Some d ->
  exists o,
    nth_error (docs st) p = Some o
    /\ copy st p
       = Some ({| docs := docs st ++ [o]; metas := metas st |},
               List.length (docs st))
    /\ set_content {| docs := docs st ++ [o]; metas := metas st |}
                   (List.length (docs st)) e
       = {| docs := docs st
                    ++ [{| o_content := e; o_metadata := o_metadata o;
                           o_extra := o_extra o |}];
            metas := metas st |}
    /\ deref {| docs := docs st
                        ++ [{| o_content := e; o_metadata := o_metadata o;
                               o_extra := o_extra o |}];
                metas := metas st |} (List.length (docs st))
       = Some (with_content e d).
Proof.
  unfold deref, copy, set_content. intro Hd.
  destruct (nth_error (docs st) p) as [o|] eqn:Ho; [|discriminate].
  destruct (nth_error (metas st) (o_metadata o)) as [m|] eqn:Hm; [|discriminate].
  injection Hd as <-. exists o. split; [reflexivity|]. split; [reflexivity|].
  simpl. rewrite nth_error_app2, Nat.sub_diag by lia. simpl.
  rewrite list_set_last. split; [reflexivity|].
  rewrite nth_error_app2, Nat.sub_diag by lia. simpl.
  rewrite Hm. reflexivity.
Qed.

Lemma passage_extracts_in_spec (no_answer : string)
  (pairs : list (nat * string)) :
  forall st,
    Forall (fun pe => exists d, deref st (fst pe) = Some d) pairs ->
    exists st' out,
      passage_extracts_in no_answer st pairs = Some (st', out)
      /\ extends st st'
      /\ Forall2 (is_extract_of st st')
           (List.filter (fun pe => survives no_answer (snd pe)) pairs) out.
Proof.
  induction pairs as [|[p e] rest IH]; intros st Hvalid.
  - exists st, []. split; [reflexivity|]. split; [apply extends_refl|constructor].
  - inversion Hvalid as [|x l [d Hd] Hrest]; subst. simpl in Hd.
    simpl passage_extracts_in. simpl List.filter. unfold survives at 1.
    simpl snd at 1.
    destruct (String.eqb e no_answer || (String.length e =? 0)); simpl negb.
    + exact (IH st Hrest).
    + destruct (copy_set_content st p e d Hd) as [o [Ho [Hc [Hs Hnew]]]].
      rewrite Hc, Hs. clear Hc Hs.
      set (st2 := {| docs := docs st
                             ++ [{| o_content := e; o_metadata := o_metadata o;
                                    o_extra := o_extra o |}];
                     metas := metas st |}) in *.
      assert (E12 : extends st st2).
      { split; [reflexivity|]. eexists. reflexivity. }
      destruct (IH st2) as [st3 [out [Hrun [E23 Hout]]]].
      { eapply Forall_impl; [|exact Hrest].
        intros pe [d' Hd']. exists d'. exact (extends_deref _ _ _ _ E12 Hd'). }
      rewrite Hrun. exists st3, (List.length (docs st) :: out).
      split; [reflexivity|]. split; [exact (extends_trans _ _ _ E12 E23)|].
      constructor.
      * split; [lia|]. exists d. split; [exact Hd|].
        exact (extends_deref _ _ _ _ E23 Hnew).
      * clear Hrun. revert Hout.
        assert (Hv : Forall (fun pe => exists d, deref st (fst pe) = Some d)
                       (List.filter (fun pe => survives no_answer (snd pe)) rest)).
        { apply Forall_forall. intros pe Hin. apply filter_In in Hin.
          rewrite Forall_forall in Hrest. exact (Hrest pe (proj1 Hin)). }
        revert Hv. generalize (List.filter (fun pe => survives no_answer (snd pe)) rest).
        intros l Hv Hout. induction Hout as [|pe r l out' [Hr [d' [Hd' Hr']]] _ IHl];
          [constructor|].
        inversion Hv as [|? ? [d0 Hd0] Hv']; subst.
        constructor; [|exact (IHl Hv')].
        split; [pose proof (extends_length _ _ E12); lia|].
        exists d0. split; [exact Hd0|].
        rewrite (extends_deref _ _ _ _ E12 Hd0) in Hd'. injection Hd' as <-.
        exact Hr'.
Qed.

Lemma contents_in_valid (st : Store) (passages : list nat) :
  Forall (fun p => exists d, deref st p = Some d) passages ->
  contents_in st passages
  = Some (map (fun p => match deref st p with
                        | Some d => content d
                        | None => ""%string
                        end) passages).
Proof.
  induction 1 as [|p rest [d Hd] _ IH]; [reflexivity|].
  simpl. rewrite Hd, IH. reflexivity.
Qed.

(** A run of [get_verbatim_extracts] on a store in which every passage
    is an object. *)
Lemma get_verbatim_extracts_preserves_aux {F : Type} (imp : Imports F)
  (self : Agent F) (query : string) (st : Store) (passages : list nat) :
  Forall (fun p => exists d, deref st p = Some d) passages ->
  exists st' out,
    get_verbatim_extracts_in imp self query st passages = Some (st', out)
    /\ match relevance_extractor_config (config self) with
       | None => st' = st /\ out = passages
       | Some agent_cfg =>
           let inputs :=
             map (fun p => match deref st p with
                           | Some d => content d
                           | None => ""%string
                           end) passages in
           let extracts := extracts_for imp self agent_cfg query inputs in
           Forall2 (is_extract_of st st')
             (List.filter (fun pe => survives (NO_ANSWER imp) (snd pe))
                          (combine passages extracts))
             out
       end.
Proof.
  intro Hvalid. unfold get_verbatim_extracts_in.
  destruct (relevance_extractor_config (config self)) as [agent_cfg|].
  - rewrite (contents_in_valid _ _ Hvalid). cbv zeta.
    fold (extracts_for imp self agent_cfg query
            (map (fun p => match deref st p with
                           | Some d => content d
                           | None => ""%string
                           end) passages)).
    set (extracts := extracts_for _ _ _ _ _).
    destruct (passage_extracts_in_spec (NO_ANSWER imp)
                (combine passages extracts) st)
      as [st' [out [Hrun [_ Hout]]]].
    { apply Forall_forall. intros [p e] Hin. apply in_combine_l in Hin.
      rewrite Forall_forall in Hvalid. exact (Hvalid p Hin). }
    exists st', out. now split.
  - exists st, passages. now repeat split.
Qed.

(** C9. [get_verbatim_extracts], run on passages that are objects of a
    store, returns for every passage whose extract is neither
    [NO_ANSWER] nor empty a reference to a new object: the passage's
    document with the extract for its content and its metadata and
    every other field as they were. Every object the store held before
    the call, the passages among them, is afterwards what it was. *)
Theorem get_verbatim_extracts_preserves :
  forall (F : Type) (imp : Imports F) (self : Agent F) (query : string)
         (st : Store) (passages : list nat),
    Forall (fun p => exists d, deref st p = Some d) passages ->
    exists st' out,
      get_verbatim_extracts_in imp self query st passages = Some (st', out)
      /\ extends st st'
      /\ (forall r d, deref st r = Some d -> deref st' r = Some d)
      /\ match relevance_extractor_config (config self) with
         | None => st' = st /\ out = passages
         | Some agent_cfg =>
             let inputs :=
               map (fun p => match deref st p with
                             | Some d => content d
                             | None => ""%string
                             end) passages in
             let extracts := extracts_for imp self agent_cfg query inputs in
             Forall2 (is_extract_of st st')
               (List.filter (fun pe => survives (NO_ANSWER imp) (snd pe))
                            (combine passages extracts))
               out
         end
      /\ (forall e d, content (with_content e d) = e
                      /\ metadata (with_content e d) = metadata d
                      /\ extra_fields (with_content e d) = extra_fields d).
Proof.
  intros F imp self query st passages Hvalid.
  unfold get_verbatim_extracts_in.
  destruct (relevance_extractor_config (config self)) as [agent_cfg|].
  - rewrite (contents_in_valid _ _ Hvalid). cbv zeta.
    fold (extracts_for imp self agent_cfg query
            (map (fun p => match deref st p with
                           | Some d => content d
                           | None => ""%string
                           end) passages)).
    set (extracts := extracts_for _ _ _ _ _).
    destruct (passage_extracts_in_spec (NO_ANSWER imp)
                (combine passages extracts) st)
      as [st' [out [Hrun [Hext Hout]]]].
    { apply Forall_forall. intros [p e] Hin. apply in_combine_l in Hin.
      rewrite Forall_forall in Hvalid. exact (Hvalid p Hin). }
    exists st', out. split; [exact Hrun|]. split; [exact Hext|].
    split; [intros r d; apply extends_deref; exact Hext|].
    split; [exact Hout|]. intros; repeat split.
  - exists st, passages. split; [reflexivity|]. split; [apply extends_refl|].
    split; [auto|]. split; [now split|]. intros; repeat split.
Qed.

Lemma get_verbatim_extracts_preserves_witness :
  let imp := Sample.imports (F := R) None "unused" in
  let self := Sample.agent (F := R) (default_config Sample.template false)
                None (Some []) in
  Forall (fun p => exists d, deref Sample.objects p = Some d) [0; 1; 2]
  /\ exists st' out,
       get_verbatim_extracts_in imp self "capital of France?" Sample.objects
         [0; 1; 2] = Some (st', out)
       /\ extends Sample.objects st'.
Proof.
  cbv zeta.
  assert (Hvalid : Forall (fun p => exists d, deref Sample.objects p = Some d)
                     [0; 1; 2]).
  { repeat constructor; eexists; reflexivity. }
  split; [exact Hvalid|].
  destruct (get_verbatim_extracts_preserves R
              (Sample.imports (F := R) None "unused")
              (Sample.agent (F := R) (default_config Sample.template false)
                 None (Some []))
              "capital of France?" Sample.objects [0; 1; 2] Hvalid)
    as [st' [out [Hrun [Hext _]]]].
  exists st', out. split; [exact Hrun | exact Hext].
Defined.

(** On the sample store the second passage yields [NO_ANSWER] and is
    dropped; the two survivors are new objects 3 and 4, and objects 0
    to 2 are what they were. *)
Example get_verbatim_extracts_in_sample :
  let imp := Sample.imports (F := R) None "unused" in
  let self := Sample.agent (F := R) (default_config Sample.template false)
                None (Some []) in
  exists st',
    get_verbatim_extracts_in imp self "capital of France?" Sample.objects
      [0; 1; 2] = Some (st', [3; 4])
    /\ firstn 3 (docs st') = docs Sample.objects
    /\ map (deref st') [3; 4]
       = [Some (Sample.doc "a" "Paris is the capital of France.");
          Some (Sample.doc "a" "Lyon is a city in France.")].
Proof. cbv zeta. eexists. split; [reflexivity|]. split; reflexivity. Qed.

(** ** Sorting *)

Section SortFacts.
Context {A K : Type}.
Variable key : A -> K.
Variable ltb : K -> K -> bool.

Lemma insert_asc_perm (x : A) (l : list A) :
  Permutation (Py.insert_asc key ltb x l) (x :: l).
Proof.
  induction l as [|y t IH]; simpl; [constructor; constructor|].
  destruct (ltb (key y) (key x)); [|apply Permutation_refl].
  eapply Permutation_trans; [apply perm_skip, IH | apply perm_swap].
Qed.

Lemma sorted_perm (l : list A) : Permutation (Py.sorted key ltb l) l.
Proof.
  induction l as [|x t IH]; simpl; [constructor|].
  eapply Permutation_trans; [apply insert_asc_perm | now constructor].
Qed.

Lemma sorted_reverse_perm (l : list A) :
  Permutation (Py.sorted_reverse key ltb l) l.
Proof.
  unfold Py.sorted_reverse.
  eapply Permutation_trans; [symmetry; apply Permutation_rev|].
  eapply Permutation_trans; [apply sorted_perm|].
  symmetry. apply Permutation_rev.
Qed.

(** Stability: a tied selection comes out of the sort in the order it
    went in. *)





(** Order. When [<] on the keys is asymmetric and its complement is
    transitive on the keys of the list (the keys that are [ok]), the
    sort is ascending and the reversed sort descending: no element is
    strictly below a later one. *)
Variable ok : K -> Prop.
Hypothesis ltb_asym : forall a b, ltb a b = true -> ltb b a = false.
Hypothesis ltb_negtrans :
  forall a b c, ok a -> ok b -> ok c ->
                ltb a b = false -> ltb b c = false -> ltb a c = false.





End SortFacts.

(** The sort on a concrete list: descending, ties in input order. *)
Example sorted_reverse_example :
  Py.sorted_reverse fst Z.ltb
    [(2, "a"); (5, "b"); (2, "c"); (9, "d"); (5, "e")]%Z%string
  = [(9, "d"); (5, "b"); (5, "e"); (2, "a"); (2, "c")]%Z%string.
Proof. reflexivity. Qed.

Example slice_to_examples :
  Py.slice_to 2 [1; 2; 3] = [1; 2]
  /\ Py.slice_to 5 [1; 2; 3] = [1; 2; 3]
  /\ Py.slice_to 0 [1; 2; 3] = []
  /\ Py.slice_to (-1) [1; 2; 3] = [1; 2].
Proof. repeat split. Qed.

(** ** Real numbers as floats *)

Lemma Rltb_true (a b : R) : Rltb a b = true <-> (a < b)%R.
Proof. unfold Rltb. destruct (Rlt_dec a b); split; intros; try easy. Qed.

Lemma Rltb_false (a b : R) : Rltb a b = false <-> (b <= a)%R.
Proof.
  unfold Rltb. destruct (Rlt_dec a b); split; intros; try easy; lra.
Qed.

Lemma Rltb_irrefl (a : R) : Rltb a a = false.
Proof. apply Rltb_false. lra. Qed.

Lemma Rltb_asym (a b : R) : Rltb a b = true -> Rltb b a = false.
Proof. rewrite Rltb_true, Rltb_false. lra. Qed.

Lemma Rltb_trans (a b c : R) :
  Rltb a b = true -> Rltb b c = true -> Rltb a c = true.
Proof. rewrite !Rltb_true. lra. Qed.

Lemma Rltb_negtrans (a b c : R) :
  Rltb a b = false -> Rltb b c = false -> Rltb a c = false.
Proof. rewrite !Rltb_false. lra. Qed.

(** The logistic function maps every real into [0, 1]. *)
Lemma logistic_range (x : R) : (0 <= logistic x <= 1)%R.
Proof.
  unfold logistic. simpl. unfold f_exp, R_exp.
  pose proof (exp_pos (- x)) as He.
  assert (Hd : (0 < 1 + exp (- x))%R) by lra.
  split.
  - apply Rlt_le. apply Rdiv_lt_0_compat; lra.
  - apply (Rmult_le_reg_r (1 + exp (- x))); [exact Hd|].
    unfold Rdiv. rewrite Rmult_assoc, Rinv_l by lra. lra.
Qed.


Lemma Rleb_true (a b : R) : Rleb a b = true <-> (a <= b)%R.
Proof. unfold Rleb. destruct (Rle_dec a b); split; intros; try easy. Qed.

(** The reals satisfy the laws of the order. *)
Lemma R_order_laws : float_order_laws R.
Proof.
  split; [|split; [|split]].
  - exact Rltb_asym.
  - intros a b c _ _ _. apply Rltb_negtrans.
  - intros a b _ _. simpl. rewrite Rleb_true, Rltb_false. tauto.
  - intros a b _. split; reflexivity.
Qed.

(** The reals satisfy the laws of the range. *)
Lemma R_range_laws : float_range_laws R.
Proof.
  split; [|split; [|split]]; simpl.
  - intros x _. reflexivity.
  - intros x _. apply Rleb_true. unfold f_exp, R_exp.
    apply Rlt_le, exp_pos.
  - intros y. rewrite !Rleb_true. lra.
  - intros z. rewrite !Rleb_true. intro Hz. split.
    + apply Rlt_le. apply Rdiv_lt_0_compat; lra.
    + apply (Rmult_le_reg_r z); [lra|].
      unfold Rdiv. rewrite Rmult_assoc, Rinv_l by lra. lra.
Qed.

(** ** Binary64 *)

(** The comparison of the specification of IEEE-754: a float that
    equals itself is not NaN, and on such floats the comparison is a
    total order. *)
Ltac sf_cases :=
  repeat match goal with
         | x : spec_float |- _ => destruct x as [[|]|[|]| |[|] ? ?]
         end;
  unfold SFltb, SFleb, SFeqb, SFcompare;
  change (Pos.compare_cont Eq) with Pos.compare;
  try reflexivity; try discriminate; try tauto;
  repeat match goal with
         | |- context [Z.compare ?a ?b] => destruct (Z.compare_spec a b)
         | |- context [Pos.compare ?a ?b] => destruct (Pos.compare_spec a b)
         end;
  simpl; try reflexivity; try discriminate; try tauto; try lia.

Lemma SFltb_asym (a b : spec_float) : SFltb a b = true -> SFltb b a = false.
Proof. sf_cases. Qed.

Lemma SFltb_negtrans (a b c : spec_float) :
  SFeqb a a = true -> SFeqb b b = true -> SFeqb c c = true ->
  SFltb a b = false -> SFltb b c = false -> SFltb a c = false.
Proof. sf_cases; intros; try discriminate; try reflexivity; lia. Qed.

Lemma SFleb_ltb (a b : spec_float) :
  SFeqb a a = true -> SFeqb b b = true ->
  (SFleb a b = true <-> SFltb b a = false).
Proof. sf_cases; intros; split; intros; try discriminate; try reflexivity; lia. Qed.

Lemma SFleb_number (a b : spec_float) :
  SFleb a b = true -> SFeqb a a = true /\ SFeqb b b = true.
Proof. sf_cases; intros; split; try discriminate; try reflexivity; lia. Qed.

Lemma is_number_binary64 (x : float) :
  is_number x <-> SFeqb (FloatOps.Prim2SF x) (FloatOps.Prim2SF x) = true.
Proof.
  unfold is_number. simpl. unfold PrimFloat.is_nan. rewrite eqb_spec.
  destruct (SFeqb _ _); simpl; split; congruence.
Qed.

(** Binary64 satisfies the laws of the order. *)
Lemma binary64_order_laws : float_order_laws float.
Proof.
  split; [|split; [|split]].
  - intros a b. simpl. rewrite !ltb_spec. apply SFltb_asym.
  - intros a b c. rewrite !is_number_binary64. simpl. rewrite !ltb_spec.
    apply SFltb_negtrans.
  - intros a b. rewrite !is_number_binary64. simpl.
    rewrite leb_spec, ltb_spec. apply SFleb_ltb.
  - intros a b. rewrite !is_number_binary64. simpl.
    rewrite leb_spec. apply SFleb_number.
Qed.
(** ** The cross-encoder reranker *)


Lemma map_snd_combine {A B : Type} (l : list A) (l' : list B) :
  List.length l = List.length l' -> map snd (combine l l') = l'.
Proof.
  revert l'. induction l as [|x l IH]; intros [|y l'] E;
    simpl in *; try discriminate; [reflexivity|].
  f_equal. apply IH. lia.
Qed.





(** ** The diversity reranker *)

Lemma remove_first_In (x : nat) (l : list nat) :
  In x l ->
  exists l', Py.remove_first x l = Some l' /\ Permutation l (x :: l').
Proof.
  induction l as [|y t IH]; intro Hin; [destruct Hin|].
  simpl. destruct (Nat.eqb_spec y x) as [->|Hne].
  - exists t. split; [reflexivity | apply Permutation_refl].
  - destruct Hin as [E|Hin]; [congruence|].
    destruct (IH Hin) as [t' [-> Hp]]. exists (y :: t'). split; [reflexivity|].
    eapply Permutation_trans; [apply perm_skip, Hp | apply perm_swap].
Qed.

Lemma remove_first_Some (x : nat) (l l' : list nat) :
  Py.remove_first x l = Some l' -> Permutation l (x :: l').
Proof.
  revert l'. induction l as [|y t IH]; intros l' E; [discriminate|].
  simpl in E. destruct (Nat.eqb_spec y x) as [->|Hne].
  - injection E as <-. apply Permutation_refl.
  - destruct (Py.remove_first x t) as [t'|]; [|discriminate].
    injection E as <-.
    eapply Permutation_trans; [apply perm_skip, IH; reflexivity|].
    apply perm_swap.
Qed.

Lemma remove_first_sorted (x : nat) (l l' : list nat) :
  Py.remove_first x l = Some l' ->
  StronglySorted lt l -> StronglySorted lt l'.
Proof.
  revert l'. induction l as [|y t IH]; intros l' E Hs; [discriminate|].
  inversion Hs as [|? ? Ht Hall]; subst.
  simpl in E. destruct (Nat.eqb y x); [now injection E as <-|].
  destruct (Py.remove_first x t) as [t'|] eqn:Et; [|discriminate].
  injection E as <-. constructor; [now apply IH|].
  apply remove_first_Some in Et.
  pose proof (Permutation_Forall Et Hall) as Hall'.
  now inversion Hall'.
Qed.

Section MinFacts.
Context {A K E : Type}.
Variable key : A -> E + K.
Variable ltb : K -> K -> bool.

Lemma min_from_In (l : list A) :
  forall best kbest m,
    Py.min_from key ltb best kbest l = inr m -> In m (best :: l).
Proof.
  induction l as [|y t IH]; intros best kbest m Hm; simpl in Hm.
  - injection Hm as <-. now left.
  - destruct (key y) as [e|ky]; [discriminate|].
    destruct (ltb ky kbest).
    + right. exact (IH _ _ _ Hm).
    + destruct (IH _ _ _ Hm) as [<-|Hin]; [now left | now right; right].
Qed.

Lemma min_by_In (x : A) (l : list A) (m : A) :
  Py.min_by key ltb x l = inr m -> In m (x :: l).
Proof.
  unfold Py.min_by. destruct (key x) as [e|kx]; [discriminate|].
  apply min_from_In.
Qed.

(** [min] returns when every key is computed. *)
Lemma min_from_total (l : list A) :
  forall best kbest,
    Forall (fun y => exists k, key y = inr k) l ->
    exists m, Py.min_from key ltb best kbest l = inr m.
Proof.
  induction l as [|y t IH]; intros best kbest Hl; simpl.
  - now exists best.
  - inversion Hl as [|? ? [ky Hy] Ht]; subst. rewrite Hy.
    destruct (ltb ky kbest); now apply IH.
Qed.

Lemma min_by_total (x : A) (l : list A) :
  Forall (fun y => exists k, key y = inr k) (x :: l) ->
  exists m, Py.min_by key ltb x l = inr m.
Proof.
  intro Hl. inversion Hl as [|? ? [kx Hx] Ht]; subst.
  unfold Py.min_by. rewrite Hx. now apply min_from_total.
Qed.

(** [min] raises what the first key that is not computed raises. *)
Lemma min_from_raises (l1 : list A) :
  forall best kbest y l2 e,
    Forall (fun z => exists k, key z = inr k) l1 ->
    key y = inl e ->
    Py.min_from key ltb best kbest (l1 ++ y :: l2) = inl e.
Proof.
  induction l1 as [|z t IH]; intros best kbest y l2 e Hl Hy; simpl.
  - now rewrite Hy.
  - inversion Hl as [|? ? [kz Hz] Ht]; subst. rewrite Hz.
    destruct (ltb kz kbest); now apply IH.
Qed.

Lemma min_by_raises (x : A) (l l1 l2 : list A) (y : A) (e : E) :
  x :: l = l1 ++ y :: l2 ->
  Forall (fun z => exists k, key z = inr k) l1 ->
  key y = inl e ->
  Py.min_by key ltb x l = inl e.
Proof.
  intros Hsplit Hl Hy. unfold Py.min_by. destruct l1 as [|z t].
  - simpl in Hsplit. injection Hsplit as -> _. now rewrite Hy.
  - simpl in Hsplit. injection Hsplit as <- ->.
    inversion Hl as [|? ? [kx Hx] Ht]; subst. rewrite Hx.
    now apply min_from_raises.
Qed.

(** The order. [<] on the keys is asymmetric, and on the keys that are
    [ok] its complement is transitive. *)
Variable ok : K -> Prop.
Hypothesis ltb_asym : forall a b, ltb a b = true -> ltb b a = false.
Hypothesis ltb_negtrans :
  forall a b c, ok a -> ok b -> ok c ->
                ltb a b = false -> ltb b c = false -> ltb a c = false.

Lemma ltb_asym_irrefl (a : K) : ltb a a = false.
Proof.
  destruct (ltb a a) eqn:Haa; [|reflexivity].
  now rewrite (ltb_asym _ _ Haa) in Haa.
Qed.

Lemma ltb_negtrans_trans (a b c : K) :
  ok a -> ok b -> ok c ->
  ltb a b = true -> ltb b c = true -> ltb a c = true.
Proof.
  intros Ha Hb Hc Hab Hbc. destruct (ltb a c) eqn:Hac; [reflexivity|].
  pose proof (ltb_negtrans a c b Ha Hc Hb Hac (ltb_asym _ _ Hbc)). congruence.
Qed.

(** Nothing in the list has a key strictly below the key of the
    element [min] returns, when the keys are [ok]. *)
Lemma min_from_lowest (l : list A) :
  forall best kbest m,
    ok kbest ->
    Forall (fun y => exists k, key y = inr k /\ ok k) l ->
    Py.min_from key ltb best kbest l = inr m ->
    exists km,
      (m = best /\ km = kbest \/ key m = inr km)
      /\ ok km
      /\ ltb kbest km = false
      /\ Forall (fun y => exists k, key y = inr k /\ ltb k km = false) l.
Proof.
  induction l as [|y t IH]; intros best kbest m Hk Hl Hm; simpl in Hm.
  - injection Hm as <-. exists kbest.
    split; [now left|]. split; [exact Hk|].
    split; [apply ltb_asym_irrefl | constructor].
  - inversion Hl as [|? ? [ky [Hy Hoky]] Ht]; subst. rewrite Hy in Hm.
    destruct (ltb ky kbest) eqn:C.
    + destruct (IH y ky m Hoky Ht Hm) as [km [Hkm [Hokm [Hle Hall]]]].
      exists km. split; [|split; [exact Hokm|split]].
      * right. destruct Hkm as [[-> ->]|Hkm]; assumption.
      * exact (ltb_negtrans _ _ _ Hk Hoky Hokm (ltb_asym _ _ C) Hle).
      * constructor; [|exact Hall]. exists ky. now split.
    + destruct (IH best kbest m Hk Ht Hm) as [km [Hkm [Hokm [Hle Hall]]]].
      exists km. split; [exact Hkm|]. split; [exact Hokm|].
      split; [exact Hle|]. constructor; [|exact Hall].
      exists ky. split; [exact Hy|].
      exact (ltb_negtrans _ _ _ Hoky Hk Hokm C Hle).
Qed.

Lemma min_by_lowest (x : A) (l : list A) (m : A) :
  Forall (fun y => exists k, key y = inr k /\ ok k) (x :: l) ->
  Py.min_by key ltb x l = inr m ->
  exists km,
    key m = inr km /\ ok km
    /\ Forall (fun y => exists k, key y = inr k /\ ltb k km = false) (x :: l).
Proof.
  intros Hl Hm. inversion Hl as [|? ? [kx [Hx Hokx]] Ht]; subst.
  unfold Py.min_by in Hm. rewrite Hx in Hm.
  destruct (min_from_lowest l x kx m Hokx Ht Hm)
    as [km [Hkm [Hokm [Hle Hall]]]].
  exists km. split; [|split; [exact Hokm|]].
  - destruct Hkm as [[-> ->]|Hkm]; assumption.
  - constructor; [|exact Hall]. exists kx. now split.
Qed.

(** The element [min] returns is the first of the lowest: its key is
    strictly below the key of every element in front of it. *)
Lemma min_from_first (l : list A) :
  forall best kbest m,
    ok kbest ->
    Forall (fun y => exists k, key y = inr k /\ ok k) l ->
    Py.min_from key ltb best kbest l = inr m ->
    m = best
    \/ exists km l1 l2,
         key m = inr km /\ ok km /\ l = l1 ++ m :: l2
         /\ ltb km kbest = true
         /\ Forall (fun y => exists k, key y = inr k /\ ltb km k = true) l1.
Proof.
  induction l as [|y t IH]; intros best kbest m Hk Hl Hm; simpl in Hm.
  - injection Hm as <-. now left.
  - inversion Hl as [|? ? [ky [Hy Hoky]] Ht]; subst. rewrite Hy in Hm.
    destruct (ltb ky kbest) eqn:C.
    + right. destruct (IH y ky m Hoky Ht Hm)
        as [->|[km [l1 [l2 [Hkm [Hokm [-> [Hlt Hall]]]]]]]].
      * exists ky, [], t. repeat split; try assumption. constructor.
      * exists km, (y :: l1), l2. repeat split; try assumption.
        -- exact (ltb_negtrans_trans _ _ _ Hokm Hoky Hk Hlt C).
        -- constructor; [|exact Hall]. exists ky. now split.
    + destruct (IH best kbest m Hk Ht Hm)
        as [->|[km [l1 [l2 [Hkm [Hokm [-> [Hlt Hall]]]]]]]]; [now left|].
      right. exists km, (y :: l1), l2. repeat split; try assumption.
      constructor; [|exact Hall]. exists ky. split; [exact Hy|].
      destruct (ltb km ky) eqn:D; [reflexivity|].
      pose proof (ltb_negtrans _ _ _ Hokm Hoky Hk D C). congruence.
Qed.

End MinFacts.

Lemma StronglySorted_after {A : Type} (R : A -> A -> Prop)
  (l1 : list A) (m : A) (l2 : list A) :
  StronglySorted R (l1 ++ m :: l2) -> Forall (R m) l2.
Proof.
  induction l1 as [|x l1 IH]; simpl; intro Hs;
    inversion Hs; subst; [assumption | now apply IH].
Qed.

(** In an ascending list of indices, the index [min] returns has a key
    strictly below the key of every smaller index. *)
Lemma min_by_first {K E : Type} (key : nat -> E + K) (ltb : K -> K -> bool)
  (ok : K -> Prop) (x : nat) (l : list nat) (m : nat) :
  (forall a b, ltb a b = true -> ltb b a = false) ->
  (forall a b c, ok a -> ok b -> ok c ->
                 ltb a b = false -> ltb b c = false -> ltb a c = false) ->
  StronglySorted lt (x :: l) ->
  Forall (fun y => exists k, key y = inr k /\ ok k) (x :: l) ->
  Py.min_by key ltb x l = inr m ->
  exists km,
    key m = inr km
    /\ forall y, In y (x :: l) -> y < m ->
                 exists k, key y = inr k /\ ltb km k = true.
Proof.
  intros Hasym Hneg Hs Hl Hm.
  inversion Hl as [|? ? [kx [Hx Hokx]] Ht]; subst.
  inversion Hs as [|? ? Hst Hall]; subst.
  pose proof Hm as Hm'. unfold Py.min_by in Hm'. rewrite Hx in Hm'.
  destruct (min_from_first key ltb ok Hasym Hneg l x kx m Hokx Ht Hm')
    as [->|[km [l1 [l2 [Hkm [Hokm [-> [Hlt Hl1]]]]]]]].
  - exists kx. split; [exact Hx|]. intros y [<-|Hy] Hlt; [lia|].
    rewrite Forall_forall in Hall. specialize (Hall y Hy). lia.
  - exists km. split; [exact Hkm|]. intros y Hy Hym.
    destruct Hy as [<-|Hy]; [now exists kx|].
    apply in_app_or in Hy. destruct Hy as [Hy|[<-|Hy]].
    + rewrite Forall_forall in Hl1. exact (Hl1 y Hy).
    + lia.
    + pose proof (StronglySorted_after _ _ _ _ Hst) as Hgt.
      rewrite Forall_forall in Hgt. specialize (Hgt y Hy). lia.
Qed.

Section LoopFacts.
Context {K : Type}.
Variable avg : nat -> list nat -> exn + K.
Variable ltb : K -> K -> bool.

Lemma diversity_step_inv (indices result indices' result' : list nat) :
  diversity_step avg ltb indices result = Some (inr (indices', result')) ->
  exists i rest least,
    indices = i :: rest
    /\ least_similar_item avg ltb result i rest = inr least
    /\ Py.remove_first least indices = Some indices'
    /\ result' = result ++ [least].
Proof.
  unfold diversity_step. destruct indices as [|i rest]; [discriminate|].
  destruct (least_similar_item avg ltb result i rest) as [e|least] eqn:Hmin;
    [discriminate|].
  destruct (Py.remove_first least (i :: rest)) as [l'|] eqn:E; [|discriminate].
  intro H. injection H as <- <-. exists i, rest, least.
  repeat split; assumption.
Qed.

Lemma diversity_step_None (indices result : list nat) :
  diversity_step avg ltb indices result = None -> indices = [].
Proof.
  unfold diversity_step. destruct indices as [|i rest]; [reflexivity|].
  destruct (least_similar_item avg ltb result i rest); [discriminate|].
  destruct (Py.remove_first _ _); discriminate.
Qed.

Lemma diversity_loop_S (n : nat) (indices result : list nat) :
  diversity_loop avg ltb (S n) indices result
  = match diversity_step avg ltb indices result with
    | None => inr result
    | Some (inl e) => inl e
    | Some (inr (indices', result')) => diversity_loop avg ltb n indices' result'
    end.
Proof. reflexivity. Qed.

(** What the loop returns is [result] followed by the indices in some
    order. *)
Lemma diversity_loop_perm (n : nat) :
  forall indices result out,
    List.length indices = n ->
    diversity_loop avg ltb n indices result = inr out ->
    exists chosen, out = result ++ chosen /\ Permutation chosen indices.
Proof.
  induction n as [|n IH]; intros indices result out Hlen Hrun.
  - destruct indices; [|discriminate]. simpl in Hrun. injection Hrun as <-.
    exists []. now rewrite app_nil_r.
  - rewrite diversity_loop_S in Hrun.
    destruct (diversity_step avg ltb indices result) as [[e|[indices' result']]|]
      eqn:Hstep;
      [discriminate| |apply diversity_step_None in Hstep; now subst].
    destruct (diversity_step_inv _ _ _ _ Hstep)
      as [i [rest [least [-> [_ [Hrem ->]]]]]].
    apply remove_first_Some in Hrem.
    assert (Hlen' : List.length indices' = n).
    { apply Permutation_length in Hrem. simpl in Hrem, Hlen. lia. }
    destruct (IH _ _ _ Hlen' Hrun) as [chosen [-> Hp]].
    exists (least :: chosen). split; [now rewrite <- app_assoc|].
    eapply Permutation_trans; [apply perm_skip, Hp | now symmetry].
Qed.

(** The loop run for as many passes as there are indices ends as the
    unbounded loop does, with the same exception or the same list. *)
Lemma diversity_loop_while (n : nat) :
  forall indices result,
    List.length indices = n ->
    while_indices avg ltb indices result
      (diversity_loop avg ltb n indices result).
Proof.
  induction n as [|n IH]; intros indices result Hlen.
  - destruct indices; [|discriminate]. constructor.
  - rewrite diversity_loop_S.
    destruct (diversity_step avg ltb indices result) as [[e|[indices' result']]|]
      eqn:Hstep;
      [now apply while_raise| |apply diversity_step_None in Hstep; now subst].
    eapply while_pass; [exact Hstep|]. apply IH.
    destruct (diversity_step_inv _ _ _ _ Hstep)
      as [i [rest [least [-> [_ [Hrem _]]]]]].
    apply remove_first_Some, Permutation_length in Hrem.
    simpl in Hrem, Hlen. lia.
Qed.

(** The loop raises nothing when the averages it asks for are computed:
    those of indices below [bound] over non-empty lists of such
    indices. *)
Lemma diversity_loop_total (bound : nat) :
  (forall y sel, y < bound -> sel <> [] -> Forall (fun j => j < bound) sel ->
                 exists a, avg y sel = inr a) ->
  forall n indices result,
    List.length indices = n ->
    Forall (fun j => j < bound) indices ->
    Forall (fun j => j < bound) result ->
    result <> [] ->
    exists out, diversity_loop avg ltb n indices result = inr out.
Proof.
  intros Hdef. induction n as [|n IH]; intros indices result Hlen Hi Hr Hne.
  - now exists result.
  - destruct indices as [|i rest]; [discriminate|].
    rewrite diversity_loop_S. unfold diversity_step.
    destruct (min_by_total (fun j => avg j result) ltb i rest) as [least Hmin].
    { eapply Forall_impl; [|exact Hi]. intros y Hy. now apply Hdef. }
    unfold least_similar_item. rewrite Hmin.
    pose proof (min_by_In _ _ _ _ _ Hmin) as Hin.
    destruct (remove_first_In least (i :: rest) Hin) as [indices' [-> Hp]].
    assert (Hleast : least < bound).
    { rewrite Forall_forall in Hi. now apply Hi. }
    apply IH.
    + apply Permutation_length in Hp. simpl in Hp, Hlen. lia.
    + pose proof (Permutation_Forall Hp Hi) as Hall. now inversion Hall.
    + apply Forall_app. split; [exact Hr | now constructor].
    + destruct result; discriminate.
Qed.

(** The pass at which an index was chosen: [x], which [result ++ c1]
    precedes in what the loop returns, was the [min] of the indices
    still to choose from, an ascending list of [x] and the indices
    after [x]. *)
Lemma diversity_loop_choice (n : nat) :
  forall indices result out,
    List.length indices = n ->
    StronglySorted lt indices ->
    diversity_loop avg ltb n indices result = inr out ->
    forall c1 x c2,
      out = (result ++ c1) ++ x :: c2 ->
      exists i rest,
        StronglySorted lt (i :: rest)
        /\ Permutation (i :: rest) (x :: c2)
        /\ least_similar_item avg ltb (result ++ c1) i rest = inr x.
Proof.
  induction n as [|n IH]; intros indices result out Hlen Hs Hrun c1 x c2 Hout.
  - simpl in Hrun. injection Hrun as <-.
    rewrite <- app_assoc in Hout. rewrite <- (app_nil_r result) in Hout at 1.
    apply app_inv_head in Hout. destruct c1; discriminate.
  - rewrite diversity_loop_S in Hrun.
    destruct (diversity_step avg ltb indices result) as [[e|[indices' result']]|]
      eqn:Hstep;
      [discriminate| |apply diversity_step_None in Hstep; now subst].
    destruct (diversity_step_inv _ _ _ _ Hstep)
      as [i [rest [least [-> [Hmin [Hrem ->]]]]]].
    pose proof (remove_first_sorted _ _ _ Hrem Hs) as Hs'.
    apply remove_first_Some in Hrem.
    assert (Hlen' : List.length indices' = n).
    { apply Permutation_length in Hrem. simpl in Hrem, Hlen. lia. }
    destruct (diversity_loop_perm n _ _ _ Hlen' Hrun) as [chosen [E Hpc]].
    rewrite E in Hout. rewrite <- !app_assoc in Hout.
    apply app_inv_head in Hout.
    simpl in Hout. destruct c1 as [|c c1].
    + simpl in Hout. injection Hout as <- <-. rewrite app_nil_r.
      exists i, rest. split; [exact Hs|]. split; [|exact Hmin].
      eapply Permutation_trans; [exact Hrem|].
      apply perm_skip. now symmetry.
    + simpl in Hout. injection Hout as <- Hout.
      replace (result ++ least :: c1) with ((result ++ [least]) ++ c1)
        by (now rewrite <- app_assoc).
      apply (IH indices' (result ++ [least]) _ Hlen' Hs' Hrun c1 x c2).
      rewrite E, Hout. now rewrite <- !app_assoc.
Qed.

End LoopFacts.

(** *** The averages *)

Section AvgFacts.
Context {F : Type} `{FloatOps F}.

Lemma np_dot_inr (u v : list F) :
  List.length u = List.length v -> np_dot u v = inr (sum_of_products u v).
Proof. intro E. unfold np_dot. now rewrite E, Nat.eqb_refl. Qed.

Lemma np_dot_inl (u v : list F) :
  List.length u <> List.length v -> exists msg, np_dot u v = inl (ValueError msg).
Proof.
  intro E. unfold np_dot. apply Nat.eqb_neq in E. rewrite E. now eexists.
Qed.

Lemma sum_cosines_defined (embs : list (list F)) (i : nat) (sel : list nat) :
  forall acc,
    Forall (fun j => List.length (nth i embs []) = List.length (nth j embs []))
           sel ->
    exists total, sum_cosines embs i sel acc = inr total.
Proof.
  induction sel as [|j sel IH]; intros acc Hsel; simpl.
  - now exists acc.
  - inversion Hsel as [|? ? Hj Ht]; subst. unfold cosine.
    rewrite (np_dot_inr _ _ Hj). now apply IH.
Qed.

Lemma avg_similarity_to_result_defined (embs : list (list F)) (i : nat)
  (sel : list nat) :
  sel <> [] ->
  Forall (fun j => List.length (nth i embs []) = List.length (nth j embs []))
         sel ->
  exists a, avg_similarity_to_result embs i sel = inr a.
Proof.
  intros Hne Hsel. unfold avg_similarity_to_result.
  destruct (sum_cosines_defined embs i sel f_zero Hsel) as [total ->].
  destruct sel; [congruence|]. simpl. now eexists.
Qed.

Lemma avg_similarity_same_dimension (embs : list (list F)) :
  same_dimension embs ->
  forall y sel,
    y < List.length embs -> sel <> [] ->
    Forall (fun j => j < List.length embs) sel ->
    exists a, avg_similarity_to_result embs y sel = inr a.
Proof.
  intros Hdim y sel Hy Hne Hsel.
  apply avg_similarity_to_result_defined; [exact Hne|].
  eapply Forall_impl; [|exact Hsel]. intros j Hj. simpl in Hj.
  apply Hdim; now apply nth_In.
Qed.

(** Over the first index alone the average is computed exactly when
    the embedding has the length of the first embedding; numpy's [@]
    raises [ValueError] otherwise. *)
Lemma avg_similarity_first_inl (embs : list (list F)) (i : nat) :
  List.length (nth i embs []) <> List.length (nth 0 embs []) ->
  avg_similarity_to_result embs i [0]
  = np_dot (nth i embs []) (nth 0 embs [])
  /\ exists msg, avg_similarity_to_result embs i [0] = inl (ValueError msg).
Proof.
  intro Hne. unfold avg_similarity_to_result, sum_cosines, cosine.
  destruct (np_dot_inl _ _ Hne) as [msg ->]. split; [reflexivity|].
  now exists msg.
Qed.

End AvgFacts.

Lemma map_nth_error_seq {A : Type} (l : list A) :
  map (nth_error l) (seq 0 (List.length l)) = map Some l.
Proof.
  induction l as [|x l IH]; [reflexivity|].
  simpl List.length. simpl seq. rewrite <- seq_shift. simpl map at 1.
  rewrite map_map. simpl map at 2. f_equal. rewrite <- IH.
  apply map_ext. reflexivity.
Qed.

Lemma map_Some_inj {A : Type} (l l' : list A) :
  map Some l = map Some l' -> l = l'.
Proof.
  revert l'. induction l as [|x l IH]; intros [|y l'] E; simpl in E;
    try discriminate; [reflexivity|].
  injection E as -> E. f_equal. now apply IH.
Qed.

Lemma getitems_in_range {A : Type} (passages : list A) (result : list nat) :
  Forall (fun i => i < List.length passages) result ->
  exists out,
    getitems passages result = inr out
    /\ Forall2 (fun i p => nth_error passages i = Some p) result out.
Proof.
  induction 1 as [|i rest Hi _ [out [IH1 IH2]]].
  - exists []. split; [reflexivity | constructor].
  - apply nth_error_Some in Hi.
    destruct (nth_error passages i) as [p|] eqn:E; [|congruence].
    exists (p :: out). simpl. rewrite E, IH1. split; [reflexivity|].
    now constructor.
Qed.

Lemma getitems_perm {A : Type} (passages : list A) (result : list nat) :
  Permutation result (seq 0 (List.length passages)) ->
  exists out,
    getitems passages result = inr out
    /\ Forall2 (fun i p => nth_error passages i = Some p) result out
    /\ Permutation out passages.
Proof.
  intro Hp.
  destruct (getitems_in_range passages result) as [out [Hrun Hout]].
  { apply Forall_forall. intros i Hi.
    apply (Permutation_in _ Hp), in_seq in Hi. lia. }
  exists out. split; [exact Hrun|]. split; [exact Hout|].
  assert (Hmap : map Some out = map (nth_error passages) result).
  { clear Hrun Hp. induction Hout as [|i p rest out' E _ IH];
      [reflexivity|]. simpl. now rewrite E, IH. }
  assert (Hps : Permutation (map Some out) (map Some passages)).
  { rewrite Hmap, <- map_nth_error_seq. now apply Permutation_map. }
  apply Permutation_map_inv in Hps. destruct Hps as [l3 [E Hl3]].
  apply map_Some_inj in E. subst l3. now symmetry.
Qed.

Lemma seq_sorted (n : nat) : forall a, StronglySorted lt (seq a n).
Proof.
  induction n as [|n IH]; intro a; simpl; constructor; [apply IH|].
  apply Forall_forall. intros y Hy. apply in_seq in Hy. lia.
Qed.

(** A run of [rerank_with_diversity] with a vector store that returns:
    the state is as it was, there was a passage, and the passages
    returned are those at the indices the loop ended with. *)
Lemma rerank_with_diversity_inv {F : Type} `{FloatOps F} (self : Agent F)
  (db : VectorStore F) (passages out : list Document) (s s' : State) :
  vecdb self = Some db ->
  rerank_with_diversity self passages s = (inr out, s') ->
  s' = s
  /\ passages <> []
  /\ exists chosen : list nat,
       diversity_loop
         (avg_similarity_to_result (embedding_fn db (map content passages)))
         f_ltb (List.length passages - 1)
         (seq 1 (List.length passages - 1)) [0]
       = inr (0 :: chosen)
       /\ Permutation (0 :: chosen) (seq 0 (List.length passages))
       /\ Forall2 (fun i p => nth_error passages i = Some p) (0 :: chosen) out
       /\ Permutation out passages.
Proof.
  intros Hdb. unfold rerank_with_diversity. rewrite Hdb.
  set (avg := avg_similarity_to_result _).
  destruct passages as [|p0 ps]; [discriminate|].
  set (passages := p0 :: ps) in *.
  replace (List.length passages - 1) with (List.length ps)
    by (unfold passages; simpl; lia).
  change (seq 0 (List.length passages)) with (0 :: seq 1 (List.length ps)).
  unfold Py.pop0. rewrite length_seq.
  destruct (diversity_loop avg f_ltb (List.length ps) (seq 1 (List.length ps)) [0])
    as [e|result] eqn:Hloop; [discriminate|].
  destruct (diversity_loop_perm avg f_ltb _ _ _ _ (length_seq _ _) Hloop)
    as [chosen [-> Hpc]].
  change ([0] ++ chosen) with (0 :: chosen) in *.
  assert (Hperm : Permutation (0 :: chosen) (0 :: seq 1 (List.length ps))).
  { now constructor. }
  destruct (getitems_perm passages (0 :: chosen) Hperm)
    as [reranked [Hget [Hout Hpr]]].
  rewrite Hget. intro E. injection E as <- <-.
  split; [reflexivity|]. split; [discriminate|].
  exists chosen. repeat split; assumption.
Qed.

(** A run of [rerank_with_diversity] with a vector store, at least one
    passage and embeddings of one length returns. *)
Lemma rerank_with_diversity_run {F : Type} `{FloatOps F} (self : Agent F)
  (db : VectorStore F) (passages : list Document) (s : State) :
  vecdb self = Some db ->
  passages <> [] ->
  same_dimension (embedding_fn db (map content passages)) ->
  exists (chosen : list nat) (reranked : list Document),
    rerank_with_diversity self passages s = (inr reranked, s)
    /\ diversity_loop
         (avg_similarity_to_result (embedding_fn db (map content passages)))
         f_ltb (List.length passages - 1)
         (seq 1 (List.length passages - 1)) [0]
       = inr (0 :: chosen)
    /\ Permutation (0 :: chosen) (seq 0 (List.length passages))
    /\ Forall2 (fun i p => nth_error passages i = Some p) (0 :: chosen) reranked
    /\ Permutation reranked passages.
Proof.
  intros Hdb Hne Hdim.
  set (embs := embedding_fn db (map content passages)) in *.
  assert (Hlen : List.length embs = List.length passages).
  { unfold embs. now rewrite embedding_fn_length, length_map. }
  assert (Hpos : 0 < List.length passages).
  { destruct passages; [congruence | simpl; lia]. }
  destruct (diversity_loop_total (avg_similarity_to_result embs) f_ltb
              (List.length embs) (avg_similarity_same_dimension embs Hdim)
              (List.length passages - 1) (seq 1 (List.length passages - 1)) [0])
    as [result Hloop].
  - apply length_seq.
  - apply Forall_forall. intros j Hj. apply in_seq in Hj. lia.
  - constructor; [lia | constructor].
  - discriminate.
  - assert (Hrun : exists reranked,
               rerank_with_diversity self passages s = (inr reranked, s)).
    { unfold rerank_with_diversity. rewrite Hdb. fold embs.
      destruct passages as [|p0 ps]; [congruence|].
      change (seq 0 (List.length (p0 :: ps)))
        with (0 :: seq 1 (List.length ps)).
      unfold Py.pop0. rewrite length_seq.
      replace (List.length (p0 :: ps) - 1) with (List.length ps) in Hloop
        by (simpl; lia).
      rewrite Hloop.
      destruct (diversity_loop_perm _ _ _ _ _ _ (length_seq _ _) Hloop)
        as [chosen [-> Hpc]].
      assert (Hperm : Permutation ([0] ++ chosen)
                                  (seq 0 (List.length (p0 :: ps)))).
      { simpl. now constructor. }
      destruct (getitems_perm (p0 :: ps) _ Hperm) as [reranked [Hget _]].
      rewrite Hget. now exists reranked. }
    destruct Hrun as [reranked Hrun].
    destruct (rerank_with_diversity_inv self db passages reranked s s Hdb Hrun)
      as [_ [_ [chosen [Hl [Hp [Hf Hpr]]]]]].
    exists chosen, reranked. repeat split; assumption.
Qed.

(** Every index the loop appends had, when chosen, a lowest average
    among the indices still to choose from, where those averages were
    numbers. *)
Lemma diversity_loop_lowest {F : Type} `{FloatOps F} `{FloatCompare F}
  (avg : nat -> list nat -> exn + F) (n : nat) (result : list nat) :
  float_order_laws F ->
  diversity_loop avg f_ltb n (seq 1 n) [0] = inr result ->
  lowest_each_step avg result.
Proof.
  intros [Hasym [Hneg [Hleb _]]] Hloop sel x rest Hsel Hres Hnum.
  destruct (diversity_loop_perm avg f_ltb _ _ _ _ (length_seq _ _) Hloop)
    as [chosen [E _]].
  destruct sel as [|s0 c1]; [congruence|].
  assert (Hs0 : s0 = 0).
  { rewrite E in Hres. simpl in Hres. now injection Hres as <- _. }
  subst s0.
  destruct (diversity_loop_choice avg f_ltb n (seq 1 n) [0] result
              (length_seq _ _) (seq_sorted n 1) Hloop c1 x rest Hres)
    as [i [rest' [_ [Hp Hmin]]]].
  simpl app in Hmin. unfold least_similar_item in Hmin.
  unfold numbers_at in Hnum.
  pose proof (Permutation_Forall (Permutation_sym Hp) Hnum) as Hnum'.
  destruct (min_by_lowest (fun j => avg j (0 :: c1)) f_ltb is_number
              Hasym Hneg i rest' x Hnum' Hmin) as [km [Hkm [Hokm Hall]]].
  exists km. split; [exact Hkm|].
  pose proof (Permutation_Forall Hp Hall) as Hall'.
  rewrite Forall_forall in *. intros y Hy.
  destruct (Hall' y Hy) as [k [Hk Hlt]].
  destruct (Hnum y Hy) as [a [Ha Hoka]].
  exists k. split; [exact Hk|].
  assert (a = k) by congruence. subst a.
  now apply Hleb.
Qed.

(** C4, as amended. With no vector store, [rerank_with_diversity] logs
    a warning and returns its input. With a vector store set, a
    non-empty list of passages and embeddings of one length, on any
    floats that satisfy the laws of the order (the reals and binary64
    do), it raises nothing and returns a permutation of the passages
    whose first element is the first passage: the passages at the
    indices [result], where [result] starts with index 0 and is what
    the loop [while indices:] ends with. Every later index was, when
    chosen, one of lowest average cosine similarity to the indices
    chosen before it: its average was [<=] that of every index still to
    choose from, whenever the averages compared at that pass were
    numbers. *)
Theorem rerank_with_diversity_spec :
  forall (F : Type) (ops : FloatOps F) (cmp : FloatCompare F)
         (self : Agent F) (passages : list Document) (s : State),
    float_order_laws F ->
    (vecdb self = None ->
     rerank_with_diversity self passages s
     = (inr passages,
        logged (Warning "No vecdb; cannot use rerank_with_diversity") s))
    /\ (forall db : VectorStore F,
           vecdb self = Some db ->
           passages <> [] ->
           same_dimension (embedding_fn db (map content passages)) ->
           let avg :=
             avg_similarity_to_result
               (embedding_fn db (map content passages)) in
           exists (result : list nat) (reranked : list Document),
             rerank_with_diversity self passages s = (inr reranked, s)
             /\ Permutation reranked passages
             /\ hd_error reranked = hd_error passages
             /\ hd_error result = Some 0
             /\ Permutation result (seq 0 (List.length passages))
             /\ Forall2 (fun i p => nth_error passages i = Some p)
                        result reranked
             /\ diversity_loop avg f_ltb (List.length passages - 1)
                  (seq 1 (List.length passages - 1)) [0]
                = inr result
             /\ while_indices avg f_ltb (seq 1 (List.length passages - 1)) [0]
                  (inr result)
             /\ lowest_each_step avg result).
Proof.
  intros F ops cmp self passages s Hlaws. split.
  { intro Hdb. unfold rerank_with_diversity. rewrite Hdb. reflexivity. }
  intros db Hdb Hne Hdim. cbv zeta.
  destruct (rerank_with_diversity_run self db passages s Hdb Hne Hdim)
    as [chosen [reranked [Hrun [Hloop [Hperm [Hout Hpr]]]]]].
  set (avg := avg_similarity_to_result _) in *.
  set (n := List.length passages - 1) in *.
  exists (0 :: chosen), reranked.
  split; [exact Hrun|]. split; [exact Hpr|]. split.
  { destruct passages as [|p0 ps]; [congruence|].
    inversion Hout as [|i p l l' E _]; subst. simpl in *. congruence. }
  split; [reflexivity|]. split; [exact Hperm|]. split; [exact Hout|].
  split; [exact Hloop|]. split.
  - rewrite <- Hloop. apply diversity_loop_while. apply length_seq.
  - exact (diversity_loop_lowest avg n (0 :: chosen) Hlaws Hloop).
Qed.

(** The three sample passages in binary64 arithmetic: after the first,
    the orthogonal third passage is chosen before the second, its
    average 0 being the lowest of the two numbers compared. *)
Lemma rerank_with_diversity_spec_witness :
  let db := Sample.store (F := float) (fun _ => [])
              (Sample.embed 0.5%float) in
  let self := Sample.agent (default_config Sample.template false)
                (Some db) (Some []) in
  let avg :=
    avg_similarity_to_result
      (embedding_fn db (map content Sample.passages3)) in
  float_order_laws float
  /\ vecdb self = Some db
  /\ Sample.passages3 <> []
  /\ same_dimension (embedding_fn db (map content Sample.passages3))
  /\ rerank_with_diversity self Sample.passages3 Sample.fresh
     = (inr [Sample.doc "a" "alpha"; Sample.doc "c" "gamma";
             Sample.doc "b" "alpha again"], Sample.fresh)
  /\ lowest_each_step avg [0; 2; 1]
  /\ numbers_at avg [0] [2; 1]
  /\ lowest_at avg [0] 2 [2; 1].
Proof.
  cbv zeta.
  set (db := Sample.store (F := float) (fun _ => []) (Sample.embed 0.5%float)).
  set (self := Sample.agent (default_config Sample.template false)
                 (Some db) (Some [])).
  assert (Hdim : same_dimension (embedding_fn db (map content Sample.passages3))).
  { intros u v Hu Hv. simpl in Hu, Hv.
    destruct Hu as [<-|[<-|[<-|[]]]]; destruct Hv as [<-|[<-|[<-|[]]]];
      reflexivity. }
  assert (Hnum : numbers_at
                   (avg_similarity_to_result
                      (embedding_fn db (map content Sample.passages3)))
                   [0] [2; 1]).
  { repeat constructor; eexists; (split; [vm_compute; reflexivity|]);
      vm_compute; reflexivity. }
  destruct (rerank_with_diversity_spec float float_ops float_compare self
              Sample.passages3 Sample.fresh binary64_order_laws)
    as [_ Hsome].
  destruct (Hsome db eq_refl ltac:(discriminate) Hdim)
    as [result [reranked [Hrun [_ [_ [_ [_ [_ [Hloop [_ Hlow]]]]]]]]]].
  assert (Hres : result = [0; 2; 1]).
  { vm_compute in Hloop. now injection Hloop as <-. }
  subst result.
  split; [exact binary64_order_laws|]. split; [reflexivity|].
  split; [discriminate|]. split; [exact Hdim|].
  split; [vm_compute; reflexivity|]. split; [exact Hlow|].
  split; [exact Hnum|].
  exact (Hlow [0] 2 [1] ltac:(discriminate) eq_refl Hnum).
Defined.

(** C4 as stated fails on the empty list: with a vector store set,
    [indices.pop(0)] raises [IndexError], so no list is returned. *)
Lemma rerank_with_diversity_empty_raises :
  let db := Sample.store (F := R) (fun _ => []) (Sample.embed (1 / 2)%R) in
  let self := Sample.agent (default_config Sample.template false)
                (Some db) (Some []) in
  rerank_with_diversity self [] Sample.fresh
  = (inl (IndexError "pop from empty list"), Sample.fresh)
  /\ ~ (exists reranked,
           fst (rerank_with_diversity self [] Sample.fresh) = inr reranked
           /\ Permutation reranked []).
Proof.
  cbv zeta. split; [reflexivity|].
  intros [reranked [E _]]. discriminate E.
Qed.

(** A zero embedding in binary64: the average of the second passage is
    0 / 0, which is NaN; no number is below NaN, so the second passage
    is chosen before the third, whose average 0 is a number. *)
Example rerank_with_diversity_zero_embedding :
  let db := Sample.store (F := float) (fun _ => []) Sample.embed_with_zero in
  let self := Sample.agent (default_config Sample.template false)
                (Some db) (Some []) in
  let avg :=
    avg_similarity_to_result
      (embedding_fn db (map content Sample.passages3)) in
  fst (rerank_with_diversity self Sample.passages3 Sample.fresh)
  = inr Sample.passages3
  /\ avg 1 [0] = inr PrimFloat.nan
  /\ avg 2 [0] = inr 0%float.
Proof. vm_compute. repeat split. Qed.
(** ** Dictionaries *)

Section DictFacts.
Context {V : Type}.

Lemma dict_set_keys_In (k : string) (v : V) (d : Py.dict) (k' : string) :
  In k' (Py.keys (Py.dict_set k v d)) <-> k' = k \/ In k' (Py.keys d).
Proof.
  induction d as [|[k0 v0] t IH]; simpl.
  - intuition congruence.
  - destruct (String.eqb_spec k0 k) as [->|Hne]; simpl.
    + intuition congruence.
    + rewrite IH. intuition congruence.
Qed.

Lemma dict_set_NoDup (k : string) (v : V) (d : Py.dict) :
  NoDup (Py.keys d) -> NoDup (Py.keys (Py.dict_set k v d)).
Proof.
  induction d as [|[k0 v0] t IH]; simpl; intro Hnd.
  - constructor; [intros [] | constructor].
  - inversion Hnd as [|? ? Hnotin Hnd']; subst.
    destruct (String.eqb_spec k0 k) as [->|Hne]; simpl.
    + now constructor.
    + constructor; [|now apply IH].
      fold (Py.keys (Py.dict_set k v t)). rewrite dict_set_keys_In.
      intros [E|Hin]; [congruence | contradiction].
Qed.

Lemma dict_set_In (k : string) (v : V) (d : Py.dict) (k' : string) (v' : V) :
  NoDup (Py.keys d) ->
  (In (k', v') (Py.dict_set k v d)
   <-> (k' = k /\ v' = v) \/ (k' <> k /\ In (k', v') d)).
Proof.
  induction d as [|[k0 v0] t IH]; simpl; intro Hnd.
  - split.
    + intros [E|[]]. injection E as <- <-. now left.
    + intros [[-> ->]|[_ []]]. now left.
  - inversion Hnd as [|? ? Hnotin Hnd']; subst.
    destruct (String.eqb_spec k0 k) as [->|Hne]; simpl.
    + split.
      * intros [E|Hin]; [injection E as <- <-; now left|].
        right. split; [|now right]. intros ->.
        apply Hnotin. apply (in_map fst) in Hin. exact Hin.
      * intros [[-> ->]|[Hne [E|Hin]]]; [now left | | now right].
        injection E as <- _. congruence.
    + rewrite (IH Hnd'). split.
      * intros [E|[[-> ->]|[Hne' Hin]]].
        -- injection E as <- <-. right. split; [congruence | now left].
        -- now left.
        -- right. split; [exact Hne' | now right].
      * intros [[-> ->]|[Hne' [E|Hin]]].
        -- right. now left.
        -- now left.
        -- right. right. now split.
Qed.

Lemma dict_of_snoc (kvs : list (string * V)) (k : string) (v : V) :
  Py.dict_of (kvs ++ [(k, v)]) = Py.dict_set k v (Py.dict_of kvs).
Proof. unfold Py.dict_of. now rewrite fold_left_app. Qed.

Lemma dict_of_NoDup (kvs : list (string * V)) : NoDup (Py.keys (Py.dict_of kvs)).
Proof.
  induction kvs as [|[k v] kvs IH] using rev_ind; [constructor|].
  rewrite dict_of_snoc. now apply dict_set_NoDup.
Qed.

Lemma last_with_key_snoc (kvs : list (string * V)) (k : string) (v : V)
  (k' : string) (v' : V) :
  last_with_key (kvs ++ [(k, v)]) k' v'
  <-> (k' = k /\ v' = v) \/ (k' <> k /\ last_with_key kvs k' v').
Proof.
  unfold last_with_key. split.
  - intros [l1 [l2 [E Hlast]]].
    destruct l2 as [|x l2 _] using rev_ind.
    + apply app_inj_tail in E. destruct E as [_ E].
      injection E as <- <-. now left.
    + rewrite app_comm_cons, app_assoc in E.
      apply app_inj_tail in E. destruct E as [-> <-].
      right. rewrite map_app, in_app_iff in Hlast. simpl in Hlast.
      split; [intros ->; tauto|].
      exists l1, l2. split; [reflexivity | tauto].
  - intros [[-> ->]|[Hne [l1 [l2 [-> Hlast]]]]].
    + exists kvs, []. split; [reflexivity | intros []].
    + exists l1, (l2 ++ [(k, v)]). split; [now rewrite <- app_assoc|].
      rewrite map_app, in_app_iff. simpl. intuition congruence.
Qed.

(** Last write wins: the dictionary built from [kvs] holds [(k, v)]
    exactly when [(k, v)] is the last pair of [kvs] with key [k]. *)
Lemma dict_of_In (kvs : list (string * V)) (k : string) (v : V) :
  In (k, v) (Py.dict_of kvs) <-> last_with_key kvs k v.
Proof.
  revert k v. induction kvs as [|[k0 v0] kvs IH] using rev_ind; intros k v.
  - split; [intros [] | intros [l1 [l2 [E _]]]; now destruct l1].
  - rewrite dict_of_snoc, (dict_set_In _ _ _ _ _ (dict_of_NoDup kvs)).
    rewrite last_with_key_snoc, IH. reflexivity.
Qed.

Lemma last_with_key_In (kvs : list (string * V)) (k : string) (v : V) :
  last_with_key kvs k v -> In (k, v) kvs.
Proof. intros [l1 [l2 [-> _]]]. apply in_elt. Qed.

End DictFacts.

Example dict_of_example :
  Py.dict_of [("a", 1); ("b", 2); ("a", 3); ("c", 4); ("b", 5)]%string
  = [("a", 3); ("b", 5); ("c", 4)]%string.
Proof. reflexivity. Qed.

(** ** The retrieval orchestrator *)

Lemma bind_inr_inv {A B : Type} (m : M A) (k : A -> M B) (s s' : State) (b : B) :
  bind m k s = (inr b, s') ->
  exists a s1, m s = (inr a, s1) /\ k a s1 = (inr b, s').
Proof.
  unfold bind. destruct (m s) as [[e|a] s1]; [discriminate|].
  intro E. now exists a, s1.
Qed.


Lemma slice_to_firstn {A : Type} (k : Z) (l : list A) :
  exists n, Py.slice_to k l = firstn n l.
Proof. unfold Py.slice_to. destruct (0 <=? k)%Z; eexists; reflexivity. Qed.


Section ChunksFacts.
Context {F : Type} `{FloatOps F} `{FloatExp F}.
Variable imp : Imports F.
Variable self : Agent F.




Lemma semantic_hits_run (db : VectorStore F) (qs : list string) (k : Z)
  (acc : list (Document * F)) (s : State) :
  vecdb self = Some db ->
  semantic_hits self qs k acc s
  = (inr (acc ++ List.concat (map (fun q => similar_texts_with_scores db q k
                                         (filter (config self))) qs)), s).
Proof.
  intro Hdb. revert acc. induction qs as [|q rest IH]; intro acc; simpl.
  - now rewrite app_nil_r.
  - unfold get_semantic_search_results at 1. rewrite Hdb.
    rewrite bind_ret_l, IH, app_assoc. reflexivity.
Qed.


Lemma rerank_with_diversity_perm (passages out : list Document) (s s' : State) :
  rerank_with_diversity self passages s = (inr out, s') ->
  Permutation out passages.
Proof.
  destruct (vecdb self) as [db|] eqn:Hdb.
  - intro Hrun.
    destruct (rerank_with_diversity_inv self db passages out s s' Hdb Hrun)
      as [_ [_ [chosen [_ [_ [_ Hperm]]]]]].
    exact Hperm.
  - unfold rerank_with_diversity. rewrite Hdb.
    intro E. injection E as <- _. apply Permutation_refl.
Qed.

Lemma add_context_window_cases (docs_scores : list (Document * F)) :
  add_context_window self docs_scores = docs_scores
  \/ exists db,
       vecdb self = Some db
       /\ n_neighbor_chunks (config self) <> 0%Z
       /\ add_context_window self docs_scores
          = vs_add_context_window db docs_scores
              (n_neighbor_chunks (config self)).
Proof.
  unfold add_context_window. destruct (vecdb self) as [db|]; [|now left].
  destruct (Z.eqb_spec (n_neighbor_chunks (config self)) 0); [now left|].
  destruct docs_scores as [|[d0 s0] rest]; [now left|].
  destruct (negb _); [now left|]. right. exists db. now repeat split.
Qed.



End ChunksFacts.





(** ** The two readings of [get_verbatim_extracts] agree *)

Lemma passage_extracts_filter (no_answer : string)
  (pairs : list (Document * string)) :
  passage_extracts no_answer pairs
  = map (fun pe => with_content (snd pe) (fst pe))
        (List.filter (fun pe => survives no_answer (snd pe)) pairs).
Proof.
  induction pairs as [|[p e] rest IH]; [reflexivity|].
  simpl. unfold survives at 1. simpl snd.
  destruct (String.eqb e no_answer || (String.length e =? 0)); simpl;
    now rewrite IH.
Qed.

Lemma extraction_events_run (inputs : list string) (s : State) :
  exists s',
    fold_right (fun msg k => emit (LLMCall Extraction msg) ;;; k)
               (ret tt) inputs s = (inr tt, s').
Proof.
  revert s. induction inputs as [|msg rest IH]; intro s; simpl.
  - now exists s.
  - unfold bind at 1. simpl. apply IH.
Qed.

Lemma deref_contents (st : Store) (passages : list nat) (ds : list Document) :
  Forall2 (fun p d => deref st p = Some d) passages ds ->
  Forall (fun p => exists d, deref st p = Some d) passages
  /\ map (fun p => match deref st p with
                   | Some d => content d
                   | None => ""%string
                   end) passages
     = map content ds.
Proof.
  induction 1 as [|p d ps ds' Hd _ [IH1 IH2]]; [now split|].
  split; [constructor; [now exists d | exact IH1]|].
  simpl. now rewrite Hd, IH2.
Qed.

Lemma extracts_of_values (st st' : Store) (passages : list nat)
  (ds : list Document) (extracts : list string) (no_answer : string)
  (out : list nat) :
  Forall2 (fun p d => deref st p = Some d) passages ds ->
  Forall2 (is_extract_of st st')
    (List.filter (fun pe => survives no_answer (snd pe))
                 (combine passages extracts)) out ->
  Forall2 (fun r v => deref st' r = Some v) out
    (passage_extracts no_answer (combine ds extracts)).
Proof.
  intro Hds. revert extracts out.
  induction Hds as [|p d ps ds' Hd _ IH]; intros extracts out Hout.
  - simpl in Hout. inversion Hout. constructor.
  - destruct extracts as [|e extracts]; [inversion Hout; constructor|].
    simpl in Hout |- *. unfold survives in Hout at 1. simpl snd in Hout.
    destruct (String.eqb e no_answer || (String.length e =? 0));
      simpl negb in Hout.
    + now apply IH.
    + inversion Hout as [|pe r l l' [_ [d' [Hd' Hr]]] Hrest]; subst.
      simpl in Hd', Hr. rewrite Hd in Hd'. injection Hd' as <-.
      constructor; [exact Hr | now apply IH].
Qed.

(** What the references returned on a store stand for is what the
    method returns on the values of the passages. *)
Lemma get_verbatim_extracts_in_values {F : Type} (imp : Imports F)
  (self : Agent F) (query : string) (st st' : Store)
  (passages out : list nat) (ds : list Document) (s : State) :
  Forall2 (fun p d => deref st p = Some d) passages ds ->
  get_verbatim_extracts_in imp self query st passages = Some (st', out) ->
  exists vs s',
    get_verbatim_extracts imp self query ds s = (inr vs, s')
    /\ Forall2 (fun r v => deref st' r = Some v) out vs.
Proof.
  intros Hds Hrun.
  destruct (deref_contents st passages ds Hds) as [Hvalid Hc].
  destruct (get_verbatim_extracts_preserves_aux imp self query st passages Hvalid)
    as [st2 [out2 [Hrun2 Hcase]]].
  rewrite Hrun in Hrun2. injection Hrun2 as <- <-.
  unfold get_verbatim_extracts.
  destruct (relevance_extractor_config (config self)) as [agent_cfg|].
  - destruct (extraction_events_run (map content ds) s) as [s' Hev].
    eexists. exists s'. split.
    + unfold bind at 1. rewrite Hev. reflexivity.
    + cbv zeta in Hcase. rewrite Hc in Hcase.
      exact (extracts_of_values _ _ _ _ _ _ _ Hds Hcase).
  - destruct Hcase as [-> ->]. exists ds, s. split; [reflexivity|].
    clear Hrun Hvalid Hc. induction Hds; constructor; auto.
Qed.


(* ================================================================= *)
(** * Part III. Further properties of the pipeline *)
(* ================================================================= *)

(** ** The ends of the periphery order *)

(** X1. [rerank_to_periphery] keeps the number of passages, leaves the
    first passage first and puts the second passage last: the two best
    passages end up at the two ends of the list. A list of fewer than
    three passages is returned as it is. *)
Theorem rerank_to_periphery_ends :
  forall (A : Type) (p0 p1 : A) (rest : list A),
    List.length (rerank_to_periphery (p0 :: p1 :: rest))
    = List.length (p0 :: p1 :: rest)
    /\ hd_error (rerank_to_periphery (p0 :: p1 :: rest)) = Some p0
    /\ last (rerank_to_periphery (p0 :: p1 :: rest)) p0 = p1
    /\ rerank_to_periphery [p0; p1] = [p0; p1]
    /\ rerank_to_periphery [p0] = [p0]
    /\ rerank_to_periphery (@nil A) = [].
Proof.
  intros A p0 p1 rest. split; [|split; [|split]].
  - apply Permutation_length, rerank_to_periphery_perm.
  - rewrite rerank_to_periphery_unfold, take_every_2_cons0. reflexivity.
  - rewrite rerank_to_periphery_unfold.
    rewrite take_every_2_cons0, !take_every_2_cons1, take_every_2_cons0.
    change (rev (p1 :: Py.take_every 2 1 rest))
      with (rev (Py.take_every 2 1 rest) ++ [p1]).
    rewrite app_assoc. apply last_last.
  - repeat split.
Qed.

(** ** The diversity order: short lists, ragged embeddings and ties *)

(** Every index the loop appends was, when chosen, the smallest of
    the indices of lowest average still to choose from, where those
    averages were numbers. *)
Lemma diversity_loop_earliest {F : Type} `{FloatOps F} `{FloatCompare F}
  (avg : nat -> list nat -> exn + F) (n : nat) (result : list nat) :
  float_order_laws F ->
  diversity_loop avg f_ltb n (seq 1 n) [0] = inr result ->
  earliest_on_ties avg result.
Proof.
  intros [Hasym [Hneg _]] Hloop sel x rest Hsel Hres Hnum y Hy Hyx.
  destruct (diversity_loop_perm avg f_ltb _ _ _ _ (length_seq _ _) Hloop)
    as [chosen [E _]].
  destruct sel as [|s0 c1]; [congruence|].
  assert (Hs0 : s0 = 0).
  { rewrite E in Hres. simpl in Hres. now injection Hres as <- _. }
  subst s0.
  destruct (diversity_loop_choice avg f_ltb n (seq 1 n) [0] result
              (length_seq _ _) (seq_sorted n 1) Hloop c1 x rest Hres)
    as [i [rest' [Hs [Hp Hmin]]]].
  simpl app in Hmin. unfold least_similar_item in Hmin.
  unfold numbers_at in Hnum.
  pose proof (Permutation_Forall (Permutation_sym Hp) Hnum) as Hnum'.
  destruct (min_by_first (fun j => avg j (0 :: c1)) f_ltb is_number
              i rest' x Hasym Hneg Hs Hnum' Hmin) as [km [Hkm Hall]].
  destruct (Hall y) as [k [Hk Hlt]]; [|exact Hyx|].
  { eapply Permutation_in; [symmetry; exact Hp | now right]. }
  now exists km, k.
Qed.

(** X2. With a vector store set, a non-empty list of passages and
    embeddings of one length, on any floats that satisfy the laws of
    the order (the reals and binary64 do), [rerank_with_diversity]
    breaks ties towards the input order: whenever index [x] was chosen
    with a smaller index [y] still to choose from, and the averages
    compared at that pass were numbers, the average similarity of [x]
    to the passages chosen before was strictly below that of [y]. An
    index is never chosen while a smaller index with an average as low
    is still to choose from. *)
Theorem rerank_with_diversity_ties :
  forall (F : Type) (ops : FloatOps F) (cmp : FloatCompare F)
         (self : Agent F) (db : VectorStore F)
         (passages : list Document) (s : State),
    float_order_laws F ->
    vecdb self = Some db ->
    passages <> [] ->
    same_dimension (embedding_fn db (map content passages)) ->
    let avg :=
      avg_similarity_to_result (embedding_fn db (map content passages)) in
    exists (result : list nat) (reranked : list Document),
      rerank_with_diversity self passages s = (inr reranked, s)
      /\ Forall2 (fun i p => nth_error passages i = Some p) result reranked
      /\ diversity_loop avg f_ltb (List.length passages - 1)
           (seq 1 (List.length passages - 1)) [0]
         = inr result
      /\ earliest_on_ties avg result.
Proof.
  intros F ops cmp self db passages s Hlaws Hdb Hne Hdim. cbv zeta.
  destruct (rerank_with_diversity_run self db passages s Hdb Hne Hdim)
    as [chosen [reranked [Hrun [Hloop [Hperm [Hout Hpr]]]]]].
  exists (0 :: chosen), reranked.
  split; [exact Hrun|]. split; [exact Hout|]. split; [exact Hloop|].
  exact (diversity_loop_earliest _ _ _ Hlaws Hloop).
Qed.

(** In binary64 arithmetic: of the three sample passages the third is
    chosen before the second, its average 0 being strictly below the
    average of the second; of three passages with one embedding, all
    tied, the second is chosen before the third. *)
Lemma rerank_with_diversity_ties_witness :
  let db := Sample.store (F := float) (fun _ => [])
              (Sample.embed 0.5%float) in
  let self := Sample.agent (default_config Sample.template false)
                (Some db) (Some []) in
  let avg :=
    avg_similarity_to_result
      (embedding_fn db (map content Sample.passages3)) in
  let tied_db := Sample.store (F := float) (fun _ => [])
                   (fun _ => [1%float; 0%float]) in
  let tied_self := Sample.agent (default_config Sample.template false)
                     (Some tied_db) (Some []) in
  float_order_laws float
  /\ vecdb self = Some db
  /\ Sample.passages3 <> []
  /\ same_dimension (embedding_fn db (map content Sample.passages3))
  /\ earliest_on_ties avg [0; 2; 1]
  /\ numbers_at avg [0] [2; 1]
  /\ (exists ax ay,
         avg 2 [0] = inr ax /\ avg 1 [0] = inr ay /\ f_ltb ax ay = true)
  /\ rerank_with_diversity tied_self Sample.passages3 Sample.fresh
     = (inr Sample.passages3, Sample.fresh)
  /\ avg_similarity_to_result
       (embedding_fn tied_db (map content Sample.passages3)) 1 [0]
     = inr 1%float
  /\ avg_similarity_to_result
       (embedding_fn tied_db (map content Sample.passages3)) 2 [0]
     = inr 1%float.
Proof.
  cbv zeta.
  set (db := Sample.store (F := float) (fun _ => []) (Sample.embed 0.5%float)).
  set (self := Sample.agent (default_config Sample.template false)
                 (Some db) (Some [])).
  assert (Hdim : same_dimension (embedding_fn db (map content Sample.passages3))).
  { intros u v Hu Hv. simpl in Hu, Hv.
    destruct Hu as [<-|[<-|[<-|[]]]]; destruct Hv as [<-|[<-|[<-|[]]]];
      reflexivity. }
  assert (Hnum : numbers_at
                   (avg_similarity_to_result
                      (embedding_fn db (map content Sample.passages3)))
                   [0] [2; 1]).
  { repeat constructor; eexists; (split; [vm_compute; reflexivity|]);
      vm_compute; reflexivity. }
  destruct (rerank_with_diversity_ties float float_ops float_compare self db
              Sample.passages3 Sample.fresh binary64_order_laws eq_refl
              ltac:(discriminate) Hdim)
    as [result [reranked [_ [_ [Hloop Hties]]]]].
  assert (Hres : result = [0; 2; 1]).
  { vm_compute in Hloop. now injection Hloop as <-. }
  subst result.
  split; [exact binary64_order_laws|]. split; [reflexivity|].
  split; [discriminate|]. split; [exact Hdim|].
  split; [exact Hties|]. split; [exact Hnum|]. split.
  - exact (Hties [0] 2 [1] ltac:(discriminate) eq_refl Hnum 1
             ltac:(now left) ltac:(lia)).
  - repeat split; vm_compute; reflexivity.
Defined.

(** In the first pass of the loop the averages are taken over index 0
    alone: the first index whose embedding has not the length of the
    first embedding makes [min] raise what numpy's [@] raises. *)
Lemma rerank_with_diversity_ragged {F : Type} `{FloatOps F} (self : Agent F)
  (db : VectorStore F) (passages : list Document) (s : State) (i : nat)
  (e : exn) :
  vecdb self = Some db ->
  0 < i < List.length passages ->
  (forall j, 0 < j < i ->
             List.length (nth j (embedding_fn db (map content passages)) [])
             = List.length (nth 0 (embedding_fn db (map content passages)) [])) ->
  np_dot (nth i (embedding_fn db (map content passages)) [])
         (nth 0 (embedding_fn db (map content passages)) [])
  = inl e ->
  rerank_with_diversity self passages s = (inl e, s).
Proof.
  intros Hdb Hi Hbefore He.
  unfold rerank_with_diversity. rewrite Hdb.
  set (embs := embedding_fn db (map content passages)) in *.
  destruct passages as [|p0 ps]; [simpl in Hi; lia|].
  change (seq 0 (List.length (p0 :: ps))) with (0 :: seq 1 (List.length ps)).
  unfold Py.pop0. rewrite length_seq.
  simpl List.length in Hi.
  assert (Hsplit : seq 1 (List.length ps)
                   = seq 1 (i - 1) ++ i :: seq (S i) (List.length ps - i)).
  { replace (List.length ps) with ((i - 1) + S (List.length ps - i)) at 1
      by lia.
    rewrite seq_app. replace (1 + (i - 1)) with i by lia. reflexivity. }
  destruct (List.length ps) as [|n] eqn:Hn; [lia|].
  rewrite diversity_loop_S. unfold diversity_step.
  change (seq 1 (S n)) with (1 :: seq 2 n) in *.
  unfold least_similar_item.
  rewrite (min_by_raises (fun j => avg_similarity_to_result embs j [0]) f_ltb
             1 (seq 2 n) (seq 1 (i - 1)) (seq (S i) (S n - i)) i e Hsplit).
  - reflexivity.
  - apply Forall_forall. intros j Hj. apply in_seq in Hj.
    apply avg_similarity_to_result_defined; [discriminate|].
    constructor; [|constructor]. apply Hbefore. lia.
  - unfold avg_similarity_to_result, sum_cosines, cosine. now rewrite He.
Qed.

(** X3. A list of one passage comes out of [rerank_with_diversity] as
    it went in, and so does a list of two passages when there is no
    vector store. With a vector store, a list of two passages comes out
    as it went in exactly when the two embeddings have one length;
    otherwise the product [embs_arr[1] @ embs_arr[0]] raises
    [ValueError]. In a longer list, the first passage whose embedding
    has not the length of the first embedding makes the call raise that
    [ValueError]. *)
Theorem rerank_with_diversity_short :
  forall (F : Type) (ops : FloatOps F) (self : Agent F) (p q : Document)
         (s : State),
    fst (rerank_with_diversity self [p] s) = inr [p]
    /\ (vecdb self = None ->
        fst (rerank_with_diversity self [p; q] s) = inr [p; q])
    /\ (forall db : VectorStore F,
           vecdb self = Some db ->
           let embs := embedding_fn db [content p; content q] in
           rerank_with_diversity self [p; q] s
           = (match np_dot (nth 1 embs []) (nth 0 embs []) with
              | inl e => inl e
              | inr _ => inr [p; q]
              end, s)
           /\ (List.length (nth 1 embs []) = List.length (nth 0 embs []) ->
               rerank_with_diversity self [p; q] s = (inr [p; q], s))
           /\ (List.length (nth 1 embs []) <> List.length (nth 0 embs []) ->
               exists msg,
                 rerank_with_diversity self [p; q] s
                 = (inl (ValueError msg), s)))
    /\ (forall (db : VectorStore F) (passages : list Document) (i : nat),
           vecdb self = Some db ->
           let embs := embedding_fn db (map content passages) in
           0 < i < List.length passages ->
           (forall j, 0 < j < i ->
                      List.length (nth j embs []) = List.length (nth 0 embs [])) ->
           List.length (nth i embs []) <> List.length (nth 0 embs []) ->
           exists msg,
             np_dot (nth i embs []) (nth 0 embs []) = inl (ValueError msg)
             /\ rerank_with_diversity self passages s
                = (inl (ValueError msg), s)).
Proof.
  intros F ops self p q s.
  assert (Htwo : forall db : VectorStore F,
             vecdb self = Some db ->
             rerank_with_diversity self [p; q] s
             = (match np_dot (nth 1 (embedding_fn db [content p; content q]) [])
                             (nth 0 (embedding_fn db [content p; content q]) [])
                with
                | inl e => inl e
                | inr _ => inr [p; q]
                end, s)).
  { intros db Hdb. unfold rerank_with_diversity. rewrite Hdb. simpl.
    unfold least_similar_item, Py.min_by, avg_similarity_to_result.
    simpl. unfold cosine.
    destruct (np_dot _ _) as [e|d]; [reflexivity|].
    simpl. reflexivity. }
  split; [|split; [|split]].
  - unfold rerank_with_diversity. destruct (vecdb self); reflexivity.
  - intro Hdb. unfold rerank_with_diversity. now rewrite Hdb.
  - intros db Hdb. cbv zeta. split; [now apply Htwo|]. split.
    + intro Hlen. rewrite (Htwo db Hdb), (np_dot_inr _ _ Hlen). reflexivity.
    + intro Hlen. rewrite (Htwo db Hdb).
      destruct (np_dot_inl _ _ Hlen) as [msg ->]. now exists msg.
  - intros db passages i Hdb. cbv zeta. intros Hi Hbefore Hlen.
    destruct (np_dot_inl _ _ Hlen) as [msg Hmsg].
    exists msg. split; [exact Hmsg|].
    exact (rerank_with_diversity_ragged self db passages s i _ Hdb Hi
             Hbefore Hmsg).
Qed.

(** The three sample passages with a second embedding of length 1, in
    binary64: the first product is of a vector of length 1 with one of
    length 2. *)
Lemma rerank_with_diversity_short_witness :
  let db := Sample.store (F := float) (fun _ => []) Sample.embed_ragged in
  let self := Sample.agent (default_config Sample.template false)
                (Some db) (Some []) in
  let msg := ("matmul: Input operand 1 has a mismatch in its core dimension 0, "
              ++ "with gufunc signature (n?,k),(k,m?)->(n?,m?) "
              ++ "(size 2 is different from 1)")%string in
  vecdb self = Some db
  /\ rerank_with_diversity self Sample.passages3 Sample.fresh
     = (inl (ValueError msg), Sample.fresh)
  /\ rerank_with_diversity self
       [Sample.doc "a" "alpha"; Sample.doc "c" "gamma"] Sample.fresh
     = (inr [Sample.doc "a" "alpha"; Sample.doc "c" "gamma"], Sample.fresh)
  /\ exists msg',
       rerank_with_diversity self
         [Sample.doc "a" "alpha"; Sample.doc "b" "alpha again"] Sample.fresh
       = (inl (ValueError msg'), Sample.fresh).
Proof.
  cbv zeta.
  set (db := Sample.store (F := float) (fun _ => []) Sample.embed_ragged).
  set (self := Sample.agent (default_config Sample.template false)
                 (Some db) (Some [])).
  split; [reflexivity|]. split; [vm_compute; reflexivity|].
  split.
  - exact (proj1 (proj2 (proj1 (proj2 (proj2
             (rerank_with_diversity_short float float_ops self
                (Sample.doc "a" "alpha") (Sample.doc "c" "gamma")
                Sample.fresh))) db eq_refl)) eq_refl).
  - exact (proj2 (proj2 (proj1 (proj2 (proj2
             (rerank_with_diversity_short float float_ops self
                (Sample.doc "a" "alpha") (Sample.doc "b" "alpha again")
                Sample.fresh))) db eq_refl)) ltac:(discriminate)).
Defined.

(** ** The order of the de-duplicated passages *)







(** ** What retrieval leaves of the conversation *)

Lemma keeps_ret {A : Type} (a : A) : keeps_attributes (ret a).
Proof. intro s. now split. Qed.

Lemma keeps_raise {A : Type} (e : exn) : keeps_attributes (raise (A := A) e).
Proof. intro s. now split. Qed.

Lemma keeps_emit (ev : event) : keeps_attributes (emit ev).
Proof. intro s. now split. Qed.

Lemma keeps_get_dialog : keeps_attributes get_dialog.
Proof. intro s. now split. Qed.

Lemma keeps_bind {A B : Type} (m : M A) (k : A -> M B) :
  keeps_attributes m -> (forall a, keeps_attributes (k a)) ->
  keeps_attributes (bind m k).
Proof.
  intros Hm Hk s. unfold bind. destruct (Hm s) as [Hd Hr].
  destruct (m s) as [[e|a] s1]; simpl in Hd, Hr.
  - now split.
  - destruct (Hk a s1) as [Hd' Hr']. rewrite Hd', Hr'. now split.
Qed.

Ltac keeps_step :=
  match goal with
  | |- keeps_attributes (bind _ _) => apply keeps_bind; [|intro]
  | |- keeps_attributes (ret _) => apply keeps_ret
  | |- keeps_attributes (raise _) => apply keeps_raise
  | |- keeps_attributes (warning _) => apply keeps_emit
  | |- keeps_attributes get_dialog => apply keeps_get_dialog
  | |- keeps_attributes (emit _) => apply keeps_emit
  | |- keeps_attributes (if ?b then _ else _) => destruct b
  | |- keeps_attributes (match ?x with _ => _ end) => destruct x
  end.

Section Frame.
Context {F : Type} `{FloatOps F} `{FloatExp F}.
Variable imp : Imports F.
Variable self : Agent F.

Lemma semantic_hits_keeps (qs : list string) (k : Z)
  (acc : list (Document * F)) :
  keeps_attributes (semantic_hits self qs k acc).
Proof.
  revert acc. induction qs as [|q rest IH]; intro acc; simpl.
  - apply keeps_ret.
  - apply keeps_bind; [|intro hits; apply IH].
    unfold get_semantic_search_results. repeat keeps_step.
Qed.

Lemma get_relevant_chunks_keeps (query : string) (proxies : list string) :
  keeps_attributes (get_relevant_chunks imp self query proxies).
Proof.
  unfold get_relevant_chunks.
  destruct (vecdb self) as [db|] eqn:Hdb; [|apply keeps_raise].
  apply keeps_bind; [apply semantic_hits_keeps | intro hits].
  apply keeps_bind; [|intro ps1].
  { destruct (use_bm25_search (config self)); [|apply keeps_ret].
    unfold get_similar_chunks_bm25. repeat keeps_step. }
  apply keeps_bind; [|intro ps2].
  { destruct (use_fuzzy_match (config self)); [|apply keeps_ret].
    unfold get_fuzzy_matches. repeat keeps_step. }
  destruct (List.length _ =? 0); [apply keeps_ret|].
  unfold expand_and_rerank.
  apply keeps_bind; [|intro ps3].
  { destruct (negb _); [|apply keeps_ret].
    unfold rerank_with_cross_encoder. repeat keeps_step. }
  apply keeps_bind; [|intro ps4; apply keeps_ret].
  destruct (rerank_diversity (config self)); [|apply keeps_ret].
  unfold rerank_with_diversity. rewrite Hdb. repeat keeps_step.
Qed.

Lemma extraction_events_keeps (inputs : list string) :
  keeps_attributes
    (fold_right (fun msg k => emit (LLMCall Extraction msg) ;;; k)
                (ret tt) inputs).
Proof.
  induction inputs as [|msg rest IH]; simpl.
  - apply keeps_ret.
  - apply keeps_bind; [apply keeps_emit | intros _; exact IH].
Qed.

Lemma get_verbatim_extracts_keeps (query : string) (passages : list Document) :
  keeps_attributes (get_verbatim_extracts imp self query passages).
Proof.
  unfold get_verbatim_extracts.
  destruct (relevance_extractor_config (config self)); [|apply keeps_ret].
  apply keeps_bind; [apply extraction_events_keeps|].
  intro; apply keeps_ret.
Qed.

Lemma get_relevant_extracts_keeps (query : string) :
  keeps_attributes (get_relevant_extracts imp self query).
Proof.
  unfold get_relevant_extracts.
  apply keeps_bind; [apply keeps_get_dialog | intro dlg].
  apply keeps_bind; [repeat keeps_step | intro q].
  apply keeps_bind; [|intro proxies].
  { destruct (hypothetical_answer (config self)); [|apply keeps_ret].
    unfold llm_hypothetical_answer. repeat keeps_step. }
  apply keeps_bind; [|intro proxies'].
  { destruct (0 <? n_query_rephrases (config self))%Z; [|apply keeps_ret].
    unfold llm_rephrase_query. repeat keeps_step. }
  apply keeps_bind; [apply get_relevant_chunks_keeps | intro passages].
  destruct (List.length passages =? 0); [apply keeps_ret|].
  destruct (llm self); [|apply keeps_raise].
  apply keeps_bind; [apply get_verbatim_extracts_keeps|].
  intro; apply keeps_ret.
Qed.

End Frame.

(** ** Retrieval that finds nothing *)

Lemma concat_map_nil {A B : Type} (f : A -> list B) (l : list A) :
  (forall a, f a = []) -> List.concat (map f l) = [].
Proof.
  intro Hf. induction l as [|a l IH]; simpl; [reflexivity|].
  now rewrite Hf, IH.
Qed.

Lemma get_similar_chunks_bm25_nothing {F : Type} (imp : Imports F)
  (self : Agent F) (query : string) (multiple : Z) (s : State) :
  (forall docs clean q n, find_closest_matches_with_bm25 imp docs clean q n = []) ->
  exists s', get_similar_chunks_bm25 imp self query multiple s = (inr [], s').
Proof.
  intro Hbm. unfold get_similar_chunks_bm25.
  destruct (chunked_docs self) as [docs|]; [|eexists; reflexivity].
  destruct (List.length docs =? 0); [eexists; reflexivity|].
  destruct (chunked_docs_clean self) as [clean|]; [|eexists; reflexivity].
  destruct (List.length clean =? 0); [eexists; reflexivity|].
  rewrite Hbm. eexists; reflexivity.
Qed.

Lemma get_fuzzy_matches_nothing {F : Type} (imp : Imports F)
  (self : Agent F) (query : string) (multiple : Z) (s : State) :
  (forall q docs clean n a b,
      find_fuzzy_matches_in_docs imp q docs clean n a b = []) ->
  exists s', get_fuzzy_matches imp self query multiple s = (inr [], s').
Proof.
  intro Hfz. unfold get_fuzzy_matches.
  destruct (chunked_docs self) as [docs|]; [|eexists; reflexivity].
  destruct (chunked_docs_clean self) as [clean|]; [|eexists; reflexivity].
  rewrite Hfz. eexists; reflexivity.
Qed.

(** X5. When the semantic search, the bm25 search and the fuzzy search
    find nothing, [get_relevant_chunks] returns the empty list and
    leaves the dialog and the saved response alone. No reranker is
    reached: there is no [ImportError] when the cross-encoder cannot be
    loaded and no [IndexError] from the diversity reranker, whatever the
    configuration. *)
Theorem get_relevant_chunks_nothing_found :
  forall (F : Type) (ops : FloatOps F) (ex : FloatExp F)
         (imp : Imports F) (self : Agent F) (db : VectorStore F)
         (query : string) (query_proxies : list string) (s : State),
    vecdb self = Some db ->
    (forall q k f, similar_texts_with_scores db q k f = []) ->
    (forall docs clean q n,
        find_closest_matches_with_bm25 imp docs clean q n = []) ->
    (forall q docs clean n a b,
        find_fuzzy_matches_in_docs imp q docs clean n a b = []) ->
    exists s',
      get_relevant_chunks imp self query query_proxies s = (inr [], s')
      /\ dialog s' = dialog s /\ response s' = response s.
Proof.
  intros F ops ex imp self db query proxies s Hdb Hsem Hbm Hfz.
  assert (Hrun : exists s',
             get_relevant_chunks imp self query proxies s = (inr [], s')).
  { unfold get_relevant_chunks. rewrite Hdb.
    erewrite bind_inr by (apply semantic_hits_run; exact Hdb).
    rewrite concat_map_nil by (intro q; apply Hsem).
    change (map fst (Py.values (id2doc_score imp ([] ++ []))))
      with (@nil Document).
    destruct (use_bm25_search (config self)), (use_fuzzy_match (config self)).
    - destruct (get_similar_chunks_bm25_nothing imp self query
                  (if String.eqb (cross_encoder_reranking_model (config self)) ""
                   then 1%Z else 3%Z) s Hbm) as [s1 H1].
      destruct (get_fuzzy_matches_nothing imp self query
                  (if String.eqb (cross_encoder_reranking_model (config self)) ""
                   then 1%Z else 3%Z) s1 Hfz) as [s2 H2].
      exists s2. erewrite bind_inr; [|erewrite bind_inr by exact H1; reflexivity].
      erewrite bind_inr; [|erewrite bind_inr by exact H2; reflexivity].
      reflexivity.
    - destruct (get_similar_chunks_bm25_nothing imp self query
                  (if String.eqb (cross_encoder_reranking_model (config self)) ""
                   then 1%Z else 3%Z) s Hbm) as [s1 H1].
      exists s1. erewrite bind_inr; [|erewrite bind_inr by exact H1; reflexivity].
      reflexivity.
    - destruct (get_fuzzy_matches_nothing imp self query
                  (if String.eqb (cross_encoder_reranking_model (config self)) ""
                   then 1%Z else 3%Z) s Hfz) as [s2 H2].
      exists s2. rewrite bind_ret_l.
      erewrite bind_inr; [|erewrite bind_inr by exact H2; reflexivity].
      reflexivity.
    - exists s. reflexivity. }
  destruct Hrun as [s' Hrun]. exists s'. split; [exact Hrun|].
  pose proof (get_relevant_chunks_keeps imp self query proxies s) as Hk.
  rewrite Hrun in Hk. exact Hk.
Qed.

Lemma get_relevant_chunks_nothing_found_witness :
  let db := Sample.store (F := R) (fun _ => []) (fun _ => []) in
  let imp := Sample.imports (F := R) None "unused" in
  let self := Sample.agent (default_config Sample.template true)
                (Some db) (Some []) in
  CrossEncoder imp (cross_encoder_reranking_model (config self)) = None
  /\ rerank_diversity (config self) = true
  /\ exists s',
       get_relevant_chunks imp self "query" [] Sample.fresh = (inr [], s').
Proof.
  intros db imp self. split; [reflexivity|]. split; [reflexivity|].
  destruct (get_relevant_chunks_nothing_found R R_ops R_exp imp self db
              "query" [] Sample.fresh eq_refl
              (fun _ _ _ => eq_refl) (fun _ _ _ _ => eq_refl)
              (fun _ _ _ _ _ _ => eq_refl)) as [s' [Hrun _]].
  exists s'. exact Hrun.
Defined.

(** ** The cross-encoder on any float type *)

(** X6. When the cross-encoder loads, [rerank_with_cross_encoder]
    raises nothing, changes nothing of the agent, and returns some of
    the passages it was given, each as often as it was given: with
    [n = n_similar_docs >= 0] it returns [min(n, len(passages))] of
    them, and with a negative [n] all but [-n] of them (none when there
    are not that many). This holds for every float type, whatever the
    order on the scores is. *)
Theorem rerank_with_cross_encoder_count :
  forall (F : Type) (ops : FloatOps F) (ex : FloatExp F)
         (imp : Imports F) (self : Agent F) (model : CrossEncoderModel F)
         (query : string) (passages : list Document) (s : State),
    CrossEncoder imp (cross_encoder_reranking_model (config self))
    = Some model ->
    exists out dropped : list Document,
      rerank_with_cross_encoder imp self query passages s = (inr out, s)
      /\ Permutation (out ++ dropped) passages
      /\ List.length out
         = if (0 <=? n_similar_docs (config self))%Z
           then Nat.min (Z.to_nat (n_similar_docs (config self)))
                        (List.length passages)
           else List.length passages
                - Z.to_nat (- n_similar_docs (config self)).
Proof.
  intros F ops ex imp self model query passages s Hm.
  unfold rerank_with_cross_encoder. rewrite Hm.
  set (scores := map logistic
                   (predict model (map (fun p => (query, content p)) passages))).
  set (sp := Py.sorted_reverse fst f_ltb (combine scores passages)).
  assert (Hlen : List.length scores = List.length passages).
  { unfold scores. now rewrite length_map, predict_length, length_map. }
  assert (Hsp : Permutation (map snd sp) passages).
  { eapply Permutation_trans;
      [apply Permutation_map, sorted_reverse_perm|].
    now rewrite (map_snd_combine scores passages Hlen). }
  assert (Hsplen : List.length sp = List.length passages).
  { rewrite <- (length_map snd sp). now apply Permutation_length. }
  set (m := if (0 <=? n_similar_docs (config self))%Z
            then Z.to_nat (n_similar_docs (config self))
            else List.length sp - Z.to_nat (- n_similar_docs (config self))).
  assert (Hslice : Py.slice_to (n_similar_docs (config self)) sp = firstn m sp).
  { unfold Py.slice_to, m.
    now destruct (0 <=? n_similar_docs (config self))%Z. }
  exists (map snd (firstn m sp)), (map snd (skipn m sp)).
  split; [now rewrite Hslice|]. split.
  - rewrite <- map_app, firstn_skipn. exact Hsp.
  - rewrite length_map, length_firstn, Hsplen. unfold m.
    destruct (0 <=? n_similar_docs (config self))%Z; [reflexivity|].
    rewrite Hsplen. lia.
Qed.

Lemma rerank_with_cross_encoder_count_witness :
  let model := Sample.encoder (fun _ p => INR (String.length p)) in
  let imp := Sample.imports (Some model) "unused" in
  let self := Sample.agent (default_config Sample.template true) None (Some []) in
  CrossEncoder imp (cross_encoder_reranking_model (config self)) = Some model
  /\ exists out dropped : list Document,
       rerank_with_cross_encoder imp self "query" Sample.passages3 Sample.fresh
       = (inr out, Sample.fresh)
       /\ Permutation (out ++ dropped) Sample.passages3
       /\ List.length out = 3.
Proof.
  intros model imp self. split; [reflexivity|].
  destruct (rerank_with_cross_encoder_count R R_ops R_exp
              imp self model "query" Sample.passages3 Sample.fresh eq_refl)
    as [out [dropped [Hrun [Hp Hl]]]].
  exists out, dropped. split; [exact Hrun|]. split; [exact Hp|exact Hl].
Defined.

(** ** What the extracts are *)

Section Extracts.
Context {F : Type} `{FloatOps F} `{FloatExp F}.
Variable imp : Imports F.
Variable self : Agent F.

(** Every document [get_verbatim_extracts] returns is one of the
    passages, or one of them with another content, which is then
    neither empty nor [NO_ANSWER]. *)
Lemma get_verbatim_extracts_sound (query : string)
  (passages out : list Document) (s s' : State) :
  get_verbatim_extracts imp self query passages s = (inr out, s') ->
  Forall (fun e =>
            exists p, In p passages
                      /\ metadata e = metadata p
                      /\ extra_fields e = extra_fields p
                      /\ (relevance_extractor_config (config self) <> None ->
                          content e <> NO_ANSWER imp
                          /\ content e <> ""%string)) out.
Proof.
  unfold get_verbatim_extracts.
  destruct (relevance_extractor_config (config self)) as [agent_cfg|].
  - intro Hrun. apply bind_inr_inv in Hrun.
    destruct Hrun as [[] [s1 [_ Hret]]]. injection Hret as <- _.
    rewrite passage_extracts_filter. apply Forall_forall. intros e He.
    apply in_map_iff in He. destruct He as [[p x] [<- Hin]].
    apply filter_In in Hin. destruct Hin as [Hin Hsv].
    exists p. split; [eapply in_combine_l; exact Hin|].
    split; [reflexivity|]. split; [reflexivity|]. intros _.
    unfold survives in Hsv. simpl in Hsv |- *.
    apply negb_true_iff, orb_false_iff in Hsv. destruct Hsv as [Hna Hlen].
    split.
    + intros ->. now rewrite String.eqb_refl in Hna.
    + intros ->. discriminate.
  - intro Hrun. injection Hrun as <- _. apply Forall_forall. intros e He.
    exists e. repeat split; [exact He | congruence | congruence].
Qed.

End Extracts.

(** What a run of [get_relevant_extracts] that returns tells about its
    result. *)
Lemma get_relevant_extracts_facts :
  forall (F : Type) (ops : FloatOps F) (ex : FloatExp F)
         (imp : Imports F) (self : Agent F)
         (query query' : string) (extracts : list Document) (s s' : State),
    get_relevant_extracts imp self query s = (inr (query', extracts), s') ->
    Forall (fun e => content e <> NO_ANSWER imp) extracts
    /\ (relevance_extractor_config (config self) <> None ->
        Forall (fun e => content e <> ""%string) extracts)
    /\ (exists proxies passages s1 s2,
           get_relevant_chunks imp self query' proxies s1 = (inr passages, s2)
           /\ Forall (fun e => exists p, In p passages
                                         /\ metadata e = metadata p
                                         /\ extra_fields e = extra_fields p)
                     extracts)
    /\ (dialog s = [] \/ assistant_mode (config self) = true -> query' = query)
    /\ dialog s' = dialog s
    /\ response s' = response s.
Proof.
  intros F ops ex imp self query query' extracts s s' Hrun.
  pose proof (get_relevant_extracts_keeps imp self query s) as Hk.
  rewrite Hrun in Hk. simpl in Hk.
  unfold get_relevant_extracts in Hrun.
  apply bind_inr_inv in Hrun. destruct Hrun as [dlg [s0 [Hd Hrun]]].
  unfold get_dialog in Hd. injection Hd as <- <-.
  apply bind_inr_inv in Hrun. destruct Hrun as [q [s1 [Hq Hrun]]].
  apply bind_inr_inv in Hrun. destruct Hrun as [px [s2 [_ Hrun]]].
  apply bind_inr_inv in Hrun. destruct Hrun as [px' [s3 [_ Hrun]]].
  apply bind_inr_inv in Hrun. destruct Hrun as [passages [s4 [Hch Hrun]]].
  assert (Hquery : dialog s = [] \/ assistant_mode (config self) = true ->
                   q = query).
  { intros [Hd|Ha].
    - rewrite Hd in Hq. simpl in Hq. now injection Hq as <- _.
    - rewrite Ha, andb_false_r in Hq. now injection Hq as <- _. }
  destruct (List.length passages =? 0).
  - injection Hrun as <- <- _.
    split; [constructor|]. split; [constructor|].
    split; [|split; [exact Hquery | exact Hk]].
    exists px', passages, s3, s4. split; [exact Hch | constructor].
  - destruct (llm self); [|discriminate].
    apply bind_inr_inv in Hrun. destruct Hrun as [out [s5 [Hv Hret]]].
    injection Hret as <- <- _.
    pose proof (get_verbatim_extracts_sound imp self q passages out s4 s5 Hv)
      as Hout.
    rewrite Forall_forall in Hout.
    split; [|split; [|split; [|split; [exact Hquery | exact Hk]]]].
    + apply Forall_forall. intros e He. apply filter_In in He.
      destruct He as [_ Hne]. apply negb_true_iff in Hne.
      intros E. rewrite E, String.eqb_refl in Hne. discriminate.
    + intro Hcfg. apply Forall_forall. intros e He. apply filter_In in He.
      destruct He as [He _]. destruct (Hout e He) as [p [_ [_ [_ Hc]]]].
      now apply Hc.
    + exists px', passages, s3, s4. split; [exact Hch|].
      apply Forall_forall. intros e He. apply filter_In in He.
      destruct He as [He _]. destruct (Hout e He) as [p [Hp [Hm [Hx _]]]].
      exists p. now repeat split.
Qed.

(** X7. Whenever [get_relevant_extracts] returns, none of the extracts
    has [NO_ANSWER] for its content and, with a relevance extractor
    configured, none is empty; every extract carries the metadata and
    the other fields of one of the passages that [get_relevant_chunks]
    returned for the query and its proxies. The query returned is the
    query given when the dialog is empty or the agent is in assistant
    mode, and the dialog and the saved response are as they were. *)
Theorem get_relevant_extracts_clean :
  forall (F : Type) (ops : FloatOps F) (ex : FloatExp F)
         (imp : Imports F) (self : Agent F)
         (query query' : string) (extracts : list Document) (s s' : State),
    get_relevant_extracts imp self query s = (inr (query', extracts), s') ->
    Forall (fun e => content e <> NO_ANSWER imp) extracts
    /\ (relevance_extractor_config (config self) <> None ->
        Forall (fun e => content e <> ""%string) extracts)
    /\ (exists proxies passages s1 s2,
           get_relevant_chunks imp self query' proxies s1 = (inr passages, s2)
           /\ Forall (fun e => exists p, In p passages
                                         /\ metadata e = metadata p
                                         /\ extra_fields e = extra_fields p)
                     extracts)
    /\ (dialog s = [] \/ assistant_mode (config self) = true -> query' = query)
    /\ dialog s' = dialog s
    /\ response s' = response s.
Proof.
  intros F ops ex imp self query query' extracts s s' Hrun.
  exact (get_relevant_extracts_facts F ops ex imp self query query' extracts
           s s' Hrun).
Qed.

Lemma get_relevant_extracts_clean_witness :
  let db := Sample.store Sample.hits (fun _ => []) in
  let imp := Sample.imports (F := R) None "unused" in
  let self := Sample.agent Sample.config_without_diversity (Some db) (Some []) in
  exists extracts s',
    get_relevant_extracts imp self "query" Sample.fresh
    = (inr ("query"%string, extracts), s')
    /\ extracts <> []
    /\ Forall (fun e => content e <> NO_ANSWER imp) extracts.
Proof.
  intros db imp self. eexists. eexists.
  split; [reflexivity|]. split; [discriminate|].
  exact (proj1 (get_relevant_extracts_clean R R_ops R_exp imp self
                  "query" "query" _ Sample.fresh _ eq_refl)).
Defined.

(** ** What an answer does to the conversation *)

(** What a run of [answer_from_docs] does to the dialog and the saved
    response, and what it returns in each case. *)
Lemma answer_from_docs_effects {F : Type} `{FloatOps F} `{FloatExp F}
  (imp : Imports F) (self : Agent F) (query : string) (s : State) :
  match answer_from_docs imp self query s with
  | (inl _, s') => dialog s' = dialog s /\ response s' = response s
  | (inr r, s') =>
      (dialog s' = dialog s /\ response s' = response s
       /\ (r = no_answer_response imp \/ retrieve_only (config self) = true))
      \/ (retrieve_only (config self) = false
          /\ response s' = Some r
          /\ cd_sender r = LLM
          /\ (exists sources, cd_source r = ("SOURCE: " ++ sources)%string)
          /\ exists query',
               dialog s' = dialog s ++ [(query', cd_content r)]
               /\ (dialog s = [] \/ assistant_mode (config self) = true ->
                   query' = query)
               /\ exists extracts s1,
                    get_relevant_extracts imp self query s
                    = (inr (query', extracts), s1))
  end.
Proof.
  unfold answer_from_docs.
  pose proof (get_relevant_extracts_keeps imp self query s) as Hk.
  unfold bind at 1.
  destruct (get_relevant_extracts imp self query s) as [[e|[q' extracts]] s1]
    eqn:Hx; simpl in Hk; [exact Hk|].
  destruct (List.length extracts =? 0).
  { left. destruct Hk as [Hd Hr]. split; [exact Hd|]. split; [exact Hr|].
    now left. }
  destruct (llm self) as [lm|]; [|exact Hk].
  destruct (retrieve_only (config self)) eqn:Hro.
  - destruct extracts as [|e0 rest]; [exact Hk|].
    destruct (md_source (metadata e0)); [|exact Hk].
    destruct (sender_of (metadata e0)); [|exact Hk].
    destruct (cached_of (metadata e0)); [|exact Hk].
    left. destruct Hk as [Hd Hr]. split; [exact Hd|]. split; [exact Hr|].
    now right.
  - unfold get_summary_answer.
    destruct (parse_final_answer _) as [c src]. simpl.
    right. split; [reflexivity|]. split; [reflexivity|].
    split; [reflexivity|]. split; [now exists src|].
    exists q'. destruct Hk as [Hd Hr]. rewrite Hd. split; [reflexivity|].
    destruct (get_relevant_extracts_facts F _ _ imp self query q' extracts
                s s1 Hx) as [_ [_ [_ [Hq _]]]].
    split; [exact Hq|]. now exists extracts, s1.
Qed.

(** X8. [answer_from_docs] touches the dialog and the saved response
    only when it returns a synthesised answer: then the dialog has
    grown by exactly one pair, the query as [get_relevant_extracts]
    returned it (the query itself when the dialog was empty or the
    agent is in assistant mode) with the content of the answer, and the
    answer is the saved response. When it raises, when it returns the
    [NO_ANSWER] document, and in [retrieve_only] mode, the dialog and
    the saved response are as they were. *)
Theorem answer_from_docs_conversation :
  forall (F : Type) (ops : FloatOps F) (ex : FloatExp F)
         (imp : Imports F) (self : Agent F) (query : string) (s : State),
    match answer_from_docs imp self query s with
    | (inl _, s') => dialog s' = dialog s /\ response s' = response s
    | (inr r, s') =>
        (dialog s' = dialog s /\ response s' = response s
         /\ (r = no_answer_response imp \/ retrieve_only (config self) = true))
        \/ (retrieve_only (config self) = false
            /\ response s' = Some r
            /\ exists query',
                 dialog s' = dialog s ++ [(query', cd_content r)]
                 /\ (dialog s = [] \/ assistant_mode (config self) = true ->
                     query' = query))
    end.
Proof.
  intros F ops ex imp self query s.
  pose proof (answer_from_docs_effects imp self query s) as He.
  destruct (answer_from_docs imp self query s) as [[e|r] s']; [exact He|].
  destruct He as [Hl|[Hro [Hr [_ [_ [q' [Hd [Hq _]]]]]]]]; [now left | right].
  split; [exact Hro|]. split; [exact Hr|]. now exists q'.
Qed.

Lemma answer_from_docs_retrieve_only_no_summary {F : Type} `{FloatOps F}
  `{FloatExp F} (imp : Imports F) (self : Agent F) (query : string) :
  retrieve_only (config self) = true ->
  adds_only not_summary (answer_from_docs imp self query).
Proof.
  intro Hro. unfold answer_from_docs.
  apply adds_only_bind; [apply get_relevant_extracts_no_summary|].
  intros [q' extracts]. rewrite Hro. repeat adds_only_step.
Qed.

(** X9. In [retrieve_only] mode [answer_from_docs] never makes the LLM
    call that synthesises an answer, and the state it leaves is the one
    [get_relevant_extracts] left. With no extracts it returns the
    [NO_ANSWER] document; otherwise the extracts of the run themselves:
    their contents, none of them [NO_ANSWER], joined by blank lines,
    with the metadata of the first extract: its source, and its
    [sender] and [cached] fields where it has them ([Entity.LLM] and
    [False] where it has not). An LLM has to be set even so. *)
Theorem answer_from_docs_retrieve_only :
  forall (F : Type) (ops : FloatOps F) (ex : FloatExp F)
         (imp : Imports F) (self : Agent F) (query : string)
         (r : ChatDocument) (s s' : State),
    retrieve_only (config self) = true ->
    answer_from_docs imp self query s = (inr r, s') ->
    Forall not_summary (emitted (answer_from_docs imp self query) s)
    /\ exists (query' : string) (extracts : list Document),
         get_relevant_extracts imp self query s = (inr (query', extracts), s')
         /\ Forall (fun e => content e <> NO_ANSWER imp) extracts
         /\ match extracts with
            | [] => r = no_answer_response imp
            | e0 :: _ =>
                cd_content r
                = Py.join (Py.nl ++ Py.nl) (map content extracts)
                /\ md_source (metadata e0) = Some (cd_source r)
                /\ sender_of (metadata e0) = Some (cd_sender r)
                /\ cached_of (metadata e0) = Some (cd_cached r)
                /\ llm self <> None
            end.
Proof.
  intros F ops ex imp self query r s s' Hro Hrun.
  split.
  { apply emitted_adds_only.
    now apply answer_from_docs_retrieve_only_no_summary. }
  unfold answer_from_docs in Hrun.
  apply bind_inr_inv in Hrun. destruct Hrun as [[q' extracts] [s1 [Hx Hrun]]].
  destruct (get_relevant_extracts_facts F ops ex imp self query q' extracts
              s s1 Hx) as [Hna _].
  exists q', extracts.
  destruct extracts as [|e0 rest].
  { injection Hrun as <- <-. now repeat split. }
  change (List.length (e0 :: rest) =? 0) with false in Hrun. cbv iota in Hrun.
  destruct (llm self) as [lm|]; [|discriminate].
  rewrite Hro in Hrun.
  destruct (md_source (metadata e0)) as [src|] eqn:Hsrc; [|discriminate].
  destruct (sender_of (metadata e0)) as [sender|] eqn:Hsender;
    [|discriminate].
  destruct (cached_of (metadata e0)) as [cached|] eqn:Hcached;
    [|discriminate].
  injection Hrun as <- <-.
  split; [exact Hx|]. split; [exact Hna|]. repeat split. discriminate.
Qed.

(** Three hits without such fields: the answer has the source of the
    first extract and the default sender. One hit whose metadata has
    [sender = "User"] and [cached = "yes"]: the answer is the user's,
    and cached. *)
Lemma answer_from_docs_retrieve_only_witness :
  let db := Sample.store Sample.hits (fun _ => []) in
  let imp := Sample.imports (F := R) None "unused" in
  let self := Sample.agent Sample.config_retrieve_only (Some db) (Some []) in
  let user_self :=
    Sample.agent Sample.config_retrieve_only
      (Some (Sample.store Sample.user_hits (fun _ => []))) (Some []) in
  exists r s' extracts,
    retrieve_only (config self) = true
    /\ answer_from_docs imp self "query" Sample.fresh = (inr r, s')
    /\ get_relevant_extracts imp self "query" Sample.fresh
       = (inr ("query"%string, extracts), s')
    /\ map (fun e => md_id (metadata e)) extracts = ["1"; "2"]%string
    /\ cd_source r = "src-1"%string
    /\ cd_sender r = LLM
    /\ cd_cached r = false
    /\ Forall not_summary (emitted (answer_from_docs imp self "query")
                                   Sample.fresh)
    /\ fst (answer_from_docs imp user_self "query" Sample.fresh)
       = inr {| cd_content := "alpha"; cd_source := "src-1";
                cd_sender := USER; cd_cached := true |}.
Proof.
  intros db imp self user_self. eexists. eexists. eexists.
  split; [reflexivity|]. split; [reflexivity|]. split; [reflexivity|].
  split; [reflexivity|]. split; [reflexivity|]. split; [reflexivity|].
  split; [reflexivity|]. split; [|reflexivity].
  exact (proj1 (answer_from_docs_retrieve_only R R_ops R_exp imp self
                  "query" _ Sample.fresh _ eq_refl eq_refl)).
Defined.

(** ** The shape of a synthesised answer *)


(** ** Splitting the rephrased queries *)

Lemma split_upto_nonempty (n : nat) (sep s : string) :
  Py.split_upto n sep s <> [].
Proof.
  destruct n; simpl; [discriminate|].
  destruct (Py.partition_first sep s) as [[b a]|]; discriminate.
Qed.

Lemma join_cons (sep p : string) (rest : list string) :
  rest <> [] -> Py.join sep (p :: rest) = (p ++ sep ++ Py.join sep rest)%string.
Proof. destruct rest; [congruence | reflexivity]. Qed.

Lemma split_upto_join (n : nat) (sep : string) :
  forall s, Py.join sep (Py.split_upto n sep s) = s.
Proof.
  induction n as [|n IH]; intro s; [reflexivity|].
  simpl Py.split_upto.
  destruct (Py.partition_first sep s) as [[b a]|] eqn:Hp; [|reflexivity].
  rewrite join_cons by apply split_upto_nonempty.
  rewrite IH. symmetry. now apply partition_first_sound.
Qed.

Lemma length_append (a b : string) :
  String.length (a ++ b) = String.length a + String.length b.
Proof. induction a as [|c a IH]; simpl; [reflexivity | now rewrite IH]. Qed.

(** With enough passes for the length of [s], no piece of the split
    holds the separator. *)
Lemma split_upto_pieces (n : nat) (sep : string) :
  sep <> EmptyString ->
  forall s, String.length s <= n ->
            Forall (fun piece => ~ occurs_in sep piece)
                   (Py.split_upto n sep s).
Proof.
  intro Hsep.
  assert (Hpos : 0 < String.length sep) by (destruct sep; simpl; [congruence|lia]).
  induction n as [|n IH]; intros s Hlen.
  - simpl. constructor; [|constructor]. intros [b [a E]].
    apply (f_equal String.length) in E. rewrite !length_append in E. lia.
  - simpl. destruct (Py.partition_first sep s) as [[b a]|] eqn:Hp.
    + constructor.
      * intros [b' [a' E]].
        pose proof (partition_first_sound _ _ _ _ Hp) as Hs.
        pose proof (partition_first_least _ _ _ _ Hp b'
                      (a' ++ sep ++ a)%string) as Hle.
        rewrite Hs, E, !append_assoc in Hle. specialize (Hle eq_refl).
        rewrite !length_append in Hle. lia.
      * apply IH. pose proof (partition_first_sound _ _ _ _ Hp) as Hs.
        apply (f_equal String.length) in Hs. rewrite !length_append in Hs. lia.
    + constructor; [|constructor]. intros [b [a E]].
      exact (partition_first_none _ _ Hp b a E).
Qed.

(** X11. With an LLM set, [llm_rephrase_query] makes one LLM call and
    returns the pieces of the reply between blank lines: joined by
    ["\n\n"] they give the reply back, none of them holds ["\n\n"], and
    there is always at least one, so an empty reply gives the one
    rephrasing [""]. Without an LLM it raises [ValueError]. *)
Theorem llm_rephrase_query_pieces :
  forall (F : Type) (imp : Imports F) (self : Agent F) (query : string)
         (s : State),
    match llm self with
    | None =>
        llm_rephrase_query imp self query s
        = (inl (ValueError "LLM not set"), s)
    | Some _ =>
        exists (prompt : string) (rephrases : list string),
          llm_rephrase_query imp self query s
          = (inr rephrases, logged (LLMCall Rephrase prompt) s)
          /\ Py.join (Py.nl ++ Py.nl) rephrases
             = cd_content (llm_response_forget imp prompt)
          /\ Forall (fun q => ~ occurs_in (Py.nl ++ Py.nl) q) rephrases
          /\ rephrases <> []
          /\ (cd_content (llm_response_forget imp prompt) = ""%string ->
              rephrases = [""%string])
    end.
Proof.
  intros F imp self query s. unfold llm_rephrase_query.
  destruct (llm self) as [lm|]; [|reflexivity].
  eexists. eexists. split; [reflexivity|]. split; [|split; [|split]].
  - apply split_upto_join.
  - apply split_upto_pieces; [discriminate | apply Nat.le_refl].
  - apply split_upto_nonempty.
  - intros ->. reflexivity.
Qed.

(** ** What the prompt shows of the extracts *)

Lemma occurs_in_append (x a b c : string) :
  occurs_in x b -> occurs_in x (a ++ b ++ c).
Proof.
  intros [b1 [b2 ->]]. exists (a ++ b1)%string, (b2 ++ c)%string.
  now rewrite !append_assoc.
Qed.

Lemma append_nil_r (a : string) : (a ++ "")%string = a.
Proof. induction a as [|c a IH]; simpl; [reflexivity | now rewrite IH]. Qed.

Lemma occurs_in_join (sep x : string) (parts : list string) :
  Exists (occurs_in x) parts -> occurs_in x (Py.join sep parts).
Proof.
  induction parts as [|p rest IH]; intro Hex; [inversion Hex|].
  destruct rest as [|p' rest].
  - inversion Hex as [? ? Hp|? ? Hr]; subst; [exact Hp | inversion Hr].
  - change (Py.join sep (p :: p' :: rest))
      with (p ++ sep ++ Py.join sep (p' :: rest))%string.
    inversion Hex as [? ? Hp|? ? Hr]; subst.
    + rewrite <- (append_nil_r p) at 1.
      change (occurs_in x ("" ++ (p ++ "") ++ sep ++ Py.join sep (p' :: rest))).
      rewrite append_nil_r. apply (occurs_in_append x "" p _ Hp).
    + rewrite <- (append_nil_r (Py.join sep (p' :: rest))).
      rewrite <- append_assoc.
      apply (occurs_in_append x (p ++ sep) _ ""). now apply IH.
Qed.

Lemma doc_string_blocks (docs : list Document) :
  doc_string docs
  = Py.join Py.nl
      (map (fun d =>
              (Py.nl ++ "                " ++ ("Extract: " ++ content d) ++
               Py.nl ++ "                " ++
               match md_source (metadata d) with
               | Some s => "Source: " ++ s
               | None => ""
               end ++
               Py.nl ++ "                ")%string) docs).
Proof.
  unfold doc_string. f_equal.
  induction docs as [|d docs IH]; [reflexivity|].
  cbn [map combine]. rewrite IH. reflexivity.
Qed.

(** X12. The text [doc_string] builds for the prompt shows every
    document it is given: ["Extract: "] followed by the content of the
    document occurs in it, and so does ["Source: "] followed by its
    source when it has one. Of no documents it is the empty string. *)
Theorem doc_string_shows :
  forall (docs : list Document) (d : Document),
    doc_string [] = ""%string
    /\ (In d docs ->
        occurs_in ("Extract: " ++ content d) (doc_string docs)
        /\ forall src, md_source (metadata d) = Some src ->
                       occurs_in ("Source: " ++ src) (doc_string docs)).
Proof.
  intros docs d. split; [reflexivity|]. intro Hin.
  rewrite doc_string_blocks. split.
  - apply occurs_in_join, Exists_exists. eexists.
    split; [apply in_map; exact Hin|].
    exists (Py.nl ++ "                ")%string. eexists.
    rewrite !append_assoc. reflexivity.
  - intros src Hsrc. apply occurs_in_join, Exists_exists. eexists.
    split; [apply in_map; exact Hin|]. cbv beta. rewrite Hsrc.
    exists (Py.nl ++ "                " ++ ("Extract: " ++ content d) ++
            Py.nl ++ "                ")%string. eexists.
    rewrite !append_assoc. reflexivity.
Qed.

Lemma doc_string_shows_witness :
  occurs_in "Extract: alpha" (doc_string Sample.passages3)
  /\ occurs_in "Source: src-c" (doc_string Sample.passages3).
Proof.
  destruct (doc_string_shows Sample.passages3 (Sample.doc "a" "alpha"))
    as [_ Ha].
  destruct (doc_string_shows Sample.passages3 (Sample.doc "c" "gamma"))
    as [_ Hc].
  split.
  - exact (proj1 (Ha (or_introl eq_refl))).
  - exact (proj2 (Hc (or_intror (or_intror (or_introl eq_refl)))) _ eq_refl).
Defined.

(** ** The corpus after [clear] and [setup_documents] *)

(** X13. Without a vector store [clear] raises [ValueError] (and has
    assigned nothing). With one it never raises, whatever the deletion
    of the collection does: the original documents and both lists of
    chunks are empty afterwards and a vector store is still set, so
    that on the cleared agent the bm25 search logs its warning and
    finds nothing, while the semantic search still reaches the store.
    The dialog and the saved response are not cleared. *)
Theorem clear_empties :
  forall (F : Type) (cimp : CorpusImports F) (imp : Imports F)
         (cfg : Config) (lm : option LanguageModel) (c : Corpus F) (s : State),
    match c_vecdb c with
    | None => clear cimp c s = (inl (ValueError "VecDB not set"), s)
    | Some _ =>
        exists c' s',
          clear cimp c s = (inr c', s')
          /\ c_original_docs c' = []
          /\ c_chunked_docs c' = []
          /\ c_chunked_docs_clean c' = []
          /\ dialog s' = dialog s /\ response s' = response s
          /\ (forall query multiple s2,
                 get_similar_chunks_bm25 imp (agent_of cfg lm c') query
                   multiple s2
                 = (inr [],
                    logged (Warning "No chunked docs; cannot use bm25-similarity")
                           s2))
          /\ (exists db', forall query k s2,
                 get_semantic_search_results (agent_of cfg lm c') query k s2
                 = (inr (similar_texts_with_scores db' query k (filter cfg)), s2))
    end.
Proof.
  intros F cimp imp cfg lm c s. unfold clear.
  destruct (c_vecdb c) as [db|]; [|reflexivity].
  destruct (collection_name db) as [name|].
  - destruct (delete_collection cimp db name) as [db1 [e|]].
    + eexists. eexists. split; [reflexivity|].
      repeat split. exists (searchable db1). reflexivity.
    + destruct (VectorStore_create cimp db1) as [e|db2].
      * eexists. eexists. split; [reflexivity|].
        repeat split. exists (searchable db1). reflexivity.
      * eexists. eexists. split; [reflexivity|].
        repeat split. exists (searchable db2). reflexivity.
  - eexists. eexists. split; [reflexivity|].
    repeat split. exists (searchable db). reflexivity.
Qed.

Lemma clean_docs_aligned {F : Type} (cimp : CorpusImports F)
  (chunked : list Document) :
  List.length (clean_docs cimp chunked) = List.length chunked
  /\ map metadata (clean_docs cimp chunked) = map metadata chunked
  /\ map content (clean_docs cimp chunked)
     = map (preprocess_text cimp) (map content chunked)
  /\ Forall (fun d => extra_fields d = []) (clean_docs cimp chunked).
Proof.
  unfold clean_docs. rewrite length_map, !map_map.
  repeat split. apply Forall_forall. intros d Hd.
  apply in_map_iff in Hd. destruct Hd as [d' [<- _]]. reflexivity.
Qed.

Lemma setup_documents_inv {F : Type} (cimp : CorpusImports F)
  (docs : list Document) (flt : option string) (c c' : Corpus F)
  (s s' : State) :
  setup_documents cimp docs flt c s = (inr c', s') ->
  s' = s
  /\ c_vecdb c' = c_vecdb c
  /\ c_original_docs c' = c_original_docs c
  /\ c_chunked_docs_clean c' = clean_docs cimp (c_chunked_docs c')
  /\ ((flt = None /\ docs <> []
       /\ c_chunked_docs c' = c_chunked_docs c ++ docs)
      \/ ((flt <> None \/ docs = [])
          /\ exists db, c_vecdb c = Some db
                        /\ c_chunked_docs c'
                           = get_all_documents db (or_default flt ""))).
Proof.
  unfold setup_documents. intro Hrun.
  apply bind_inr_inv in Hrun. destruct Hrun as [chunked [s1 [Hch Hret]]].
  injection Hret as <- <-. simpl.
  destruct flt as [f|]; simpl in Hch.
  - destruct (c_vecdb c) as [db|]; [|discriminate].
    injection Hch as <- <-. repeat split. right.
    split; [left; discriminate|]. now exists db.
  - destruct docs as [|d docs]; simpl in Hch.
    + destruct (c_vecdb c) as [db|]; [|discriminate].
      injection Hch as <- <-. repeat split. right.
      split; [now right|]. now exists db.
    + injection Hch as <- <-. repeat split. left.
      split; [reflexivity|]. split; [discriminate | reflexivity].
Qed.

(** X14. After [setup_documents] has returned, the cleaned chunks are
    the chunks one for one: as many, with the same metadata at each
    position, each a plain [Document] whose content is the preprocessed
    content of its chunk. The bm25 search on the agent therefore either
    finds the corpus empty or hands the helper two lists of the same
    length; its warning about missing cleaned chunks cannot occur. The
    original documents, the vector store, the dialog, the saved
    response and the log are as they were. *)
Theorem setup_documents_aligned :
  forall (F : Type) (cimp : CorpusImports F) (imp : Imports F)
         (cfg : Config) (lm : option LanguageModel)
         (docs : list Document) (flt : option string) (c c' : Corpus F)
         (s s' : State),
    setup_documents cimp docs flt c s = (inr c', s') ->
    List.length (c_chunked_docs_clean c') = List.length (c_chunked_docs c')
    /\ map metadata (c_chunked_docs_clean c') = map metadata (c_chunked_docs c')
    /\ map content (c_chunked_docs_clean c')
       = map (preprocess_text cimp) (map content (c_chunked_docs c'))
    /\ Forall (fun d => extra_fields d = []) (c_chunked_docs_clean c')
    /\ c_original_docs c' = c_original_docs c
    /\ c_vecdb c' = c_vecdb c
    /\ s' = s
    /\ (forall query multiple s2,
           get_similar_chunks_bm25 imp (agent_of cfg lm c') query multiple s2
           = if List.length (c_chunked_docs c') =? 0
             then (inr [],
                   logged (Warning "No chunked docs; cannot use bm25-similarity")
                          s2)
             else (inr (find_closest_matches_with_bm25 imp
                          (c_chunked_docs c') (c_chunked_docs_clean c') query
                          (n_similar_docs cfg * multiple)%Z), s2)).
Proof.
  intros F cimp imp cfg lm docs flt c c' s s' Hrun.
  destruct (setup_documents_inv cimp docs flt c c' s s' Hrun)
    as [Hs [Hdb [Horig [Hclean _]]]].
  destruct (clean_docs_aligned cimp (c_chunked_docs c'))
    as [Hlen [Hmeta [Hcont Hplain]]].
  rewrite Hclean. repeat split; try assumption.
  intros query multiple s2. unfold get_similar_chunks_bm25. simpl.
  rewrite Hclean, Hlen.
  destruct (List.length (c_chunked_docs c') =? 0); reflexivity.
Qed.

Lemma setup_documents_aligned_witness :
  let cimp := CorpusSample.imports (F := R) in
  let imp := Sample.imports (F := R) None "unused" in
  let cfg := default_config Sample.template false in
  let docs := [Sample.doc "a" " alpha "; Sample.doc "b" "beta"] in
  exists c',
    setup_documents cimp docs None (init_corpus None) Sample.fresh
    = (inr c', Sample.fresh)
    /\ map content (c_chunked_docs_clean c') = ["alpha"; "beta"]%string
    /\ List.length (c_chunked_docs_clean c') = List.length (c_chunked_docs c').
Proof.
  intros cimp imp cfg docs. eexists. split; [reflexivity|].
  split; [reflexivity|].
  exact (proj1 (setup_documents_aligned R cimp imp cfg None docs None
                  (init_corpus None) _ Sample.fresh Sample.fresh eq_refl)).
Defined.

(** X15. With no filter, [setup_documents] appends the documents it is
    given to the chunks there are, with or without a vector store, and
    removes no duplicate: given the same documents twice, it leaves them
    twice in the corpus. With a filter, or given no documents, it
    replaces the chunks by what the vector store returns for the filter
    (for [""] when there is none) and ignores the documents it is given;
    without a vector store it then raises [ValueError]. *)
Theorem setup_documents_branches :
  forall (F : Type) (cimp : CorpusImports F)
         (docs : list Document) (flt : option string) (c : Corpus F)
         (s : State),
    (flt = None -> docs <> [] ->
     exists c' c'',
       setup_documents cimp docs flt c s = (inr c', s)
       /\ c_chunked_docs c' = c_chunked_docs c ++ docs
       /\ setup_documents cimp docs flt c' s = (inr c'', s)
       /\ c_chunked_docs c'' = c_chunked_docs c ++ docs ++ docs)
    /\ (flt <> None \/ docs = [] ->
        match c_vecdb c with
        | None =>
            setup_documents cimp docs flt c s
            = (inl (ValueError "VecDB not set"), s)
        | Some db =>
            exists c',
              setup_documents cimp docs flt c s = (inr c', s)
              /\ c_chunked_docs c' = get_all_documents db (or_default flt "")
              /\ setup_documents cimp [] flt c s = (inr c', s)
        end).
Proof.
  intros F cimp docs flt c s. split.
  - intros -> Hne. destruct docs as [|d docs]; [congruence|].
    eexists. eexists. split; [reflexivity|]. split; [reflexivity|].
    split; [reflexivity|]. simpl. now rewrite <- app_assoc.
  - intros Hcase. unfold setup_documents.
    assert (Hb : (match flt with None => true | Some _ => false end)
                 && (0 <? List.length docs) = false).
    { destruct flt as [f|]; [reflexivity|].
      destruct Hcase as [Hf| ->]; [congruence | reflexivity]. }
    rewrite Hb.
    assert (Hb0 : (match flt with None => true | Some _ => false end)
                  && (0 <? List.length (@nil Document)) = false)
      by apply andb_false_r.
    rewrite Hb0.
    destruct (c_vecdb c) as [db|]; [|reflexivity].
    eexists. split; [reflexivity|]. split; reflexivity.
Qed.

Lemma setup_documents_branches_witness :
  let cimp := CorpusSample.imports (F := R) in
  let docs := [Sample.doc "a" "alpha"] in
  exists c' c'',
    setup_documents cimp docs None (init_corpus None) Sample.fresh
    = (inr c', Sample.fresh)
    /\ c_chunked_docs c' = docs
    /\ setup_documents cimp docs None c' Sample.fresh = (inr c'', Sample.fresh)
    /\ c_chunked_docs c'' = docs ++ docs.
Proof.
  intros cimp docs.
  exact (proj1 (setup_documents_branches R cimp docs None (init_corpus None)
                  Sample.fresh) eq_refl ltac:(discriminate)).
Defined.

(** X16. After [set_filter(f)] has set up the documents, the semantic
    search and the lexical corpus are under the same filter: the
    configuration holds [f], every other option as it was, the semantic
    search passes [f] to the vector store, and the chunks are what the
    vector store returns for [f] (all documents, asked for with [""],
    when [f] is empty). The chunks there were before are gone. *)
Theorem set_filter_consistent :
  forall (F : Type) (cimp : CorpusImports F) (cfg : Config)
         (lm : option LanguageModel) (flt : string) (c c' : Corpus F)
         (s s' : State),
    snd (set_filter cimp flt cfg c) s = (inr c', s') ->
    let cfg' := fst (set_filter cimp flt cfg c) in
    filter cfg' = Some flt
    /\ set_config_filter (filter cfg) cfg' = set_config_filter (filter cfg) cfg
    /\ exists db,
         c_vecdb c = Some db
         /\ c_chunked_docs c' = get_all_documents db (or_default (Some flt) "")
         /\ c_chunked_docs_clean c' = clean_docs cimp (c_chunked_docs c')
         /\ forall query k s2,
              get_semantic_search_results (agent_of cfg' lm c') query k s2
              = (inr (similar_texts_with_scores (searchable db) query k
                        (Some flt)), s2).
Proof.
  intros F cimp cfg lm flt c c' s s' Hrun. simpl in Hrun. cbv zeta.
  destruct (setup_documents_inv cimp [] (Some flt) c c' s s' Hrun)
    as [_ [Hdb [_ [Hclean Hcase]]]].
  split; [reflexivity|]. split; [reflexivity|].
  destruct Hcase as [[Hf _]|[_ [db [Hc Hch]]]]; [discriminate|].
  exists db. split; [exact Hc|]. split; [exact Hch|]. split; [exact Hclean|].
  intros query k s2. unfold get_semantic_search_results. simpl.
  rewrite Hdb, Hc. reflexivity.
Qed.

Lemma set_filter_consistent_witness :
  let cimp := CorpusSample.imports (F := R) in
  let cfg := default_config Sample.template false in
  let db := CorpusSample.collection [Sample.doc "a" "alpha"] in
  let c := init_corpus (Some db) in
  exists c',
    snd (set_filter cimp "genre = crime" cfg c) Sample.fresh
    = (inr c', Sample.fresh)
    /\ filter (fst (set_filter cimp "genre = crime" cfg c))
       = Some "genre = crime"%string.
Proof.
  intros cimp cfg db c. eexists. split; [reflexivity|].
  exact (proj1 (set_filter_consistent R cimp cfg None "genre = crime" c _
                  Sample.fresh Sample.fresh eq_refl)).
Defined.

(** ** Responding: what is saved, and what ["?"] does next *)

Lemma startswith_of_eqb (p q : string) :
  String.eqb q p = true -> Py.startswith p q = true.
Proof.
  intro E. apply String.eqb_eq in E. subst q. unfold Py.startswith.
  rewrite <- (append_nil_r p) at 2. apply prefix_app.
Qed.

Lemma justify_response_run (s : State) : justify_response s = (inr None, s).
Proof.
  unfold justify_response, bind, get_response. now destruct (response s).
Qed.

Section RespondingFacts.
Context {F : Type} `{FloatOps F} `{FloatExp F}.
Variable imp : Imports F.
Variable self : Agent F.
Variable base : ChatAgentBase.
Variable original_docs : list Document.

Lemma summarize_docs_keeps (instruction : string) :
  keeps_attributes (summarize_docs self base original_docs instruction).
Proof. unfold summarize_docs. repeat keeps_step. Qed.

(** A message that is no command goes to [answer_from_docs]. *)
Lemma llm_response_question (q : string) (s : State) :
  llm_can_respond base (TextQuery q) = true ->
  Py.startswith "!" q = false ->
  Py.startswith "?" q = false ->
  Py.startswith "summar" q = false ->
  q <> ""%string ->
  llm_response imp self base original_docs (TextQuery q) s
  = bind (answer_from_docs imp self q)
      (fun response =>
         ret (Some {| cd_content := cd_content response;
                      cd_source := cd_source response;
                      cd_sender := LLM;
                      cd_cached := false |})) s.
Proof.
  intros Hcan Hbang Hq Hsum Hne. unfold llm_response.
  rewrite Hcan, Hbang. cbv [negb].
  destruct (String.eqb_spec q "") as [->|_]; [congruence|].
  unfold bind at 1, get_response.
  assert (E1 : String.eqb q "?" = false).
  { destruct (String.eqb q "?") eqn:E; [|reflexivity].
    apply startswith_of_eqb in E. congruence. }
  assert (E2 : String.eqb q "??" = false).
  { destruct (String.eqb_spec q "??") as [->|_]; [discriminate|reflexivity]. }
  rewrite E1, E2, Hq, Hsum. reflexivity.
Qed.

(** The message ["?"]: the evidence when a response is saved, a summary
    of the documents when none is. *)
Lemma llm_response_evidence (s : State) :
  llm_can_respond base (TextQuery "?") = true ->
  llm_response imp self base original_docs (TextQuery "?") s
  = match response s with
    | Some _ => (inr None, s)
    | None =>
        summarize_docs self base original_docs
          "Give a concise summary of the following text:" s
    end.
Proof.
  intro Hcan. unfold llm_response. rewrite Hcan.
  cbv [negb]. change (Py.startswith "!" "?") with false.
  change (String.eqb "?" "") with false. cbv iota.
  unfold bind at 1, get_response.
  destruct (response s) as [r|]; [apply justify_response_run | reflexivity].
Qed.

End RespondingFacts.

(** X17. After [llm_response] has answered a question with a
    synthesised answer (the agent not in [retrieve_only] mode, the
    content not [NO_ANSWER]), the saved response has the content and
    the source of the document returned. The message ["?"] then goes to
    [justify_response], which returns [None], touches nothing and shows
    that source. *)
Theorem llm_response_then_justify :
  forall (F : Type) (ops : FloatOps F) (ex : FloatExp F)
         (imp : Imports F) (self : Agent F) (base : ChatAgentBase)
         (original_docs : list Document) (q : string) (r : ChatDocument)
         (s s' : State),
    llm_can_respond base (TextQuery q) = true ->
    llm_can_respond base (TextQuery "?") = true ->
    Py.startswith "!" q = false ->
    Py.startswith "?" q = false ->
    Py.startswith "summar" q = false ->
    retrieve_only (config self) = false ->
    cd_content r <> NO_ANSWER imp ->
    llm_response imp self base original_docs (TextQuery q) s
    = (inr (Some r), s') ->
    (exists saved,
        response s' = Some saved
        /\ cd_content saved = cd_content r
        /\ cd_source saved = cd_source r)
    /\ llm_response imp self base original_docs (TextQuery "?") s'
       = (inr None, s')
    /\ justification (response s') = ("[magenta]" ++ cd_source r)%string.
Proof.
  intros F ops ex imp self base original_docs q r s s'
         Hcan Hcan' Hbang Hq Hsum Hro Hna Hrun.
  assert (Hne : q <> ""%string).
  { intros ->. unfold llm_response in Hrun. rewrite Hcan in Hrun.
    simpl in Hrun. discriminate. }
  rewrite (llm_response_question imp self base original_docs q s
             Hcan Hbang Hq Hsum Hne) in Hrun.
  apply bind_inr_inv in Hrun. destruct Hrun as [r0 [s1 [Ha Hret]]].
  injection Hret as <- <-.
  pose proof (answer_from_docs_effects imp self q s) as He.
  rewrite Ha in He.
  destruct He as [[_ [_ [->|Hro']]]|[_ [Hr [_ [[src Hsrc] _]]]]].
  - exfalso. now apply Hna.
  - congruence.
  - simpl in Hna |- *. split; [now exists r0|].
    rewrite (llm_response_evidence imp self base original_docs s1 Hcan'), Hr.
    split; [reflexivity|]. unfold justification. now rewrite Hsrc.
Qed.

(** X18. In [retrieve_only] mode a question answered by [llm_response]
    saves no response: when none was saved before, none is saved
    after, and the message ["?"] shows no evidence then but goes to
    [summarize_docs], as it does before the first question. *)
Theorem llm_response_retrieve_only_no_evidence :
  forall (F : Type) (ops : FloatOps F) (ex : FloatExp F)
         (imp : Imports F) (self : Agent F) (base : ChatAgentBase)
         (original_docs : list Document) (q : string) (r : ChatDocument)
         (s s' : State),
    llm_can_respond base (TextQuery q) = true ->
    llm_can_respond base (TextQuery "?") = true ->
    Py.startswith "!" q = false ->
    Py.startswith "?" q = false ->
    Py.startswith "summar" q = false ->
    retrieve_only (config self) = true ->
    response s = None ->
    llm_response imp self base original_docs (TextQuery q) s
    = (inr (Some r), s') ->
    response s' = None
    /\ dialog s' = dialog s
    /\ llm_response imp self base original_docs (TextQuery "?") s'
       = summarize_docs self base original_docs
           "Give a concise summary of the following text:" s'.
Proof.
  intros F ops ex imp self base original_docs q r s s'
         Hcan Hcan' Hbang Hq Hsum Hro Hnone Hrun.
  assert (Hne : q <> ""%string).
  { intros ->. unfold llm_response in Hrun. rewrite Hcan in Hrun.
    simpl in Hrun. discriminate. }
  rewrite (llm_response_question imp self base original_docs q s
             Hcan Hbang Hq Hsum Hne) in Hrun.
  apply bind_inr_inv in Hrun. destruct Hrun as [r0 [s1 [Ha Hret]]].
  injection Hret as <- <-.
  pose proof (answer_from_docs_effects imp self q s) as He.
  rewrite Ha in He.
  destruct He as [[Hd [Hr _]]|[Hro' _]]; [|congruence].
  rewrite Hnone in Hr. split; [exact Hr|]. split; [exact Hd|].
  rewrite (llm_response_evidence imp self base original_docs s1 Hcan'), Hr.
  reflexivity.
Qed.

(** X19. One call of [llm_response] adds at most one pair to the
    dialog and removes none; the saved response is as it was, or it is
    a response whose content and source are those of the document
    returned. When the call raises, the dialog and the saved response
    are as they were: no exchange is recorded by halves. *)
Theorem llm_response_conversation :
  forall (F : Type) (ops : FloatOps F) (ex : FloatExp F)
         (imp : Imports F) (self : Agent F) (base : ChatAgentBase)
         (original_docs : list Document) (query : Query) (s : State),
    match llm_response imp self base original_docs query s with
    | (inl _, s') => dialog s' = dialog s /\ response s' = response s
    | (inr res, s') =>
        (exists new, dialog s' = dialog s ++ new /\ List.length new <= 1)
        /\ (response s' = response s
            \/ exists saved,
                 response s' = Some saved
                 /\ res = Some {| cd_content := cd_content saved;
                                  cd_source := cd_source saved;
                                  cd_sender := LLM;
                                  cd_cached := false |})
    end.
Proof.
  intros F ops ex imp self base original_docs query s.
  assert (Hsame : forall (res : option ChatDocument),
             (exists new, dialog s = dialog s ++ new /\ List.length new <= 1)
             /\ (response s = response s
                 \/ exists saved,
                      response s = Some saved
                      /\ res = Some {| cd_content := cd_content saved;
                                       cd_source := cd_source saved;
                                       cd_sender := LLM;
                                       cd_cached := false |})).
  { intro res. split; [|now left]. exists []. rewrite app_nil_r.
    split; [reflexivity | simpl; lia]. }
  assert (Hkeeps : forall (m : M (option ChatDocument)),
             keeps_attributes m ->
             match m s with
             | (inl _, s') => dialog s' = dialog s /\ response s' = response s
             | (inr res, s') =>
                 (exists new, dialog s' = dialog s ++ new
                              /\ List.length new <= 1)
                 /\ (response s' = response s
                     \/ exists saved,
                          response s' = Some saved
                          /\ res = Some {| cd_content := cd_content saved;
                                           cd_source := cd_source saved;
                                           cd_sender := LLM;
                                           cd_cached := false |})
             end).
  { intros m Hm. destruct (Hm s) as [Hd Hr].
    destruct (m s) as [[e|res] s']; simpl in Hd, Hr; [now split|].
    rewrite Hd, Hr. apply Hsame. }
  unfold llm_response.
  destruct (negb (llm_can_respond base query)); [apply Hsame|].
  destruct (match query with
            | NoQuery => None
            | TextQuery q => Some q
            | DocQuery d => Some (cd_content d)
            end) as [q|].
  2: { destruct (llm self); [apply Hsame | now split]. }
  destruct (Py.startswith "!" q).
  { destruct (llm self); [|now split]. simpl. split; [|now left].
    eexists. split; [reflexivity | simpl; lia]. }
  destruct (String.eqb q ""); [apply Hsame|].
  unfold bind at 1, get_response.
  destruct (String.eqb q "?" && _).
  { rewrite justify_response_run. apply Hsame. }
  destruct (_ || String.eqb q "??").
  { apply Hkeeps, summarize_docs_keeps. }
  pose proof (answer_from_docs_effects imp self q s) as He.
  unfold bind.
  destruct (answer_from_docs imp self q s) as [[e|r] s']; [exact He|].
  simpl. destruct He as [[Hd [Hr _]]|[_ [Hr [_ [_ [q' [Hd _]]]]]]].
  - rewrite Hd, Hr. apply Hsame.
  - split.
    + exists [(q', cd_content r)]. split; [exact Hd | simpl; lia].
    + right. exists r. now split.
Qed.

Lemma llm_response_then_justify_witness :
  let db := Sample.store Sample.hits (fun _ => []) in
  let imp := Sample.imports (F := R) None example_response in
  let self := Sample.agent Sample.config_without_diversity (Some db) (Some []) in
  let r := {| cd_content := "The answer is X.";
              cd_source := "SOURCE: doc1.pdf";
              cd_sender := LLM; cd_cached := false |} in
  let s' := snd (llm_response imp self (RespondSample.base 4096) []
                   (TextQuery "query") Sample.fresh) in
  llm_response imp self (RespondSample.base 4096) [] (TextQuery "query")
    Sample.fresh = (inr (Some r), s')
  /\ justification (response s') = "[magenta]SOURCE: doc1.pdf"%string.
Proof.
  intros db imp self r s'.
  assert (Hrun : llm_response imp self (RespondSample.base 4096) []
                   (TextQuery "query") Sample.fresh = (inr (Some r), s'))
    by (vm_compute; reflexivity).
  split; [exact Hrun|].
  refine (proj2 (proj2 (llm_response_then_justify R R_ops R_exp imp self
                          (RespondSample.base 4096) [] "query" r
                          Sample.fresh s' eq_refl eq_refl eq_refl eq_refl
                          eq_refl eq_refl _ Hrun))).
  intro E. discriminate E.
Defined.

Lemma llm_response_retrieve_only_no_evidence_witness :
  let db := Sample.store Sample.hits (fun _ => []) in
  let imp := Sample.imports (F := R) None "unused" in
  let self := Sample.agent RespondSample.retrieve_only_config (Some db)
                (Some []) in
  let r := {| cd_content :=
                Py.join (Py.nl ++ Py.nl)
                  ["alpha, as the query saw it"; "beta"]%string;
              cd_source := "src-1";
              cd_sender := LLM; cd_cached := false |} in
  let s' := snd (llm_response imp self (RespondSample.base 4096) []
                   (TextQuery "query") Sample.fresh) in
  llm_response imp self (RespondSample.base 4096) [] (TextQuery "query")
    Sample.fresh = (inr (Some r), s')
  /\ response s' = None.
Proof.
  intros db imp self r s'.
  assert (Hrun : llm_response imp self (RespondSample.base 4096) []
                   (TextQuery "query") Sample.fresh = (inr (Some r), s'))
    by (vm_compute; reflexivity).
  split; [exact Hrun|].
  exact (proj1 (llm_response_retrieve_only_no_evidence R R_ops R_exp imp self
                  (RespondSample.base 4096) [] "query" r
                  Sample.fresh s' eq_refl eq_refl eq_refl eq_refl
                  eq_refl eq_refl eq_refl Hrun)).
Defined.

(** ** The text that is summarised *)

(** X20. With an LLM, a parser and at least one original document,
    [summarize_docs] never raises: it sends the base class's LLM one
    prompt, built from the instruction and a text, and leaves the dialog
    and the saved response alone. The text is the contents of the
    original documents joined by blank lines when their token count is
    within [MAX_INPUT_TOKENS]; otherwise it is decoded from the first
    tokens of that text, at most [MAX_INPUT_TOKENS] of them when that
    number is not negative, and a warning is logged. When
    [MAX_INPUT_TOKENS] is negative, the slice drops that many tokens
    from the end instead and keeps the others. *)
Theorem summarize_docs_truncation :
  forall (F : Type) (self : Agent F) (base : ChatAgentBase)
         (original_docs : list Document) (instruction : string)
         (lm : LanguageModel) (p : Parser) (s : State),
    llm self = Some lm ->
    parser base = Some p ->
    original_docs <> [] ->
    let full_text := Py.join (Py.nl ++ Py.nl) (map content original_docs) in
    let MAX_INPUT_TOKENS :=
      (completion_context_length base lm - max_output_tokens base - 100)%Z in
    exists (text : string) (s' : State),
      summarize_docs self base original_docs instruction s
      = (inr (super_llm_response base
                (Some (summarize_docs_prompt instruction text))), s')
      /\ dialog s' = dialog s
      /\ response s' = response s
      /\ if (MAX_INPUT_TOKENS <? num_tokens p full_text)%Z
         then exists kept dropped : list Z,
                tokenizer_encode p full_text = kept ++ dropped
                /\ text = tokenizer_decode p kept
                /\ ((0 <= MAX_INPUT_TOKENS)%Z ->
                    (Z.of_nat (List.length kept) <= MAX_INPUT_TOKENS)%Z)
                /\ ((MAX_INPUT_TOKENS < 0)%Z ->
                    List.length dropped
                    = Nat.min (Z.to_nat (- MAX_INPUT_TOKENS))
                              (List.length (tokenizer_encode p full_text)))
                /\ log s'
                   = log s
                     ++ [Warning ("Summarizing after truncating text to " ++
                                  Py.str_of_int MAX_INPUT_TOKENS ++ " tokens")]
         else text = full_text /\ s' = s.
Proof.
  intros F self base original_docs instruction lm p s Hlm Hp Hne.
  cbv zeta. unfold summarize_docs. rewrite Hlm, Hp.
  destruct original_docs as [|d0 docs]; [congruence|].
  change (List.length (d0 :: docs) =? 0) with false. cbv iota.
  set (full_text := Py.join (Py.nl ++ Py.nl) (map content (d0 :: docs))).
  set (MAX := (completion_context_length base lm - max_output_tokens base
               - 100)%Z).
  destruct (MAX <? num_tokens p full_text)%Z.
  - eexists. eexists. split; [reflexivity|].
    split; [reflexivity|]. split; [reflexivity|].
    set (toks := tokenizer_encode p full_text).
    set (m := if (0 <=? MAX)%Z then Z.to_nat MAX
              else List.length toks - Z.to_nat (- MAX)).
    assert (Hslice : Py.slice_to MAX toks = firstn m toks).
    { unfold Py.slice_to, m. now destruct (0 <=? MAX)%Z. }
    exists (firstn m toks), (skipn m toks).
    split; [now rewrite firstn_skipn|]. split; [now rewrite Hslice|].
    split; [|split; [|reflexivity]].
    + intro Hpos. rewrite length_firstn. unfold m.
      destruct (Z.leb_spec 0 MAX); lia.
    + intro Hneg. rewrite length_skipn. unfold m.
      destruct (Z.leb_spec 0 MAX); lia.
  - eexists. eexists. split; [reflexivity|]. now repeat split.
Qed.

Lemma summarize_docs_truncation_witness :
  let self := Sample.agent (F := R) (default_config Sample.template false)
                None (Some []) in
  let base := RespondSample.base 105 in
  let docs := [Sample.doc "a" "alpha"; Sample.doc "b" "beta"] in
  summarize_docs self base docs "Summarize:" Sample.fresh
  = (inr (super_llm_response base
            (Some (summarize_docs_prompt "Summarize:" "alpha"))),
     logged (Warning "Summarizing after truncating text to 5 tokens")
            Sample.fresh)
  /\ exists text s',
       summarize_docs self base docs "Summarize:" Sample.fresh
       = (inr (super_llm_response base
                 (Some (summarize_docs_prompt "Summarize:" text))), s')
       /\ dialog s' = dialog Sample.fresh.
Proof.
  intros self base docs. split; [reflexivity|].
  destruct (summarize_docs_truncation R self base docs "Summarize:"
              {| followup_to_standalone := fun _ q => q |}
              RespondSample.char_parser Sample.fresh eq_refl eq_refl
              ltac:(discriminate))
    as [text [s' [Hrun [Hd _]]]].
  exists text, s'. split; [exact Hrun | exact Hd].
Defined.

(** ** Every passage returned was found *)

Section Found.
Context {F : Type} `{FloatOps F} `{FloatExp F}.
Variable imp : Imports F.
Variable self : Agent F.

Lemma get_similar_chunks_bm25_inv (query : string) (multiple : Z)
  (ds : list (Document * F)) (s s' : State) :
  get_similar_chunks_bm25 imp self query multiple s = (inr ds, s') ->
  forall p, In p (map fst ds) ->
    exists docs clean,
      chunked_docs self = Some docs
      /\ chunked_docs_clean self = Some clean
      /\ In p (map fst (find_closest_matches_with_bm25 imp docs clean query
                          (n_similar_docs (config self) * multiple)%Z)).
Proof.
  unfold get_similar_chunks_bm25.
  destruct (chunked_docs self) as [docs|].
  2: { intro E. injection E as <- _. intros p []. }
  destruct (List.length docs =? 0).
  { intro E. injection E as <- _. intros p []. }
  destruct (chunked_docs_clean self) as [clean|].
  2: { intro E. injection E as <- _. intros p []. }
  destruct (List.length clean =? 0).
  { intro E. injection E as <- _. intros p []. }
  intro E. injection E as <- _. intros p Hp. now exists docs, clean.
Qed.

Lemma get_fuzzy_matches_inv (query : string) (multiple : Z)
  (ds : list Document) (s s' : State) :
  get_fuzzy_matches imp self query multiple s = (inr ds, s') ->
  forall p, In p ds ->
    exists docs clean,
      chunked_docs self = Some docs
      /\ chunked_docs_clean self = Some clean
      /\ In p (find_fuzzy_matches_in_docs imp query docs clean
                 (n_similar_docs (config self) * multiple)%Z
                 (n_fuzzy_neighbor_words (config self))
                 (n_fuzzy_neighbor_words (config self))).
Proof.
  unfold get_fuzzy_matches.
  destruct (chunked_docs self) as [docs|].
  2: { intro E. injection E as <- _. intros p []. }
  destruct (chunked_docs_clean self) as [clean|].
  2: { intro E. injection E as <- _. intros p []. }
  intro E. injection E as <- _. intros p Hp. now exists docs, clean.
Qed.

(** What the cross-encoder returns is part of what it was given, and
    no more than [n_similar_docs] passages when that is not negative. *)
Lemma rerank_with_cross_encoder_part (query : string)
  (passages out : list Document) (s s' : State) :
  rerank_with_cross_encoder imp self query passages s = (inr out, s') ->
  incl out passages
  /\ ((0 <= n_similar_docs (config self))%Z ->
      List.length out <= Z.to_nat (n_similar_docs (config self))).
Proof.
  unfold rerank_with_cross_encoder.
  destruct (CrossEncoder imp _) as [model|]; [|discriminate].
  intro E. injection E as <- _.
  set (scores := map logistic _).
  set (sp := Py.sorted_reverse fst f_ltb (combine scores passages)).
  assert (Hsp : Permutation (map snd sp) passages).
  { eapply Permutation_trans;
      [apply Permutation_map; apply sorted_reverse_perm|].
    rewrite map_snd_combine; [apply Permutation_refl|].
    unfold scores. now rewrite length_map, predict_length, length_map. }
  split.
  - destruct (slice_to_firstn (n_similar_docs (config self)) sp) as [n ->].
    intros p Hp. eapply Permutation_in; [exact Hsp|].
    rewrite <- firstn_map in Hp.
    rewrite <- (firstn_skipn n (map snd sp)). apply in_or_app. now left.
  - intro Hpos. unfold Py.slice_to.
    destruct (Z.leb_spec 0 (n_similar_docs (config self))); [|lia].
    rewrite length_map, length_firstn. lia.
Qed.

Lemma expand_and_rerank_part (query : string) (passages out : list Document)
  (s s' : State) :
  n_neighbor_chunks (config self) = 0%Z ->
  expand_and_rerank imp self query passages s = (inr out, s') ->
  incl out passages
  /\ (cross_encoder_reranking_model (config self) <> ""%string ->
      (0 <= n_similar_docs (config self))%Z ->
      List.length out <= Z.to_nat (n_similar_docs (config self))).
Proof.
  intros Hz Hrun. unfold expand_and_rerank in Hrun.
  apply bind_inr_inv in Hrun. destruct Hrun as [ps3 [s1 [Hce Hrun]]].
  apply bind_inr_inv in Hrun. destruct Hrun as [ps4 [s2 [Hdiv Hrun]]].
  injection Hrun as <- _.
  assert (Hsame : map fst (add_context_window self
                             (map (fun p => (p, f_zero)) passages))
                  = passages).
  { destruct (add_context_window_cases self
                (map (fun p => (p, f_zero)) passages))
      as [->|[db [_ [Hn _]]]]; [|congruence].
    rewrite map_map. simpl. apply map_id. }
  rewrite Hsame in Hce.
  assert (H3 : incl ps3 passages
               /\ (cross_encoder_reranking_model (config self) <> ""%string ->
                   (0 <= n_similar_docs (config self))%Z ->
                   List.length ps3 <= Z.to_nat (n_similar_docs (config self)))).
  { destruct (String.eqb_spec (cross_encoder_reranking_model (config self)) "")
      as [E|E]; simpl in Hce.
    - injection Hce as <- _. split; [apply incl_refl | congruence].
    - destruct (rerank_with_cross_encoder_part _ _ _ _ _ Hce) as [Hi Hl].
      split; [exact Hi | intros _; exact Hl]. }
  assert (H4 : Permutation ps4 ps3).
  { destruct (rerank_diversity (config self)).
    - exact (rerank_with_diversity_perm self _ _ _ _ Hdiv).
    - injection Hdiv as <- _. apply Permutation_refl. }
  assert (H5 : Permutation
                 (if rerank_periphery (config self)
                  then rerank_to_periphery ps4 else ps4) ps3).
  { destruct (rerank_periphery (config self)); [|exact H4].
    eapply Permutation_trans; [apply rerank_to_periphery_perm | exact H4]. }
  destruct H3 as [Hi Hl]. split.
  - intros p Hp. apply Hi. eapply Permutation_in; [exact H5 | exact Hp].
  - intros Hm Hpos. rewrite (Permutation_length H5). now apply Hl.
Qed.

Lemma id2passage_incl (passages : list Document) :
  incl (Py.values (id2passage imp passages)) passages.
Proof.
  intros p Hp. unfold Py.values, id2passage in Hp.
  apply in_map_iff in Hp. destruct Hp as [[k p'] [E Hin]].
  simpl in E. subst p'. apply dict_of_In, last_with_key_In in Hin.
  apply in_map_iff in Hin. destruct Hin as [p' [E Hin]].
  now injection E as _ <-.
Qed.

Lemma id2doc_score_incl (docs_and_scores : list (Document * F)) :
  incl (Py.values (id2doc_score imp docs_and_scores)) docs_and_scores.
Proof.
  intros ds Hds. unfold Py.values, id2doc_score in Hds.
  apply in_map_iff in Hds. destruct Hds as [[k ds'] [E Hin]].
  simpl in E. subst ds'. apply dict_of_In, last_with_key_In in Hin.
  apply in_map_iff in Hin. destruct Hin as [ds' [E Hin]].
  now injection E as _ <-.
Qed.

Lemma get_relevant_chunks_part (query : string) (query_proxies : list string)
  (out : list Document) (s s' : State) :
  n_neighbor_chunks (config self) = 0%Z ->
  get_relevant_chunks imp self query query_proxies s = (inr out, s') ->
  exists db,
    vecdb self = Some db
    /\ Forall (found imp self db query query_proxies) out
    /\ (cross_encoder_reranking_model (config self) <> ""%string ->
        (0 <= n_similar_docs (config self))%Z ->
        List.length out <= Z.to_nat (n_similar_docs (config self))).
Proof.
  intros Hz Hrun. unfold get_relevant_chunks in Hrun.
  destruct (vecdb self) as [db|] eqn:Hdb; [|discriminate].
  exists db. split; [reflexivity|].
  set (mult := if String.eqb (cross_encoder_reranking_model (config self)) ""
               then 1%Z else 3%Z) in *.
  set (k := (n_similar_docs (config self) * mult)%Z) in *.
  rewrite (bind_inr _ _ _ _ _ (semantic_hits_run self db (query :: query_proxies)
                                 k [] s Hdb)) in Hrun.
  rewrite app_nil_l in Hrun.
  set (hits := List.concat _) in Hrun.
  set (sem := map fst (Py.values (id2doc_score imp hits))) in Hrun.
  assert (Hsem : forall p, In p sem -> found imp self db query query_proxies p).
  { intros p Hp. left. unfold sem in Hp. apply in_map_iff in Hp.
    destruct Hp as [ds [<- Hds]]. apply id2doc_score_incl in Hds.
    unfold hits in Hds. apply in_concat in Hds.
    destruct Hds as [l [Hl Hds]]. apply in_map_iff in Hl.
    destruct Hl as [q [<- Hq]]. exists q. split; [exact Hq|].
    now apply in_map. }
  apply bind_inr_inv in Hrun. destruct Hrun as [ps1 [s2 [H1 Hrun]]].
  apply bind_inr_inv in Hrun. destruct Hrun as [ps2 [s3 [H2 Hrun]]].
  assert (Hps1 : forall p, In p ps1 -> found imp self db query query_proxies p).
  { destruct (use_bm25_search (config self)) eqn:Hb.
    - apply bind_inr_inv in H1. destruct H1 as [ds [s1' [Hbm Hret]]].
      injection Hret as <- _. intros p Hp. apply in_app_or in Hp.
      destruct Hp as [Hp|Hp]; [now apply Hsem|].
      right. left. split; [exact Hb|].
      exact (get_similar_chunks_bm25_inv _ _ _ _ _ Hbm p Hp).
    - injection H1 as <- _. exact Hsem. }
  assert (Hps2 : forall p, In p ps2 -> found imp self db query query_proxies p).
  { destruct (use_fuzzy_match (config self)) eqn:Hf.
    - apply bind_inr_inv in H2. destruct H2 as [ds [s2' [Hfz Hret]]].
      injection Hret as <- _. intros p Hp. apply in_app_or in Hp.
      destruct Hp as [Hp|Hp]; [now apply Hps1|].
      right. right. split; [exact Hf|].
      exact (get_fuzzy_matches_inv _ _ _ _ _ Hfz p Hp).
    - injection H2 as <- _. exact Hps1. }
  destruct (List.length _ =? 0) in Hrun.
  - injection Hrun as <- _. split; [constructor|]. intros _ _. simpl. lia.
  - destruct (expand_and_rerank_part _ _ _ _ _ Hz Hrun) as [Hi Hl].
    split; [|exact Hl]. apply Forall_forall. intros p Hp.
    apply Hps2, id2passage_incl, Hi, Hp.
Qed.

End Found.

(** X21. With [n_neighbor_chunks = 0], every passage that
    [get_relevant_chunks] returns was found by one of its searches: it
    is a semantic hit for the query or one of its proxies, a bm25 match
    or a fuzzy match, and the rerankers only select among these and
    reorder them. With a cross-encoder configured and [n_similar_docs]
    not negative, at most [n_similar_docs] passages are returned. *)
Theorem get_relevant_chunks_found :
  forall (F : Type) (ops : FloatOps F) (ex : FloatExp F)
         (imp : Imports F) (self : Agent F)
         (query : string) (query_proxies : list string)
         (out : list Document) (s s' : State),
    n_neighbor_chunks (config self) = 0%Z ->
    get_relevant_chunks imp self query query_proxies s = (inr out, s') ->
    exists db,
      vecdb self = Some db
      /\ Forall (found imp self db query query_proxies) out
      /\ (cross_encoder_reranking_model (config self) <> ""%string ->
          (0 <= n_similar_docs (config self))%Z ->
          List.length out <= Z.to_nat (n_similar_docs (config self))).
Proof.
  intros F ops ex imp self query query_proxies out s s' Hz Hrun.
  exact (get_relevant_chunks_part imp self query query_proxies out s s' Hz Hrun).
Qed.

Lemma get_relevant_chunks_found_witness :
  let db := Sample.store Sample.hits (fun _ => []) in
  let imp := Sample.imports (F := R) None "unused" in
  let self := Sample.agent Sample.config_without_diversity (Some db) (Some []) in
  let out := [Sample.doc "1" "alpha, as the proxy saw it";
              Sample.doc "3" "gamma"; Sample.doc "2" "beta"] in
  let s' := logged (Warning "No chunked docs; cannot use bm25-similarity")
                   Sample.fresh in
  get_relevant_chunks imp self "query" ["proxy"%string] Sample.fresh
  = (inr out, s')
  /\ exists db',
       vecdb self = Some db'
       /\ Forall (found imp self db' "query" ["proxy"%string]) out.
Proof.
  intros db imp self out s'. split; [reflexivity|].
  destruct (get_relevant_chunks_found R R_ops R_exp imp self "query"
              ["proxy"%string] out Sample.fresh s' eq_refl eq_refl)
    as [db' [Hdb [Hall _]]].
  exists db'. split; [exact Hdb | exact Hall].
Defined.

(** ** Follow-up questions *)

(** With a dialog behind it, and the agent not in assistant mode, the
    query is put to the LLM first and retrieval goes on with the
    stand-alone query it gives. *)
Lemma get_relevant_extracts_rewrites {F : Type} `{FloatOps F} `{FloatExp F}
  (imp : Imports F) (self : Agent F) (lm : LanguageModel)
  (query query' : string) (extracts : list Document) (s s' : State) :
  llm self = Some lm ->
  assistant_mode (config self) = false ->
  dialog s <> [] ->
  get_relevant_extracts imp self query s = (inr (query', extracts), s') ->
  query' = followup_to_standalone lm (dialog s) query.
Proof.
  intros Hlm Ham Hd Hrun. unfold get_relevant_extracts in Hrun.
  apply bind_inr_inv in Hrun. destruct Hrun as [dlg [s0 [Hg Hrun]]].
  unfold get_dialog in Hg. injection Hg as <- <-.
  apply bind_inr_inv in Hrun. destruct Hrun as [q [s1 [Hq Hrun]]].
  apply bind_inr_inv in Hrun. destruct Hrun as [px [s2 [_ Hrun]]].
  apply bind_inr_inv in Hrun. destruct Hrun as [px' [s3 [_ Hrun]]].
  apply bind_inr_inv in Hrun. destruct Hrun as [passages [s4 [_ Hrun]]].
  assert (Hq' : q = followup_to_standalone lm (dialog s) query).
  { rewrite Hlm, Ham in Hq. destruct (dialog s) as [|d0 dl]; [congruence|].
    simpl in Hq. unfold bind, emit in Hq. now injection Hq as <- _. }
  destruct (List.length passages =? 0).
  - injection Hrun as <- _ _. exact Hq'.
  - rewrite Hlm in Hrun.
    apply bind_inr_inv in Hrun. destruct Hrun as [out [s5 [_ Hret]]].
    injection Hret as <- _ _. exact Hq'.
Qed.

(** X22. What the dialog records of a follow-up question is its
    stand-alone form, not the question as it was put: when
    [answer_from_docs] synthesises an answer with a dialog behind it
    (the agent not in assistant mode), the pair it adds to the dialog
    is [llm.followup_to_standalone(dialog, query)] with the content of
    the answer, and the answer is the saved response. *)
Theorem answer_from_docs_follow_up :
  forall (F : Type) (ops : FloatOps F) (ex : FloatExp F)
         (imp : Imports F) (self : Agent F) (lm : LanguageModel)
         (query : string) (r : ChatDocument) (s s' : State),
    llm self = Some lm ->
    assistant_mode (config self) = false ->
    retrieve_only (config self) = false ->
    dialog s <> [] ->
    answer_from_docs imp self query s = (inr r, s') ->
    r <> no_answer_response imp ->
    dialog s'
    = dialog s
      ++ [(followup_to_standalone lm (dialog s) query, cd_content r)]
    /\ response s' = Some r.
Proof.
  intros F ops ex imp self lm query r s s' Hlm Ham Hro Hd Hrun Hr.
  pose proof (answer_from_docs_effects imp self query s) as He.
  rewrite Hrun in He.
  destruct He as [[_ [_ [E|E]]]|[_ [Hsaved [_ [_ [q' [Hdlg [_ Hx]]]]]]]];
    [congruence | congruence |].
  destruct Hx as [extracts [s1 Hx]].
  rewrite (get_relevant_extracts_rewrites imp self lm query q' extracts s s1
             Hlm Ham Hd Hx) in Hdlg.
  now split.
Qed.

Lemma answer_from_docs_follow_up_witness :
  let db := Sample.store Sample.hits (fun _ => []) in
  let imp := Sample.imports (F := R) None example_response in
  let self := {| config := Sample.config_without_diversity;
                 vecdb := Some db;
                 llm := Some {| followup_to_standalone :=
                                  fun _ _ => "query"%string |};
                 chunked_docs := Some [];
                 chunked_docs_clean := Some [] |} in
  let s := {| dialog := [("What is X?", "X is the answer.")]%string;
              response := None; log := [] |} in
  let r := {| cd_content := "The answer is X.";
              cd_source := "SOURCE: doc1.pdf";
              cd_sender := LLM; cd_cached := false |} in
  let s' := snd (answer_from_docs imp self "and why?" s) in
  answer_from_docs imp self "and why?" s = (inr r, s')
  /\ dialog s'
     = [("What is X?", "X is the answer."); ("query", "The answer is X.")]%string.
Proof.
  intros db imp self s r s'.
  assert (Hrun : answer_from_docs imp self "and why?" s = (inr r, s'))
    by (vm_compute; reflexivity).
  split; [exact Hrun|].
  refine (proj1 (answer_from_docs_follow_up R R_ops R_exp imp self _
                   "and why?" r s s' eq_refl eq_refl eq_refl _ Hrun _));
    discriminate.
Defined.

